(** * aries-chat: the message delivery engine and the automated message pipeline

    A shallow embedding of the socket handlers (send_message, delete_message,
    mark_messages_read, delete_multiple_messages), of the Message model's
    methods, of the queue consumer and of the daily planner, with the
    properties of the specification stated and settled on it.

    Conventions of the embedding.
    - A MongoDB collection is the list of its documents in insertion order.
    - An ObjectId is represented by its string rendering (what [toString()]
      returns); Mongoose's cast of a request value to an ObjectId is library
      code and is a parameter [castObjectId] of the handlers.
    - A JavaScript value that may be undefined or null is an [option]; a
      string is the UTF-8 encoding of its text, and its [length] is counted
      in UTF-16 code units as the language does.
    - [new Date()] and [Date.now()] are the field [now] of the environment of
      a call, in milliseconds; identifiers created by [new Message(..)] and
      [crypto.randomUUID()] are fields of the same environment.
    - A number is an IEEE 754 binary64 value, held as the rational it
      denotes; a product or a sum is the exact result rounded to the nearest
      double, ties to even. [Math.random()] is an oracle: a sequence of
      doubles of [0, 1). *)

From Stdlib Require Import List String Ascii ZArith QArith Qround Qpower Lia Lqa Bool.
From Stdlib Require Import Permutation DecimalString.
Import ListNotations.
Close Scope Q_scope.
Open Scope Z_scope.
Open Scope string_scope.

(** ** JavaScript primitives used by the handlers *)

Module Js.

(** [!!s] for a value that is a string, undefined or null. *)
Definition truthy (s : option string) : bool :=
  match s with
  | Some s => negb (s =? "")
  | None => false
  end.

(** [a || b] where [b] is a string. *)
Definition or_else (a : option string) (b : string) : string :=
  if truthy a then match a with Some s => s | None => b end else b.

(** [a || b] where [b] may itself be undefined. *)
Definition or_opt (a b : option string) : option string :=
  if truthy a then a else b.

(** A field of a request that is a string when it is given: absent
    ([undefined]), [null], or the string. *)
Inductive value := Undefined | Null | Str (s : string).

(** [String(v)] for a string or [null], as in a property access [o[v]]. *)
Definition property_key (v : option string) : string :=
  match v with Some s => s | None => "null" end.

(** [`${v}`] in a template literal. *)
Definition template (v : option string) : string :=
  match v with Some s => s | None => "undefined" end.

Definition startsWith (s p : string) : bool := String.prefix p s.

(** [s.includes(p)]. *)
Fixpoint includes (s p : string) : bool :=
  String.prefix p s ||
  match s with
  | EmptyString => false
  | String _ s' => includes s' p
  end.

Fixpoint drop (n : nat) (s : string) : string :=
  match n, s with
  | O, _ => s
  | S n', String _ s' => drop n' s'
  | S _, EmptyString => EmptyString
  end.

(** [s.replace(p, r)] with a string pattern: the first occurrence only. *)
Fixpoint replace (s p r : string) : string :=
  if String.prefix p s then r ++ drop (String.length p) s
  else match s with
       | EmptyString => EmptyString
       | String c s' => String c (replace s' p r)
       end.

(** [s.split(c)] for a one-character separator. *)
Fixpoint split (c : ascii) (s : string) : list string :=
  match s with
  | EmptyString => [EmptyString]
  | String a s' =>
      if Ascii.eqb a c then EmptyString :: split c s'
      else match split c s' with
           | [] => [String a EmptyString]
           | p :: ps => String a p :: ps
           end
  end.

(** The white space that [String.prototype.trim] strips (WhiteSpace and
    LineTerminator of the language), by its UTF-8 encoding: in one byte
    U+0009 to U+000D and U+0020; in two bytes U+00A0; in three bytes U+1680,
    U+2000 to U+200A, U+2028, U+2029, U+202F, U+205F, U+3000 and U+FEFF. *)
Definition is_space (c : ascii) : bool :=
  let n := nat_of_ascii c in
  (Nat.eqb n 32 || (Nat.leb 9 n && Nat.leb n 13))%bool.

Definition is_space2 (a b : ascii) : bool :=
  (Nat.eqb (nat_of_ascii a) 194 && Nat.eqb (nat_of_ascii b) 160)%bool.

Definition is_space3 (a b c : ascii) : bool :=
  let x := nat_of_ascii a in
  let y := nat_of_ascii b in
  let z := nat_of_ascii c in
  ((Nat.eqb x 225 && Nat.eqb y 154 && Nat.eqb z 128)
   || (Nat.eqb x 226 && Nat.eqb y 128
       && ((Nat.leb 128 z && Nat.leb z 138) || Nat.eqb z 168 || Nat.eqb z 169
           || Nat.eqb z 175))
   || (Nat.eqb x 226 && Nat.eqb y 129 && Nat.eqb z 159)
   || (Nat.eqb x 227 && Nat.eqb y 128 && Nat.eqb z 128)
   || (Nat.eqb x 239 && Nat.eqb y 187 && Nat.eqb z 191))%bool.

Fixpoint trimStart (s : string) : string :=
  match s with
  | EmptyString => EmptyString
  | String a s1 =>
      if is_space a then trimStart s1
      else match s1 with
           | EmptyString => s
           | String b s2 =>
               if is_space2 a b then trimStart s2
               else match s2 with
                    | EmptyString => s
                    | String c s3 => if is_space3 a b c then trimStart s3 else s
                    end
           end
  end.

(** The text without the white space it ends with: a suffix is dropped when
    all of it is white space. *)
Fixpoint trimEnd (s : string) : string :=
  match s with
  | EmptyString => EmptyString
  | String c s' => if trimStart s =? "" then EmptyString else String c (trimEnd s')
  end.

(** [s.trim()]. *)
Definition trim (s : string) : string := trimEnd (trimStart s).

(** [s.length]: the UTF-16 code units of the text, one for each character
    and two for a character outside the Basic Multilingual Plane (which
    takes four bytes); a byte [10xxxxxx] continues a character. *)
Fixpoint length (s : string) : nat :=
  match s with
  | EmptyString => O
  | String c s' =>
      let n := nat_of_ascii c in
      ((if (Nat.leb 128 n && Nat.ltb n 192)%bool then 0
        else if Nat.leb 240 n then 2 else 1) + length s')%nat
  end.

(** [Math.round(n / d)] for integers [n >= 0] and [d > 0]: the quotient is
    exact or has a finite binary expansion in every use below (d is 4 or
    2^20), and Math.round rounds a half upwards. *)
Definition round_div (n d : Z) : Z := (2 * n + d) / (2 * d).

(** A non-negative integer printed by [String(n)] or [n + '..']. *)
Definition of_Z (n : Z) : string :=
  NilZero.string_of_uint (N.to_uint (Z.to_N n)).

End Js.

Example includes_ex : Js.includes "data:image/png;base64,AAAA" ";base64," = true.
Proof. reflexivity. Qed.

Example replace_ex :
  Js.replace "data:image/pngbase64,AAAA" "base64," ";base64," = "data:image/png;base64,AAAA".
Proof. reflexivity. Qed.

Example split_ex : Js.split "," "a,b,,c" = ["a"; "b"; ""; "c"].
Proof. reflexivity. Qed.

Example trim_ex : Js.trim "  a b  " = "a b".
Proof. reflexivity. Qed.

(** White space beyond ASCII is stripped as well: a no-break space (U+00A0)
    before the text, an ideographic space (U+3000) and a byte order mark
    (U+FEFF) after it; white space inside the text stays. *)
Example trim_unicode_ex :
  Js.trim (String (ascii_of_nat 194) (String (ascii_of_nat 160)
            ("a b" ++ String (ascii_of_nat 227) (String (ascii_of_nat 128)
                        (String (ascii_of_nat 128)
                           (String (ascii_of_nat 239) (String (ascii_of_nat 187)
                              (String (ascii_of_nat 191) ""))))))))
  = "a b"
  /\ Js.trim (String (ascii_of_nat 194) (String (ascii_of_nat 160) " ")) = ""
  /\ Js.trim (String (ascii_of_nat 195) (String (ascii_of_nat 160) ""))
     = String (ascii_of_nat 195) (String (ascii_of_nat 160) "").
Proof. repeat split. Qed.

(** Characters of one, two, three and four bytes count 1, 1, 1 and 2. *)
Example length_ex :
  Js.length "abc" = 3%nat
  /\ Js.length (String (ascii_of_nat 197) (String (ascii_of_nat 159) "")) = 1%nat
  /\ Js.length (String (ascii_of_nat 226) (String (ascii_of_nat 130)
                   (String (ascii_of_nat 172) ""))) = 1%nat
  /\ Js.length (String (ascii_of_nat 240) (String (ascii_of_nat 159)
                   (String (ascii_of_nat 152) (String (ascii_of_nat 128) "")))) = 2%nat.
Proof. repeat split. Qed.

Example round_div_ex : Js.round_div 2 4 = 1 /\ Js.round_div 9 4 = 2 /\ Js.round_div 3 4 = 1.
Proof. repeat split. Qed.

Example of_Z_ex : Js.of_Z 11 ++ "MB" = "11MB".
Proof. reflexivity. Qed.

(** ** Data model (models/Message.js, models/Conversation.js, models/AutoMessage.js) *)

(** An ObjectId, by its string rendering. *)
Definition oid := string.

(** [metadata.deliveryStatus]: enum ['sent', 'delivered', 'read', 'failed']. *)
Inductive DeliveryStatus := Sent | Delivered | Read | Failed.

Definition DeliveryStatus_eqb (a b : DeliveryStatus) : bool :=
  match a, b with
  | Sent, Sent | Delivered, Delivered | Read, Read | Failed, Failed => true
  | _, _ => false
  end.

Record ReadEntry := {
  rb_user : oid;
  rb_readAt : Z;
  rb_sessionId : string }.

Record DeletedEntry := {
  df_user : oid;
  df_deletedAt : Z;
  df_deleteType : string }.

(** [fileData] as the send handler builds it ([processedFileData]); the
    thumbnail, duration and url are copied from the request unchanged and are
    left out, as is the pre-save re-normalisation of [data]. *)
Record FileData := {
  fd_name : option string;
  fd_type : option string;
  fd_data : string;
  fd_size : Z }.

(** A Message document; the fields of [metadata] are flattened. *)
Record Message := {
  m_id : oid;
  m_sender : oid;
  m_conversation : oid;
  m_content : string;
  m_type : string;
  m_messageId : string;
  m_sessionId : option string;
  m_fileData : option FileData;
  m_readBy : list ReadEntry;
  m_deletedFor : list DeletedEntry;
  m_isDeleted : bool;
  m_deletedAt : option Z;
  m_deletedBy : option oid;
  m_deliveryStatus : DeliveryStatus;
  m_sentAt : Z;
  m_deliveredAt : option Z;
  m_readAt : option Z;
  m_createdAt : Z }.

Record Conversation := {
  c_id : oid;
  c_participants : list oid;
  c_type : string;
  c_lastMessage : option oid;
  c_lastActivity : Z;
  c_isActive : bool }.

Record User := {
  u_id : oid;
  u_username : string;
  u_isActive : bool }.

Record AutoMessage := {
  a_id : oid;
  a_sender : oid;
  a_recipient : oid;
  a_content : string;
  a_sendDate : Z;
  a_isQueued : bool;
  a_isSent : bool;
  a_queuedAt : option Z;
  a_sentAt : option Z;
  a_conversation : option oid }.

(** The database: one list per collection. *)
Record Store := {
  conversations : list Conversation;
  messages : list Message;
  autoMessages : list AutoMessage;
  users : list User }.

Definition set_messages (st : Store) (ms : list Message) : Store :=
  {| conversations := conversations st; messages := ms;
     autoMessages := autoMessages st; users := users st |}.

Definition set_conversations (st : Store) (cs : list Conversation) : Store :=
  {| conversations := cs; messages := messages st;
     autoMessages := autoMessages st; users := users st |}.

Definition set_autoMessages (st : Store) (l : list AutoMessage) : Store :=
  {| conversations := conversations st; messages := messages st;
     autoMessages := l; users := users st |}.

(** Exceptions that the modelled code can raise. *)
Inductive exn :=
| CastError          (* a value that does not cast to an ObjectId *)
| ValidationError    (* Mongoose schema validation on save *)
| DuplicateKey       (* a unique index (E11000) *)
| TypeError          (* a property read on null or undefined *)
| SenderOnly.        (* Error('Only sender can delete message for everyone') *)

(** *** Message: validation, insertion, update *)

(** [type: enum [...]]. *)
Definition type_enum : list string :=
  ["text"; "image"; "file"; "video"; "audio"; "system"].

(** The schema validation that applies to the fields set by the code below:
    [content] required (a non-empty string) and of [length] at most 2000,
    [type] in its enum, [fileData.size] not below 0. *)
Definition validate (m : Message) : bool :=
  (negb (m_content m =? "")
   && Nat.leb (Js.length (m_content m)) 2000
   && existsb (String.eqb (m_type m)) type_enum
   && match m_fileData m with
      | Some fileData => Z.leb 0 (fd_size fileData)
      | None => true
      end)%bool.

(** [await new Message(..).save()]: validation, then the insertion, which the
    unique indexes on [_id] and on [messageId] may refuse. *)
Definition Message_insert (st : Store) (m : Message) : exn + Store :=
  if negb (validate m) then inl ValidationError
  else if existsb (fun m' => (m_id m' =? m_id m) || (m_messageId m' =? m_messageId m))%bool
                  (messages st)
  then inl DuplicateKey
  else inr (set_messages st (messages st ++ [m])).

(** [Message.findById] once the id is cast. *)
Definition find_message (st : Store) (o : oid) : option Message :=
  find (fun m => m_id m =? o) (messages st).

(** Writes the paths changed by [f] to the stored document [o] (the update
    that [doc.save()] issues for an existing document). *)
Definition update_message (st : Store) (o : oid) (f : Message -> Message) : Store :=
  set_messages st (map (fun m => if m_id m =? o then f m else m) (messages st)).

Definition update_conversation (st : Store) (o : oid) (f : Conversation -> Conversation) : Store :=
  set_conversations st (map (fun c => if c_id c =? o then f c else c) (conversations st)).

Definition set_delivery (s : DeliveryStatus) (deliveredAt : option Z) (m : Message) : Message :=
  {| m_id := m_id m; m_sender := m_sender m; m_conversation := m_conversation m;
     m_content := m_content m; m_type := m_type m; m_messageId := m_messageId m;
     m_sessionId := m_sessionId m; m_fileData := m_fileData m;
     m_readBy := m_readBy m; m_deletedFor := m_deletedFor m;
     m_isDeleted := m_isDeleted m; m_deletedAt := m_deletedAt m;
     m_deletedBy := m_deletedBy m; m_deliveryStatus := s; m_sentAt := m_sentAt m;
     m_deliveredAt := deliveredAt; m_readAt := m_readAt m;
     m_createdAt := m_createdAt m |}.

(** [$push: {readBy: e}, $set: {'metadata.deliveryStatus': 'read',
    'metadata.readAt': now}]. *)
Definition push_read (e : ReadEntry) (now : Z) (m : Message) : Message :=
  {| m_id := m_id m; m_sender := m_sender m; m_conversation := m_conversation m;
     m_content := m_content m; m_type := m_type m; m_messageId := m_messageId m;
     m_sessionId := m_sessionId m; m_fileData := m_fileData m;
     m_readBy := m_readBy m ++ [e]; m_deletedFor := m_deletedFor m;
     m_isDeleted := m_isDeleted m; m_deletedAt := m_deletedAt m;
     m_deletedBy := m_deletedBy m; m_deliveryStatus := Read; m_sentAt := m_sentAt m;
     m_deliveredAt := m_deliveredAt m; m_readAt := Some now;
     m_createdAt := m_createdAt m |}.

(** [this.isDeleted = true; this.deletedAt = now; this.deletedBy = userId]. *)
Definition mark_deleted (u : oid) (now : Z) (m : Message) : Message :=
  {| m_id := m_id m; m_sender := m_sender m; m_conversation := m_conversation m;
     m_content := m_content m; m_type := m_type m; m_messageId := m_messageId m;
     m_sessionId := m_sessionId m; m_fileData := m_fileData m;
     m_readBy := m_readBy m; m_deletedFor := m_deletedFor m;
     m_isDeleted := true; m_deletedAt := Some now;
     m_deletedBy := Some u; m_deliveryStatus := m_deliveryStatus m;
     m_sentAt := m_sentAt m; m_deliveredAt := m_deliveredAt m;
     m_readAt := m_readAt m; m_createdAt := m_createdAt m |}.

(** [this.deletedFor.push(e)]. *)
Definition push_deleted (e : DeletedEntry) (m : Message) : Message :=
  {| m_id := m_id m; m_sender := m_sender m; m_conversation := m_conversation m;
     m_content := m_content m; m_type := m_type m; m_messageId := m_messageId m;
     m_sessionId := m_sessionId m; m_fileData := m_fileData m;
     m_readBy := m_readBy m; m_deletedFor := m_deletedFor m ++ [e];
     m_isDeleted := m_isDeleted m; m_deletedAt := m_deletedAt m;
     m_deletedBy := m_deletedBy m; m_deliveryStatus := m_deliveryStatus m;
     m_sentAt := m_sentAt m; m_deliveredAt := m_deliveredAt m;
     m_readAt := m_readAt m; m_createdAt := m_createdAt m |}.

(** [conversation.lastMessage = id; conversation.lastActivity = now]. *)
Definition bump (id : oid) (now : Z) (c : Conversation) : Conversation :=
  {| c_id := c_id c; c_participants := c_participants c; c_type := c_type c;
     c_lastMessage := Some id; c_lastActivity := now; c_isActive := c_isActive c |}.

(** ['readBy.user': u] as a query condition: some entry is by [u]. *)
Definition read_by (u : oid) (m : Message) : bool :=
  existsb (fun r => rb_user r =? u) (m_readBy m).

(** ['deletedFor.user': u] as a query condition. *)
Definition deleted_for (u : oid) (m : Message) : bool :=
  existsb (fun d => df_user d =? u) (m_deletedFor m).

(** [messageSchema.methods.deleteForUser], the changes it makes to the
    document before [this.save()]. *)
Definition deleteForUser (m : Message) (userId : oid) (deleteType : string) (now : Z)
  : exn + (Message -> Message) :=
  if deleteType =? "forEveryone" then
    if negb (m_sender m =? userId) then inl SenderOnly
    else inr (mark_deleted userId now)
  else
    if deleted_for userId m then inr (fun m => m)
    else inr (push_deleted {| df_user := userId; df_deletedAt := now;
                              df_deleteType := deleteType |}).

(** ** Events emitted to the clients *)

(** Where an event goes: [socket.emit], [io.to(room).emit],
    [socket.to(room).emit] (the room without the calling socket). *)
Inductive target :=
| ToSocket
| ToRoom (room : string)
| ToRoomButSocket (room : string).

Inductive ErrorDetails :=
| SizeDetails (actualSize maxSize : string) (type : option string)
| Thrown (e : exn).

Inductive event :=
| EvError (message : string) (details : option ErrorDetails)
| EvMessageReceived (message : Message) (participants : list oid) (sessionId : string)
| EvAutoMessageReceived (message : Message) (conversation : oid) (sender : oid)
| EvMessageSent (messageId : string) (timestamp : Z) (status : DeliveryStatus)
| EvMessageDelivered (messageId : string) (status : DeliveryStatus)
| EvUnreadCountUpdated (senderId : oid) (conversationId : string) (unreadCount : nat)
| EvMessageDeletedForEveryone (messageId : string) (deletedBy : oid) (deletedAt : Z)
| EvMessageDeletedForMe (messageId : string) (deletedAt : Z)
| EvMessagesRead (userId : oid) (messageIds : list string) (sessionId : string) (readAt : Z)
| EvMessageReadReceipt (messageId : string) (readBy : oid) (readAt : Z) (conversationId : string)
| EvMultipleMessagesDeleted (deletedMessageIds : list string) (deletedCount totalRequested : nat).

Definition emit := (target * event)%type.

Definition conversation_room (conversationId : string) : string :=
  "conversation_" ++ conversationId.

Definition user_room (userId : oid) : string := "user_" ++ userId.

(** ** Requests *)

(** [fileData] of the request; [f_size] is the size the client declares,
    which the handler never reads. *)
Record FilePayload := {
  f_name : option string;
  f_type : option string;
  f_size : option Z;
  f_data : option string }.

(** The payload of [send_message]; [s_messageId] is the client's idempotency
    key. [s_type] tells [null] from an absent type, since the default of the
    destructuring applies to the latter only. *)
Record SendData := {
  s_conversationId : string;
  s_content : option string;
  s_type : Js.value;
  s_messageId : option string;
  s_sessionId : option string;
  s_fileData : option FilePayload }.

(** [messageIds] is [None] when it is absent or not an array. *)
Record ReadData := {
  r_messageIds : option (list string);
  r_conversationId : string;
  r_sessionId : option string }.

Record DeleteData := {
  d_messageId : string;
  d_deleteType : option string;
  d_conversationId : string }.

Record DeleteMultipleData := {
  dm_messageIds : option (list string);
  dm_conversationId : string }.

(** What a call reads from its surroundings. *)
Record Env := {
  now : Z;
  new_id : oid;
  uuid : string }.

(** The deferred promotion scheduled by a successful send: what the closure
    passed to [setTimeout] captures. *)
Record Timer := {
  t_saved : oid;
  t_messageId : string;
  t_sender : oid;
  t_conversationId : string;
  t_participants : list oid }.

(** ** File classification and size limits (send_message) *)

Definition MB : Z := 1024 * 1024.

Definition maxSizes : list (string * Z) :=
  [("image", 10 * MB); ("video", 50 * MB); ("audio", 20 * MB); ("file", 20 * MB)].

Fixpoint lookup (k : string) (l : list (string * Z)) : option Z :=
  match l with
  | [] => None
  | (k', v) :: r => if k' =? k then Some v else lookup k r
  end.

(** Property names that every object literal inherits: [maxSizes[k]] is then a
    function or an object, which is truthy and is not a number. *)
Definition inherited : list string :=
  ["constructor"; "toString"; "toLocaleString"; "valueOf"; "hasOwnProperty";
   "isPrototypeOf"; "propertyIsEnumerable"; "__proto__"; "__defineGetter__";
   "__defineSetter__"; "__lookupGetter__"; "__lookupSetter__"].

(** [maxSizes[messageType] || maxSizes.file] for a type that is a string or
    [null]; [None] is a value that is not a number, against which every
    comparison is false. *)
Definition maxSize_of (messageType : option string) : option Z :=
  let key := Js.property_key messageType in
  match lookup key maxSizes with
  | Some n => Some n
  | None => if existsb (String.eqb key) inherited then None
            else lookup "file" maxSizes
  end.

(** The chain of [fileData.type.startsWith(..)] tests. *)
Definition classify (mime : string) : string :=
  if Js.startsWith mime "image/" then "image"
  else if Js.startsWith mime "video/" then "video"
  else if Js.startsWith mime "audio/" then "audio"
  else "file".

(** [type] after the destructuring [{ .., type = 'text', .. } = data]: a
    string, or [None] for [null]. *)
Definition default_type (data : SendData) : option string :=
  match s_type data with
  | Js.Undefined => Some "text"
  | Js.Null => None
  | Js.Str t => Some t
  end.

Definition messageType_of (type : option string) (f : FilePayload) : option string :=
  if Js.truthy (f_type f) then Some (classify (Js.template (f_type f))) else type.

(** [fixedFileData]: the payload brought to the form [data:<mime>;base64,..]. *)
Definition fixedFileData (f : FilePayload) : string :=
  let d := Js.template (f_data f) in
  let d := if (negb (Js.includes d ";base64,") && Js.includes d "base64,")%bool
           then Js.replace d "base64," ";base64," else d in
  if negb (Js.startsWith d "data:")
  then "data:" ++ Js.template (f_type f) ++ ";base64," ++ d
  else d.

Definition base64Data (f : FilePayload) : string :=
  let d := fixedFileData f in
  if Js.includes d "," then nth 1 (Js.split "," d) "" else d.

(** [Math.round((base64Data.length * 3) / 4)]. *)
Definition actualFileSize (f : FilePayload) : Z :=
  Js.round_div (Z.of_nat (Js.length (base64Data f)) * 3) 4.

(** The size of the decoded payload as the pre-save hook of the Message
    model computes it: [Math.round((base64Data.length * 3) / 4 - padding)],
    where [padding] counts the characters '='. *)
Fixpoint padding (s : string) : nat :=
  match s with
  | EmptyString => O
  | String c s' => if Ascii.eqb c "=" then S (padding s') else padding s'
  end.

Definition calculatedSize (base64Data : string) : Z :=
  Js.round_div (Z.of_nat (Js.length base64Data) * 3 - 4 * Z.of_nat (padding base64Data)) 4.

Definition size_error (actual maxSize : Z) (messageType : option string) : event :=
  let limitMB := Js.round_div maxSize MB in
  EvError ("File size exceeds limit of " ++ Js.of_Z limitMB ++ "MB")
          (Some (SizeDetails (Js.of_Z (Js.round_div actual MB) ++ "MB")
                             (Js.of_Z limitMB ++ "MB") messageType)).

(** [actualFileSize > maxSize]. *)
Definition exceeds (actual : Z) (maxSize : option Z) : bool :=
  match maxSize with Some n => Z.ltb n actual | None => false end.

(** The block [if (fileData && fileData.data) {..}]: either the rejection or
    the content, the type and [processedFileData]. *)
Definition file_stage (content : option string) (type : option string)
  (fileData : option FilePayload) : event + (string * option string * option FileData) :=
  match fileData with
  | Some f =>
      if Js.truthy (f_data f) then
        let messageContent := Js.or_else (Js.or_opt (f_name f) content) "File" in
        let messageType := messageType_of type f in
        let maxSize := maxSize_of messageType in
        let actual := actualFileSize f in
        if exceeds actual maxSize
        then inl (size_error actual (match maxSize with Some n => n | None => 0 end)
                             messageType)
        else inr (messageContent, messageType,
                  Some {| fd_name := f_name f; fd_type := f_type f;
                          fd_data := fixedFileData f; fd_size := actual |})
      else inr (Js.or_else content "", type, None)
  | None => inr (Js.or_else content "", type, None)
  end.

Example classify_ex :
  classify "image/png" = "image" /\ classify "video/mp4" = "video" /\
  classify "audio/ogg" = "audio" /\ classify "application/pdf" = "file".
Proof. repeat split. Qed.

Example base64Data_ex :
  base64Data {| f_name := None; f_type := Some "image/png"; f_size := Some 3;
                f_data := Some "QUJD" |} = "QUJD"
  /\ base64Data {| f_name := None; f_type := None; f_size := None;
                   f_data := Some "data:image/pngbase64,QUJDRA==" |} = "QUJDRA==".
Proof. split; reflexivity. Qed.

(** ** The socket handlers (handleConnection) *)

Section Handlers.

(** Mongoose's cast of a request value to an ObjectId; [None] is the
    CastError it raises. *)
Variable castObjectId : string -> option oid.

Fixpoint cast_all (ids : list string) : option (list oid) :=
  match ids with
  | [] => Some []
  | i :: r =>
      match castObjectId i, cast_all r with
      | Some o, Some os => Some (o :: os)
      | _, _ => None
      end
  end.

Definition is_participant (u : oid) (c : Conversation) : bool :=
  existsb (String.eqb u) (c_participants c).

(** [Conversation.findOne({_id: conversationId, participants: userId})]. *)
Definition Conversation_findOne (st : Store) (conversationId : string) (u : oid)
  : exn + option Conversation :=
  match castObjectId conversationId with
  | None => inl CastError
  | Some o => inr (find (fun c => (c_id c =? o) && is_participant u c)%bool
                        (conversations st))
  end.

(** [Message.findById(messageId)]. *)
Definition Message_findById (st : Store) (messageId : string) : exn + option Message :=
  match castObjectId messageId with
  | None => inl CastError
  | Some o => inr (find_message st o)
  end.

(** [Message.countDocuments({sender, conversation, 'readBy.user': {$ne: viewer},
    isDeleted: false, 'deletedFor.user': {$ne: viewer}})]. *)
Definition unread_count (st : Store) (sender conversation viewer : oid) : nat :=
  List.length
    (filter (fun m => (m_sender m =? sender) && (m_conversation m =? conversation)
                      && negb (read_by viewer m) && negb (m_isDeleted m)
                      && negb (deleted_for viewer m))%bool
            (messages st)).

Definition send_error (st : Store) (message : string) (details : option ErrorDetails)
  : Store * list emit * option Timer :=
  (st, [(ToSocket, EvError message details)], None).

(** [messageData], the document that send_message saves. *)
Definition messageData (u : oid) (env : Env) (data : SendData) (conversation : Conversation)
  (messageContent messageType : string) (processedFileData : option FileData) : Message :=
  {| m_id := new_id env;
     m_sender := u;
     m_conversation := c_id conversation;
     m_content := Js.trim messageContent;
     m_type := messageType;
     m_messageId := Js.or_else (s_messageId data) (uuid env);
     m_sessionId := s_sessionId data;
     m_fileData := processedFileData;
     m_readBy := [];
     m_deletedFor := [];
     m_isDeleted := false;
     m_deletedAt := None;
     m_deletedBy := None;
     m_deliveryStatus := Sent;
     m_sentAt := now env;
     m_deliveredAt := None;
     m_readAt := None;
     m_createdAt := now env |}.

(** The events of a successful send: the fan-out to the room and the
    acknowledgement to the sender. *)
Definition sent_events (data : SendData) (conversation : Conversation) (saved : Message)
  : list emit :=
  [(ToRoom (conversation_room (s_conversationId data)),
    EvMessageReceived saved (c_participants conversation) (Js.template (s_sessionId data)));
   (ToSocket,
    EvMessageSent (Js.or_else (s_messageId data) (m_id saved)) (m_createdAt saved) Sent)].

Definition delivery_timer (u : oid) (data : SendData) (conversation : Conversation)
  (saved : Message) : Timer :=
  {| t_saved := m_id saved;
     t_messageId := m_messageId saved;
     t_sender := u;
     t_conversationId := s_conversationId data;
     t_participants := c_participants conversation |}.

(** [socket.on('send_message', ..)] for the socket of user [u]. *)
Definition send_message (st : Store) (u : oid) (env : Env) (data : SendData)
  : Store * list emit * option Timer :=
  if negb (Js.truthy (s_sessionId data)) then send_error st "Session ID required" None
  else
  match Conversation_findOne st (s_conversationId data) u with
  | inl e => send_error st "Error sending message" (Some (Thrown e))
  | inr None => send_error st "Conversation not found" None
  | inr (Some conversation) =>
      match file_stage (s_content data) (default_type data) (s_fileData data) with
      | inl rejection => (st, [(ToSocket, rejection)], None)
      | inr (messageContent, messageType, processedFileData) =>
          if ((Js.trim messageContent =? "")
              && match processedFileData with Some _ => false | None => true end)%bool
          then send_error st "Message content or file required" None
          else
            match messageType with
            | None =>
                (* type: null is refused by the enum validator on save *)
                send_error st "Error sending message" (Some (Thrown ValidationError))
            | Some messageType =>
                let newMessage :=
                  messageData u env data conversation messageContent messageType
                              processedFileData in
                match Message_insert st newMessage with
                | inl e => send_error st "Error sending message" (Some (Thrown e))
                | inr st1 =>
                    (update_conversation st1 (c_id conversation)
                                         (bump (m_id newMessage) (now env)),
                     sent_events data conversation newMessage,
                     Some (delivery_timer u data conversation newMessage))
                end
            end
      end
  end.

(** The callback of [setTimeout(.., 100)]: the saved message, as the send left
    it in memory, gets [deliveryStatus = 'delivered'] and is saved. *)
Definition deliver (st : Store) (env : Env) (t : Timer) : Store * list emit :=
  match find_message st (t_saved t) with
  | None => (st, [])
  | Some _ =>
      let st1 := update_message st (t_saved t) (set_delivery Delivered (Some (now env))) in
      let delivered := (ToSocket, EvMessageDelivered (t_messageId t) Delivered) in
      let others := filter (fun p => negb (p =? t_sender t)) (t_participants t) in
      match castObjectId (t_conversationId t) with
      | None => (st1, [delivered])
      | Some c =>
          (st1,
           delivered ::
           map (fun p => (ToRoom (user_room p),
                          EvUnreadCountUpdated (t_sender t) (t_conversationId t)
                            (unread_count st1 (t_sender t) c p)))
               others)
      end
  end.

(** The filter of the [updateMany] of mark_messages_read. *)
Definition read_filter (ids : list oid) (conversation u : oid) (m : Message) : bool :=
  (existsb (String.eqb (m_id m)) ids && (m_conversation m =? conversation)
   && negb (read_by u m) && negb (m_isDeleted m) && negb (deleted_for u m))%bool.

(** The filter of [messageSchema.statics.markMultipleAsRead]. *)
Definition multiple_filter (ids : list oid) (u : oid) (m : Message) : bool :=
  (existsb (String.eqb (m_id m)) ids && negb (read_by u m))%bool.

(** The update of both: one [readBy] entry pushed and the status set. *)
Definition read_update (u : oid) (now : Z) (sessionId : string) : Message -> Message :=
  push_read {| rb_user := u; rb_readAt := now; rb_sessionId := sessionId |} now.

(** [Message.updateMany(filter, update)]: every document is tested and
    updated on its own. *)
Definition updateMany (flt : Message -> bool) (upd : Message -> Message) (st : Store) : Store :=
  set_messages st (map (fun m => if flt m then upd m else m) (messages st)).

(** [result.modifiedCount]. *)
Definition modifiedCount (flt : Message -> bool) (st : Store) : nat :=
  List.length (filter flt (messages st)).

Definition markMultipleAsRead (st : Store) (messageIds : list string) (u : oid)
  (sessionId : string) (now : Z) : exn + Store :=
  match cast_all messageIds with
  | None => inl CastError
  | Some ids => inr (updateMany (multiple_filter ids u) (read_update u now sessionId) st)
  end.

(** [[...new Set(l)]]: the first occurrence of each element, in order. *)
Fixpoint uniq (l : list string) : list string :=
  match l with
  | [] => []
  | x :: r => x :: filter (fun y => negb (y =? x)) (uniq r)
  end.

(** [socket.on('mark_messages_read', ..)]. *)
Definition mark_messages_read (st : Store) (u : oid) (env : Env) (data : ReadData)
  : Store * list emit :=
  match r_messageIds data with
  | None => (st, [])
  | Some messageIds =>
      if negb (Js.truthy (r_sessionId data)) then (st, [])
      else
      match Conversation_findOne st (r_conversationId data) u with
      | inl _ => (st, [])
      | inr None => (st, [])
      | inr (Some conversation) =>
          match cast_all messageIds with
          | None => (st, [])
          | Some ids =>
              let sessionId := Js.template (r_sessionId data) in
              let flt := read_filter ids (c_id conversation) u in
              let st1 := updateMany flt (read_update u (now env) sessionId) st in
              if Nat.ltb 0 (modifiedCount flt st) then
                let readMessages :=
                  filter (fun m => existsb (String.eqb (m_id m)) ids
                                   && (m_conversation m =? c_id conversation))%bool
                         (messages st1) in
                let receipts :=
                  map (fun m => (ToRoom (user_room (m_sender m)),
                                 EvMessageReadReceipt (m_messageId m) u (now env)
                                                      (r_conversationId data)))
                      (filter (fun m => negb (m_sender m =? u)) readMessages) in
                let counts :=
                  map (fun s => (ToSocket,
                                 EvUnreadCountUpdated s (r_conversationId data)
                                   (unread_count st1 s (c_id conversation) u)))
                      (filter (fun s => negb (s =? u)) (uniq (map m_sender readMessages))) in
                (st1,
                 (ToRoomButSocket (conversation_room (r_conversationId data)),
                  EvMessagesRead u messageIds sessionId (now env))
                 :: (receipts ++ counts)%list)
              else (st1, [])
          end
      end
  end.

Definition delete_error (st : Store) (message : string) : Store * list emit :=
  (st, [(ToSocket, EvError message None)]).

(** [socket.on('delete_message', ..)]. *)
Definition delete_message (st : Store) (u : oid) (env : Env) (data : DeleteData)
  : Store * list emit :=
  match Message_findById st (d_messageId data) with
  | inl _ => delete_error st "Error deleting message"
  | inr None => delete_error st "Message not found"
  | inr (Some message) =>
      (* populate('conversation'): null when the conversation is gone *)
      match find (fun c => c_id c =? m_conversation message) (conversations st) with
      | None => delete_error st "Error deleting message"
      | Some conversation =>
          if negb (is_participant u conversation) then delete_error st "Access denied"
          else if match d_deleteType data with
                  | Some t => t =? "forEveryone"
                  | None => false
                  end
          then
            if negb (m_sender message =? u)
            then delete_error st "Only sender can delete for everyone"
            else
              let oneHourAgo := now env - 60 * 60 * 1000 in
              if Z.ltb (m_createdAt message) oneHourAgo
              then delete_error st "Message can only be deleted for everyone within 1 hour"
              else
                match deleteForUser message u "forEveryone" (now env) with
                | inl _ => delete_error st "Error deleting message"
                | inr f =>
                    (update_message st (m_id message) f,
                     [(ToRoom (conversation_room (d_conversationId data)),
                       EvMessageDeletedForEveryone (d_messageId data) u (now env))])
                end
          else
            match deleteForUser message u "forMe" (now env) with
            | inl _ => delete_error st "Error deleting message"
            | inr f =>
                (update_message st (m_id message) f,
                 [(ToSocket, EvMessageDeletedForMe (d_messageId data) (now env))])
            end
      end
  end.

(** One turn of the loop of delete_multiple_messages, with its own
    try/catch: the store, [deletedCount] and [deletedMessageIds] so far. *)
Definition delete_one (u : oid) (env : Env) (conversationId : string)
  (acc : Store * nat * list string) (messageId : string) : Store * nat * list string :=
  let '(st, deletedCount, deletedMessageIds) := acc in
  match Message_findById st messageId with
  | inl _ => acc
  | inr None => acc
  | inr (Some message) =>
      if m_conversation message =? conversationId then
        match deleteForUser message u "forMe" (now env) with
        | inl _ => acc
        | inr f => (update_message st (m_id message) f, S deletedCount,
                    (deletedMessageIds ++ [messageId])%list)
        end
      else acc
  end.

(** [socket.on('delete_multiple_messages', ..)]. *)
Definition delete_multiple_messages (st : Store) (u : oid) (env : Env)
  (data : DeleteMultipleData) : Store * list emit :=
  match dm_messageIds data with
  | None => delete_error st "Invalid message IDs"
  | Some [] => delete_error st "Invalid message IDs"
  | Some messageIds =>
      match Conversation_findOne st (dm_conversationId data) u with
      | inl _ => delete_error st "Error deleting messages"
      | inr None => delete_error st "Conversation not found"
      | inr (Some _) =>
          let '(st1, deletedCount, deletedMessageIds) :=
            fold_left (delete_one u env (dm_conversationId data)) messageIds (st, O, []) in
          (st1, [(ToSocket, EvMultipleMessagesDeleted deletedMessageIds deletedCount
                                                       (List.length messageIds))])
      end
  end.

(** ** The queue consumer (services/queueService.js) *)

(** The content of a work item as [JSON.parse] sees it: not JSON, the JSON
    value null, or a value whose property [autoMessageId] is read. *)
Inductive Payload :=
| NotJson
| JsonNull
| JsonValue (autoMessageId : option string).

(** [channel.ack(msg)] or [channel.nack(msg, false, false)]. *)
Inductive Acknowledgement := Ack | NackNoRequeue.

Record QueueEnv := {
  q_now : Z;
  q_conversation_id : oid;
  q_message_id : oid;
  q_uuid : string;
  q_io : bool }.

(** Code that reads and writes the database and may throw: the store is
    threaded, and a throw keeps the writes made before it. *)
Definition Db (A : Type) : Type := Store -> Store * (exn + A).

Definition ret {A} (a : A) : Db A := fun st => (st, inr a).

Definition throw {A} (e : exn) : Db A := fun st => (st, inl e).

Definition bind {A B} (c : Db A) (k : A -> Db B) : Db B :=
  fun st => match c st with
            | (st1, inr a) => k a st1
            | (st1, inl e) => (st1, inl e)
            end.

Notation "x <- c ;; k" := (bind c (fun x => k))
  (at level 61, c at next level, right associativity).

Definition read {A} (f : Store -> A) : Db A := fun st => (st, inr (f st)).

Definition write (f : Store -> Store) : Db unit := fun st => (f st, inr tt).

(** Lifts an operation that either throws or gives a new store. *)
Definition attempt (f : Store -> exn + Store) : Db unit :=
  fun st => match f st with inl e => (st, inl e) | inr st1 => (st1, inr tt) end.

(** [x._id] where [x] may be null. *)
Definition id_of (x : option User) : Db oid :=
  match x with Some usr => ret (u_id usr) | None => throw TypeError end.

(** [AutoMessage.findById(id).populate('sender recipient')]: the document and
    its two users, each null when the user document is absent. *)
Definition AutoMessage_findById (autoMessageId : option string)
  : Db (option (AutoMessage * option User * option User)) :=
  match autoMessageId with
  | None => ret None
  | Some i =>
      match castObjectId i with
      | None => throw CastError
      | Some o =>
          read (fun st =>
            match find (fun a => a_id a =? o) (autoMessages st) with
            | None => None
            | Some a =>
                Some (a, find (fun x => u_id x =? a_sender a) (users st),
                         find (fun x => u_id x =? a_recipient a) (users st))
            end)
      end
  end.

(** [Conversation.findOne({participants: {$all: [s, r]}, type: 'private'})]. *)
Definition find_private (s r : oid) (st : Store) : option Conversation :=
  find (fun c => is_participant s c && is_participant r c && (c_type c =? "private"))%bool
       (conversations st).

(** [await new Conversation(..).save()]. *)
Definition Conversation_insert (c : Conversation) (st : Store) : exn + Store :=
  if existsb (fun c' => c_id c' =? c_id c) (conversations st) then inl DuplicateKey
  else inr (set_conversations st (conversations st ++ [c])).

Definition set_sent (now : Z) (conversation : oid) (a : AutoMessage) : AutoMessage :=
  {| a_id := a_id a; a_sender := a_sender a; a_recipient := a_recipient a;
     a_content := a_content a; a_sendDate := a_sendDate a; a_isQueued := a_isQueued a;
     a_isSent := true; a_queuedAt := a_queuedAt a; a_sentAt := Some now;
     a_conversation := Some conversation |}.

Definition update_autoMessage (o : oid) (f : AutoMessage -> AutoMessage) (st : Store) : Store :=
  set_autoMessages st (map (fun a => if a_id a =? o then f a else a) (autoMessages st)).

(** The [try] block of processAutoMessage. *)
Definition processAutoMessage_body (env : QueueEnv) (data : Payload) : Db (list emit) :=
  autoMessageId <- match data with
                   | JsonValue i => ret i
                   | _ => throw TypeError
                   end ;;
  found <- AutoMessage_findById autoMessageId ;;
  match found with
  | None => ret []
  | Some (autoMessage, sender, recipient) =>
      if a_isSent autoMessage then ret []
      else
        s <- id_of sender ;;
        r <- id_of recipient ;;
        existing <- read (find_private s r) ;;
        conversation <-
          match existing with
          | Some c => ret c
          | None =>
              let c := {| c_id := q_conversation_id env; c_participants := [s; r];
                          c_type := "private"; c_lastMessage := None;
                          c_lastActivity := q_now env; c_isActive := true |} in
              _ <- attempt (Conversation_insert c) ;;
              ret c
          end ;;
        let newMessage :=
          {| m_id := q_message_id env;
             m_sender := s;
             m_conversation := c_id conversation;
             m_content := Js.trim (a_content autoMessage);
             m_type := "text";
             m_messageId := q_uuid env;
             m_sessionId := None;
             m_fileData := None;
             m_readBy := [];
             m_deletedFor := [];
             m_isDeleted := false;
             m_deletedAt := None;
             m_deletedBy := None;
             m_deliveryStatus := Sent;
             m_sentAt := q_now env;
             m_deliveredAt := None;
             m_readAt := None;
             m_createdAt := q_now env |} in
        _ <- attempt (fun st => Message_insert st newMessage) ;;
        _ <- write (fun st => update_conversation st (c_id conversation)
                                (bump (m_id newMessage) (q_now env))) ;;
        _ <- write (update_autoMessage (a_id autoMessage)
                      (set_sent (q_now env) (c_id conversation))) ;;
        ret (if q_io env
             then [(ToRoom (user_room r),
                    EvAutoMessageReceived newMessage (c_id conversation) s)]
             else [])
  end.

(** processAutoMessage: its [catch] logs the error and returns. *)
Definition processAutoMessage (env : QueueEnv) (data : Payload) (st : Store)
  : Store * list emit :=
  match processAutoMessage_body env data st with
  | (st1, inr events) => (st1, events)
  | (st1, inl _) => (st1, [])
  end.

(** The callback that startConsumer registers with [channel.consume]:
    [JSON.parse], [await processAutoMessage(..)], [channel.ack(msg)], and in
    its [catch] [channel.nack(msg, false, false)]. *)
Definition startConsumer (env : QueueEnv) (msg : Payload) (st : Store)
  : Store * list emit * Acknowledgement :=
  match msg with
  | NotJson => (st, [], NackNoRequeue)
  | data => let '(st1, events) := processAutoMessage env data st in (st1, events, Ack)
  end.

End Handlers.

(** ** Numbers *)

(** The finite doubles are the rationals [m * 2^e] with [|m| < 2^53] and
    [-1074 <= e]; the operations below are those of binary64 for results
    under [2^1024], where nothing overflows. *)
Module Double.

Definition pow2 (e : Z) : Q := (2 ^ e)%Q.

(** The integer nearest to [q], the even one of the two when [q] is half
    way between them. *)
Definition nearest_even (q : Q) : Z :=
  let f := Qfloor q in
  match Qcompare (q - inject_Z f) (1 # 2) with
  | Lt => f
  | Gt => f + 1
  | Eq => if Z.even f then f else f + 1
  end.

(** The exponent of the binade of a positive [x]: [2^k <= x < 2^(k+1)]. *)
Definition floor_log2 (x : Q) : Z :=
  let k := Z.log2 (Qnum x) - Z.log2 (Zpos (Qden x)) in
  if Qle_bool (pow2 k) x then k else k - 1.

(** The exponent of the unit in the last place: 53 significant bits, and
    the spacing of the subnormals below [2^-1022]. *)
Definition ulp_exponent (x : Q) : Z := Z.max (floor_log2 x - 52) (-1074).

(** Round to nearest, ties to even. *)
Definition round (x : Q) : Q :=
  match Qcompare x 0 with
  | Eq => 0%Q
  | Gt => let e := ulp_exponent x in
          (inject_Z (nearest_even (x / pow2 e)) * pow2 e)%Q
  | Lt => let e := ulp_exponent (- x) in
          (- (inject_Z (nearest_even (- x / pow2 e)) * pow2 e))%Q
  end.

(** [a * b] and [a + b]. *)
Definition mul (a b : Q) : Q := round (a * b).
Definition add (a b : Q) : Q := round (a + b).

(** The time value of [new Date(v)] for a number [v] of the range of Date
    (at most 8.64e15 in magnitude): [v] without its fraction. *)
Definition trunc (x : Q) : Z := if Qle_bool 0 x then Qfloor x else Qceiling x.

(** A double of [0, 1), what [Math.random()] returns: [m * 2^e] for an
    integer [m] below [2^53] and an exponent from -1074 to -53. *)
Definition unit_double (r : Q) : Prop :=
  exists m e, (r == inject_Z m * pow2 e)%Q
              /\ (0 <= m < 2 ^ 53) /\ (-1074 <= e <= -53).

End Double.

(** ** The daily planner (the cron service) *)

Definition messageTemplates : list string :=
  ["Merhaba! Nasılsın?";
   "Bugün nasıl geçiyor?";
   "Seni merak ettim, ne yapıyorsun?";
   "Umarım güzel bir gün geçiriyorsundur!";
   "Selam! Keyifler nasıl?";
   "Hey! Uzun zamandır konuşmuyoruz.";
   "Nasıl gidiyor işler?";
   "Bugün nerelerdeydin?";
   "Hava çok güzel değil mi?";
   "Yakında görüşelim mi?"].

(** [Math.floor(r * k)] for a value [r] of [Math.random()]. *)
Definition random_floor (r : Q) (k : Z) : Z := Qfloor (Double.mul r (inject_Z k)).

Fixpoint set_nth {A} (i : nat) (x : A) (l : list A) : list A :=
  match l, i with
  | [], _ => []
  | _ :: r, O => x :: r
  | a :: r, S i' => a :: set_nth i' x r
  end.

(** [[a[i], a[j]] = [a[j], a[i]]] for indices inside the array. *)
Definition swap {A} (l : list A) (i j : nat) : list A :=
  match nth_error l i, nth_error l j with
  | Some x, Some y => set_nth j x (set_nth i y l)
  | _, _ => l
  end.

(** The loop of shuffleArray from index [i] down to 1; [k] counts the calls
    of [Math.random()] made so far. *)
Fixpoint shuffle_from {A} (random : nat -> Q) (i : nat) (shuffled : list A) (k : nat)
  : list A * nat :=
  match i with
  | O => (shuffled, k)
  | S i' =>
      let j := Z.to_nat (random_floor (random k) (Z.of_nat i + 1)) in
      shuffle_from random i' (swap shuffled i j) (S k)
  end.

Definition shuffleArray {A} (random : nat -> Q) (array : list A) (k : nat) : list A * nat :=
  shuffle_from random (List.length array - 1) array k.

(** The pairing loop: [i] advances by two while [i < length - 1], that is
    while two elements remain. *)
Fixpoint pair_up {A} (l : list A) : list (A * A) :=
  match l with
  | a :: b :: r => (a, b) :: pair_up r
  | _ => []
  end.

Record PlanEnv := {
  p_now : Z;
  p_random : nat -> Q;
  p_new_id : nat -> oid }.

(** 24 hours in milliseconds. *)
Definition day_ms : Z := 24 * 60 * 60 * 1000.

(** The loop over the pairs: two calls of [Math.random()] for each. The
    send date is [new Date(Date.now() + Math.random() * 24 * 60 * 60 * 1000)]:
    the products from left to right and then the sum, each rounded to a
    double, and the time value of the Date is the sum without its
    fraction. *)
Fixpoint plan_pairs (env : PlanEnv) (pairs : list (User * User)) (k n : nat)
  : list AutoMessage :=
  match pairs with
  | [] => []
  | (sender, recipient) :: rest =>
      let randomMessage :=
        nth (Z.to_nat (random_floor (p_random env k)
                                    (Z.of_nat (List.length messageTemplates))))
            messageTemplates "" in
      let sendDate :=
        Double.trunc
          (Double.add (inject_Z (p_now env))
             (Double.mul (Double.mul (Double.mul (Double.mul (p_random env (S k)) 24) 60) 60)
                1000)) in
      {| a_id := p_new_id env n;
         a_sender := u_id sender;
         a_recipient := u_id recipient;
         a_content := randomMessage;
         a_sendDate := sendDate;
         a_isQueued := false;
         a_isSent := false;
         a_queuedAt := None;
         a_sentAt := None;
         a_conversation := None |} :: plan_pairs env rest (S (S k)) (S n)
  end.

(** What planAutomaticMessages hands to [AutoMessage.insertMany]. *)
Definition planned (env : PlanEnv) (st : Store) : list AutoMessage :=
  let activeUsers := filter u_isActive (users st) in
  if Nat.ltb (List.length activeUsers) 2 then []
  else
    let '(shuffledUsers, k) := shuffleArray (p_random env) activeUsers O in
    plan_pairs env (pair_up shuffledUsers) k O.

Definition planAutomaticMessages (env : PlanEnv) (st : Store) : Store :=
  set_autoMessages st (autoMessages st ++ planned env st).

(** ** A sample deployment, for the examples *)

Module Sample.

Definition is_hex (c : ascii) : bool :=
  let n := nat_of_ascii c in
  ((Nat.leb 48 n && Nat.leb n 57) || (Nat.leb 97 n && Nat.leb n 102))%bool.

Fixpoint all_hex (s : string) : bool :=
  match s with
  | EmptyString => true
  | String c s' => (is_hex c && all_hex s')%bool
  end.

(** The cast of a string of 24 lower-case hexadecimal digits, the form in
    which the clients of this application send identifiers. *)
Definition cast (s : string) : option oid :=
  if (Nat.eqb (String.length s) 24 && all_hex s)%bool then Some s else None.

Definition alice : oid := "64b0000000000000000000a1".
Definition bob : oid := "64b0000000000000000000b2".
Definition carol : oid := "64b0000000000000000000c3".
Definition room1 : oid := "64c000000000000000000001".

Definition store0 : Store :=
  {| conversations :=
       [{| c_id := room1; c_participants := [alice; bob]; c_type := "private";
           c_lastMessage := None; c_lastActivity := 0; c_isActive := true |}];
     messages := [];
     autoMessages := [];
     users := [{| u_id := alice; u_username := "alice"; u_isActive := true |};
               {| u_id := bob; u_username := "bob"; u_isActive := true |};
               {| u_id := carol; u_username := "carol"; u_isActive := true |}] |}.

Definition env_at (t : Z) (id : oid) (u : string) : Env :=
  {| now := t; new_id := id; uuid := u |}.

Definition text (key : option string) (content : string) : SendData :=
  {| s_conversationId := room1; s_content := Some content; s_type := Js.Str "text";
     s_messageId := key; s_sessionId := Some "sess-1"; s_fileData := None |}.

Definition msg1 : oid := "64d000000000000000000001".
Definition msg2 : oid := "64d000000000000000000002".

(** The store after alice has sent "hi" with the key "m1" at time 1000. *)
Definition store1 : Store :=
  fst (fst (send_message cast store0 alice (env_at 1000 msg1 "uuid-1")
                         (text (Some "m1") "hi"))).

Definition statuses (st : Store) : list DeliveryStatus :=
  map m_deliveryStatus (messages st).

(** The promotion that this send scheduled. *)
Definition timer1 : Timer :=
  {| t_saved := msg1; t_messageId := "m1"; t_sender := alice;
     t_conversationId := room1; t_participants := [alice; bob] |}.

(** bob marks the message as read, 50 ms after it was sent. *)
Definition read1 : ReadData :=
  {| r_messageIds := Some [msg1]; r_conversationId := room1;
     r_sessionId := Some "sess-2" |}.

(** A file of [n] base64 characters, declared as [mime]. *)
Definition payload (n : nat) : string := string_of_list_ascii (repeat "A"%char n).

Definition file (name : option string) (mime : string) (n : nat) : FilePayload :=
  {| f_name := name; f_type := Some mime; f_size := Some 1;
     f_data := Some ("data:" ++ mime ++ ";base64," ++ payload n) |}.

Definition upload (content : option string) (f : FilePayload) : SendData :=
  {| s_conversationId := room1; s_content := content; s_type := Js.Str "text";
     s_messageId := Some "m2"; s_sessionId := Some "sess-1"; s_fileData := Some f |}.


Definition delete1 (deleteType : string) : DeleteData :=
  {| d_messageId := msg1; d_deleteType := Some deleteType; d_conversationId := room1 |}.

Definition minute_ms : Z := 60 * 1000.

(** A planned AutoMessage from alice to bob, and one whose sender has no
    user document. *)
Definition auto1 : oid := "64e000000000000000000001".
Definition auto2 : oid := "64e000000000000000000002".
Definition ghost : oid := "64b0000000000000000000f9".

Definition planned_by (id sender : oid) (sent : bool) : AutoMessage :=
  {| a_id := id; a_sender := sender; a_recipient := bob; a_content := "Selam! Keyifler nasıl?";
     a_sendDate := 500; a_isQueued := true; a_isSent := sent; a_queuedAt := Some 600;
     a_sentAt := None; a_conversation := None |}.

Definition store_queue : Store :=
  set_autoMessages store0 [planned_by auto1 alice false; planned_by auto2 ghost false].

Definition queue_env : QueueEnv :=
  {| q_now := 2000; q_conversation_id := "64c000000000000000000002";
     q_message_id := msg2; q_uuid := "uuid-2"; q_io := true |}.

Definition plan_env : PlanEnv :=
  {| p_now := 5000; p_random := fun _ => (1 # 2)%Q;
     p_new_id := fun n => if Nat.eqb n 0 then auto1 else auto2 |}.

End Sample.

Example send_ex :
  Sample.statuses Sample.store1 = [Sent]
  /\ map m_messageId (messages Sample.store1) = ["m1"]
  /\ map c_lastActivity (conversations Sample.store1) = [1000].
Proof. repeat split. Qed.

Example pair_up_ex : pair_up [1; 2; 3; 4; 5]%nat = [(1, 2); (3, 4)]%nat.
Proof. reflexivity. Qed.

Example shuffle_ex :
  fst (shuffleArray (fun _ => (1 # 2)%Q) [1; 2; 3; 4]%nat 0) = [1; 4; 2; 3]%nat.
Proof. reflexivity. Qed.

(** * Properties *)

Section Properties.

(** The cast to ObjectId, arbitrary. *)
Variable cast : string -> option oid.

Local Open Scope list_scope.

(** ** The send handler, case by case *)

(** A send either is rejected with one error event to the caller, the store
    untouched and no promotion scheduled, or inserts [messageData] and bumps
    the conversation. *)
Lemma send_message_inv st u env data st' events timer :
  send_message cast st u env data = (st', events, timer) ->
  (st' = st /\ timer = None /\ exists message details,
      events = [(ToSocket, EvError message details)])
  \/ (exists conversation messageContent messageType processedFileData st1,
        Js.truthy (s_sessionId data) = true
        /\ Conversation_findOne cast st (s_conversationId data) u = inr (Some conversation)
        /\ file_stage (s_content data) (default_type data) (s_fileData data)
           = inr (messageContent, Some messageType, processedFileData)
        /\ Message_insert st (messageData u env data conversation messageContent
                                          messageType processedFileData) = inr st1
        /\ st' = update_conversation st1 (c_id conversation)
                   (bump (new_id env) (now env))
        /\ events = sent_events data conversation
                      (messageData u env data conversation messageContent
                                   messageType processedFileData)
        /\ timer = Some (delivery_timer u data conversation
                           (messageData u env data conversation messageContent
                                        messageType processedFileData))).
Proof.
  unfold send_message, send_error.
  destruct (Js.truthy (s_sessionId data)) eqn:Hs; cbn [negb].
  2:{ intros H; inversion H; subst; left; eauto. }
  destruct (Conversation_findOne cast st (s_conversationId data) u) as [e | [conversation |]] eqn:Hc.
  1,3: intros H; inversion H; subst; left; eauto.
  destruct (file_stage _ _ _) as [rejection | [[messageContent messageType] pfd]] eqn:Hf.
  { intros H; inversion H; subst; left.
    unfold file_stage in Hf.
    destruct (s_fileData data) as [f |]; [| discriminate].
    destruct (Js.truthy (f_data f)); [| discriminate].
    destruct (exceeds _ _); [| discriminate].
    inversion Hf; subst. unfold size_error. eauto. }
  destruct (_ && _)%bool.
  { intros H; inversion H; subst; left; eauto. }
  destruct messageType as [messageType |].
  2:{ intros H; inversion H; subst; left; eauto. }
  destruct (Message_insert st _) as [e | st1] eqn:Hi.
  { intros H; inversion H; subst; left; eauto. }
  intros H; inversion H; subst; right.
  exists conversation, messageContent, messageType, pfd, st1.
  repeat split; auto.
Qed.

Lemma Message_insert_inv st m st1 :
  Message_insert st m = inr st1 ->
  validate m = true
  /\ (forall m', In m' (messages st) ->
        m_id m' <> m_id m /\ m_messageId m' <> m_messageId m)
  /\ st1 = set_messages st (messages st ++ [m]).
Proof.
  unfold Message_insert.
  destruct (validate m); cbn [negb]; [| discriminate].
  destruct (existsb _ (messages st)) eqn:He; [discriminate |].
  intros H; inversion H; subst. repeat split; auto.
  - intros Heq. assert (existsb (fun m'0 => (m_id m'0 =? m_id m) || (m_messageId m'0 =? m_messageId m))%bool (messages st) = true).
    { apply existsb_exists. exists m'. split; auto. rewrite Heq, String.eqb_refl. reflexivity. }
    congruence.
  - intros Heq. assert (existsb (fun m'0 => (m_id m'0 =? m_id m) || (m_messageId m'0 =? m_messageId m))%bool (messages st) = true).
    { apply existsb_exists. exists m'. split; auto. rewrite Heq, String.eqb_refl.
      apply orb_true_r. }
    congruence.
Qed.


Lemma findOne_not_participant st conversationId u o :
  cast conversationId = Some o ->
  (forall c, In c (conversations st) -> c_id c = o -> is_participant u c = false) ->
  Conversation_findOne cast st conversationId u = inr None.
Proof.
  intros Hc Hn. unfold Conversation_findOne. rewrite Hc. f_equal.
  destruct (find _ (conversations st)) as [c |] eqn:Hf; auto.
  apply find_some in Hf. destruct Hf as [Hin Hb].
  apply andb_true_iff in Hb. destruct Hb as [Hid Hp].
  apply String.eqb_eq in Hid. rewrite (Hn c Hin Hid) in Hp. discriminate.
Qed.

(** ** Unauthorized callers (C4) *)

(** The caller is sent an error event. *)
Definition receives_error (events : list emit) : Prop :=
  exists message details, In (ToSocket, EvError message details) events.

(** C4, as amended: a user who is in the participants of no conversation with
    the requested id changes nothing in the store with send_message or with
    mark_messages_read. send_message answers with one error event, which
    reads "Conversation not found" when a session id came with the request
    and "Session ID required" otherwise; mark_messages_read returns without
    emitting any event. *)
Theorem unauthorized_participant_rejected st u env o :
  (forall c, In c (conversations st) -> c_id c = o -> is_participant u c = false) ->
  (forall data, cast (s_conversationId data) = Some o ->
     send_message cast st u env data =
     (st,
      [(ToSocket,
        EvError (if Js.truthy (s_sessionId data) then "Conversation not found"
                 else "Session ID required") None)],
      None))
  /\ (forall data, cast (r_conversationId data) = Some o ->
        mark_messages_read cast st u env data = (st, [])).
Proof.
  intros Hn. split; intros data Hc.
  - unfold send_message.
    destruct (Js.truthy (s_sessionId data)); cbn [negb]; [| reflexivity].
    rewrite (findOne_not_participant st _ u o Hc Hn). reflexivity.
  - unfold mark_messages_read.
    destruct (r_messageIds data); [| reflexivity].
    destruct (Js.truthy (r_sessionId data)); cbn [negb]; [| reflexivity].
    rewrite (findOne_not_participant st _ u o Hc Hn). reflexivity.
Qed.

(** ** Text sent alongside a file (C10) *)

Definition has_file (data : SendData) (f : FilePayload) : Prop :=
  s_fileData data = Some f /\ Js.truthy (f_data f) = true.

(** [fileData.name || content || 'File'], spelled out. *)
Definition file_content (f : FilePayload) (content : option string) : string :=
  if Js.truthy (f_name f) then Js.template (f_name f)
  else if Js.truthy content then Js.template content
  else "File".

Lemma or_chain_file_content f content :
  Js.or_else (Js.or_opt (f_name f) content) "File" = file_content f content.
Proof.
  unfold file_content, Js.or_else, Js.or_opt.
  destruct (f_name f) as [n |]; destruct content as [c |]; cbn;
    try destruct (n =? "") eqn:En; try destruct (c =? "") eqn:Ec; cbn;
    rewrite ?En, ?Ec; reflexivity.
Qed.

Lemma file_stage_with_file content type f :
  Js.truthy (f_data f) = true ->
  (exceeds (actualFileSize f) (maxSize_of (messageType_of type f)) = true
   /\ exists n, maxSize_of (messageType_of type f) = Some n
      /\ file_stage content type (Some f)
         = inl (size_error (actualFileSize f) n (messageType_of type f)))
  \/ (exceeds (actualFileSize f) (maxSize_of (messageType_of type f)) = false
      /\ file_stage content type (Some f)
         = inr (file_content f content, messageType_of type f,
                Some {| fd_name := f_name f; fd_type := f_type f;
                        fd_data := fixedFileData f; fd_size := actualFileSize f |})).
Proof.
  intros Hd. unfold file_stage. rewrite Hd, or_chain_file_content.
  destruct (exceeds _ _) eqn:He; [left | right]; split; auto.
  destruct (maxSize_of _) as [n |]; [| discriminate]. eauto.
Qed.

(** C10: when a send carries file data, the empty-content rejection is never
    the answer, and the content of the message that the send persists is the
    trimmed file name; the caller's text is used only when the name is
    empty, and the literal "File" when both are. *)
Theorem file_name_replaces_text st u env data f :
  has_file data f ->
  ~ In (ToSocket, EvError "Message content or file required" None)
       (snd (fst (send_message cast st u env data)))
  /\ (forall m, In m (messages (fst (fst (send_message cast st u env data)))) ->
                ~ In m (messages st) ->
                m_content m = Js.trim (file_content f (s_content data)))
  /\ (forall name, f_name f = Some name -> name <> "" ->
                   file_content f (s_content data) = name).
Proof.
  intros [Hf Hd]. split; [| split].
  - unfold send_message, send_error.
    destruct (Js.truthy (s_sessionId data)); cbn [negb fst snd].
    2:{ intros [H | []]. discriminate. }
    destruct (Conversation_findOne _ _ _ _) as [e | [c |]]; cbn [fst snd].
    1,3: intros [H | []]; discriminate.
    rewrite Hf.
    destruct (file_stage_with_file (s_content data) (default_type data) f Hd)
      as [[_ [n [_ ->]]] | [_ ->]]; cbn [fst snd].
    { unfold size_error. intros [H | []]. discriminate. }
    rewrite andb_false_r.
    destruct (messageType_of (default_type data) f) as [messageType |]; cbn [fst snd].
    2:{ intros [H | []]; discriminate. }
    destruct (Message_insert _ _); cbn [fst snd].
    { intros [H | []]; discriminate. }
    unfold sent_events. intros [H | [H | []]]; discriminate.
  - intros m Hin Hnew.
    destruct (send_message cast st u env data) as [[st' events] timer] eqn:Hsend.
    cbn [fst] in Hin.
    apply send_message_inv in Hsend.
    destruct Hsend as [[-> _] | Hok]; [contradiction |].
    destruct Hok as (c & messageContent & messageType & pfd & st1 & _ & _ & Hstage & Hins & -> & _).
    rewrite Hf in Hstage.
    destruct (file_stage_with_file (s_content data) (default_type data) f Hd)
      as [[_ [n [_ Hrej]]] | [_ Hacc]]; [congruence |].
    rewrite Hacc in Hstage. inversion Hstage; subst.
    apply Message_insert_inv in Hins. destruct Hins as (_ & _ & ->).
    cbn in Hin. apply in_app_or in Hin. destruct Hin as [Hin | [<- | []]].
    + contradiction.
    + reflexivity.
  - intros name Hn Hne. unfold file_content. rewrite Hn. cbn.
    apply String.eqb_neq in Hne. rewrite Hne. reflexivity.
Qed.

(** ** File size limits (C5) *)

Definition categories : list string := ["image"; "video"; "audio"; "file"].




Lemma classify_category mime : In (classify mime) categories.
Proof.
  unfold classify, categories.
  destruct (Js.startsWith mime "image/"); [cbn; auto |].
  destruct (Js.startsWith mime "video/"); [cbn; auto |].
  destruct (Js.startsWith mime "audio/"); cbn; auto.
Qed.

(** A type is of one of the three media kinds at most. *)
Lemma prefixes_exclusive mime :
  (Js.startsWith mime "video/" = true -> Js.startsWith mime "image/" = false)
  /\ (Js.startsWith mime "audio/" = true ->
        Js.startsWith mime "image/" = false /\ Js.startsWith mime "video/" = false).
Proof.
  unfold Js.startsWith. destruct mime as [| c mime]; [split; discriminate |].
  cbn [String.prefix]. split.
  - destruct (ascii_dec "v" c) as [<- |]; [| discriminate]. intros _.
    destruct (ascii_dec "i" "v") as [E |]; [discriminate E | reflexivity].
  - destruct (ascii_dec "a" c) as [<- |]; [| discriminate]. intros _. split.
    + destruct (ascii_dec "i" "a") as [E |]; [discriminate E | reflexivity].
    + destruct (ascii_dec "v" "a") as [E |]; [discriminate E | reflexivity].
Qed.





(** *** What is measured *)




Lemma includes_after a b p : Js.includes b p = true -> Js.includes (a ++ b)%string p = true.
Proof.
  intros H. induction a as [| c a IH]; cbn; [exact H |].
  rewrite IH. apply orb_true_r.
Qed.












(** ** Idempotent send (C1) *)




Lemma find_map_preserved {A} (p : A -> bool) (g : A -> A) (l : list A) :
  (forall a, p (g a) = p a) -> find p (map g l) = option_map g (find p l).
Proof.
  intros Hp. induction l as [| a l IH]; cbn; [reflexivity |].
  rewrite Hp. destruct (p a); [reflexivity | exact IH].
Qed.

Lemma filter_none {A} (p : A -> bool) (l : list A) :
  (forall a, In a l -> p a = false) -> filter p l = [].
Proof.
  induction l as [| a l IH]; cbn; intros H; [reflexivity |].
  rewrite (H a (or_introl eq_refl)). apply IH. intros b Hb. apply H. right. exact Hb.
Qed.


(** ** How a stored message can change *)

(** One change of one document: none, a delivery status written by the
    deferred promotion, a read receipt by a user who has none yet, the
    deletion for everyone, a deletion for one user. *)
Inductive message_step (m : Message) : Message -> Prop :=
| step_same : message_step m m
| step_delivery s d : message_step m (set_delivery s d m)
| step_read e now : read_by (rb_user e) m = false -> message_step m (push_read e now m)
| step_deleted u now : message_step m (mark_deleted u now m)
| step_deleted_for e : message_step m (push_deleted e m).

(** Any number of such changes. *)
Inductive changes (m : Message) : Message -> Prop :=
| changes_none : changes m m
| changes_more m1 m2 : changes m m1 -> message_step m1 m2 -> changes m m2.

Lemma changes_trans m1 m2 m3 : changes m1 m2 -> changes m2 m3 -> changes m1 m3.
Proof.
  intros H12 H23. induction H23; [exact H12 |].
  eapply changes_more; eauto.
Qed.

Lemma changes_step m m' : message_step m m' -> changes m m'.
Proof. intros H. eapply changes_more; [apply changes_none | exact H]. Qed.

(** A message as an insertion leaves it. *)
Definition pristine (m : Message) : Prop := m_readBy m = [] /\ m_isDeleted m = false.

(** A message inserted at some point and changed since. *)
Definition born (m : Message) : Prop := exists m0, pristine m0 /\ changes m0 m.

(** The collection after some operations: the old documents, changed or
    not, followed by the documents inserted since. *)
Definition evolves (ms ms' : list Message) : Prop :=
  exists changed inserted,
    ms' = changed ++ inserted
    /\ Forall2 changes ms changed
    /\ Forall born inserted.

Lemma Forall2_changes_refl ms : Forall2 changes ms ms.
Proof. induction ms; constructor; auto using changes_none. Qed.

Lemma evolves_refl ms : evolves ms ms.
Proof.
  exists ms, []. rewrite app_nil_r. repeat split; auto using Forall2_changes_refl.
Qed.

Lemma Forall2_changes_trans l1 l2 l3 :
  Forall2 changes l1 l2 -> Forall2 changes l2 l3 -> Forall2 changes l1 l3.
Proof.
  intros H12. revert l3. induction H12; intros l3 H23; inversion H23; subst; constructor.
  - eapply changes_trans; eauto.
  - auto.
Qed.

Lemma born_changes m m' : born m -> changes m m' -> born m'.
Proof.
  intros (m0 & Hp & Hc) H. exists m0. split; [exact Hp | eapply changes_trans; eauto].
Qed.

Lemma evolves_trans l1 l2 l3 : evolves l1 l2 -> evolves l2 l3 -> evolves l1 l3.
Proof.
  intros (c1 & i1 & -> & Hc1 & Hi1) (c2 & i2 & -> & Hc2 & Hi2).
  apply Forall2_app_inv_l in Hc2.
  destruct Hc2 as (c1' & i1' & Hc1' & Hi1' & ->).
  exists c1', (i1' ++ i2). rewrite app_assoc. repeat split; auto.
  - eapply Forall2_changes_trans; eauto.
  - apply Forall_app. split; [| exact Hi2].
    clear - Hi1 Hi1'. induction Hi1'; constructor.
    + inversion Hi1; subst. eapply born_changes; eauto.
    + inversion Hi1; subst. auto.
Qed.

Lemma evolves_map ms (f : Message -> Message) :
  (forall m, In m ms -> message_step m (f m)) -> evolves ms (map f ms).
Proof.
  intros H. exists (map f ms), []. rewrite app_nil_r. repeat split; auto.
  induction ms as [| m ms IH]; cbn; constructor.
  - apply changes_step, H. left. reflexivity.
  - apply IH. intros m' Hm'. apply H. right. exact Hm'.
Qed.

Lemma evolves_insert ms m : pristine m -> evolves ms (ms ++ [m]).
Proof.
  intros Hp. exists ms, [m]. repeat split; auto using Forall2_changes_refl.
  constructor; [| constructor]. exists m. split; [exact Hp | apply changes_none].
Qed.

Lemma evolves_update st o f :
  (forall m, message_step m (f m)) ->
  evolves (messages st) (messages (update_message st o f)).
Proof.
  intros Hf. cbn. apply evolves_map. intros m _.
  destruct (m_id m =? o); [apply Hf | apply step_same].
Qed.

Lemma evolves_updateMany st flt e now :
  (forall m, flt m = true -> read_by (rb_user e) m = false) ->
  evolves (messages st) (messages (updateMany flt (push_read e now) st)).
Proof.
  intros Hflt. cbn. apply evolves_map. intros m _.
  destruct (flt m) eqn:Hm; [apply step_read; auto | apply step_same].
Qed.

Lemma deleteForUser_step message u deleteType now f :
  deleteForUser message u deleteType now = inr f -> forall m, message_step m (f m).
Proof.
  unfold deleteForUser.
  destruct (deleteType =? "forEveryone").
  - destruct (negb (m_sender message =? u)); [discriminate |].
    intros H; inversion H; subst. intros x. apply step_deleted.
  - destruct (deleted_for u message); intros H; inversion H; subst; intros x.
    + apply step_same.
    + apply step_deleted_for.
Qed.

Lemma read_filter_unread ids c u m : read_filter ids c u m = true -> read_by u m = false.
Proof.
  unfold read_filter. intros H.
  repeat (apply andb_true_iff in H; destruct H as [H ?]).
  apply negb_true_iff. assumption.
Qed.

Lemma multiple_filter_unread ids u m : multiple_filter ids u m = true -> read_by u m = false.
Proof.
  unfold multiple_filter. intros H.
  apply andb_true_iff in H. destruct H as [_ H]. apply negb_true_iff. exact H.
Qed.

(** *** Every handler evolves the collection *)

Lemma send_message_evolves st u env data :
  evolves (messages st) (messages (fst (fst (send_message cast st u env data)))).
Proof.
  destruct (send_message cast st u env data) as [[st' events] timer] eqn:Hsend.
  destruct (send_message_inv _ _ _ _ _ _ _ Hsend) as [(-> & _) | Hok].
  - apply evolves_refl.
  - destruct Hok as (c & content & type & pfd & st1 & _ & _ & _ & Hins & -> & _).
    apply Message_insert_inv in Hins. destruct Hins as (_ & _ & ->).
    cbn. apply evolves_insert. split; reflexivity.
Qed.

Lemma deliver_evolves st env t :
  evolves (messages st) (messages (fst (deliver cast st env t))).
Proof.
  unfold deliver. destruct (find_message st (t_saved t)) as [saved |]; [| apply evolves_refl].
  destruct (cast (t_conversationId t)); cbn [fst];
    apply evolves_update; intros x; apply step_delivery.
Qed.

Lemma mark_messages_read_evolves st u env data :
  evolves (messages st) (messages (fst (mark_messages_read cast st u env data))).
Proof.
  unfold mark_messages_read.
  destruct (r_messageIds data) as [messageIds |]; [| apply evolves_refl].
  destruct (Js.truthy (r_sessionId data)); cbn [negb]; [| apply evolves_refl].
  destruct (Conversation_findOne _ _ _ _) as [e | [c |]]; try apply evolves_refl.
  destruct (cast_all cast messageIds) as [ids |]; [| apply evolves_refl].
  assert (H : evolves (messages st)
                (messages (updateMany (read_filter ids (c_id c) u)
                             (read_update u (now env) (Js.template (r_sessionId data))) st))).
  { apply evolves_updateMany. intros m Hm. cbn. eapply read_filter_unread; eauto. }
  destruct (Nat.ltb _ _); exact H.
Qed.

Lemma delete_message_evolves st u env data :
  evolves (messages st) (messages (fst (delete_message cast st u env data))).
Proof.
  unfold delete_message, delete_error.
  destruct (Message_findById _ _ _) as [e | [message |]]; try apply evolves_refl.
  destruct (find _ (conversations st)) as [c |]; [| apply evolves_refl].
  destruct (negb (is_participant u c)); [apply evolves_refl |].
  destruct (match d_deleteType data with Some t => t =? "forEveryone" | None => false end).
  - destruct (negb (m_sender message =? u)); [apply evolves_refl |].
    destruct (Z.ltb _ _); [apply evolves_refl |].
    destruct (deleteForUser message u "forEveryone" (now env)) as [e | f] eqn:Hd;
      [apply evolves_refl |].
    cbn [fst]. apply evolves_update. eapply deleteForUser_step; eauto.
  - destruct (deleteForUser message u "forMe" (now env)) as [e | f] eqn:Hd;
      [apply evolves_refl |].
    cbn [fst]. apply evolves_update. eapply deleteForUser_step; eauto.
Qed.

Lemma delete_one_evolves u env conversationId acc messageId :
  evolves (messages (fst (fst acc)))
          (messages (fst (fst (delete_one cast u env conversationId acc messageId)))).
Proof.
  destruct acc as [[st n] ids]. unfold delete_one. cbn [fst].
  destruct (Message_findById _ _ _) as [e | [message |]]; try apply evolves_refl.
  destruct (m_conversation message =? conversationId); [| apply evolves_refl].
  destruct (deleteForUser message u "forMe" (now env)) as [e | f] eqn:Hd;
    [apply evolves_refl |].
  cbn [fst]. apply evolves_update. eapply deleteForUser_step; eauto.
Qed.

Lemma delete_loop_evolves u env conversationId messageIds acc :
  evolves (messages (fst (fst acc)))
          (messages (fst (fst (fold_left (delete_one cast u env conversationId)
                                         messageIds acc)))).
Proof.
  revert acc. induction messageIds as [| i r IH]; intros acc; cbn [fold_left].
  - apply evolves_refl.
  - eapply evolves_trans; [apply delete_one_evolves | apply IH].
Qed.

Lemma delete_multiple_messages_evolves st u env data :
  evolves (messages st) (messages (fst (delete_multiple_messages cast st u env data))).
Proof.
  unfold delete_multiple_messages, delete_error.
  destruct (dm_messageIds data) as [[| i r] |]; try apply evolves_refl.
  destruct (Conversation_findOne _ _ _ _) as [e | [c |]]; try apply evolves_refl.
  pose proof (delete_loop_evolves u env (dm_conversationId data) (i :: r) (st, O, []))
    as H.
  destruct (fold_left _ _ _) as [[st1 n] ids]. exact H.
Qed.

(** *** The consumer evolves the collection *)

Lemma processAutoMessage_body_evolves env data st :
  evolves (messages st) (messages (fst (processAutoMessage_body cast env data st))).
Proof.
  unfold processAutoMessage_body, bind, ret, throw, read, write, attempt.
  destruct data as [| | i]; cbn [fst]; try apply evolves_refl.
  unfold AutoMessage_findById, read, ret, throw.
  destruct i as [i |]; cbn [fst]; [| apply evolves_refl].
  destruct (cast i) as [o |]; cbn [fst]; [| apply evolves_refl].
  destruct (find _ (autoMessages st)) as [a |]; cbn [fst]; [| apply evolves_refl].
  destruct (a_isSent a); cbn [fst]; [apply evolves_refl |].
  unfold id_of, ret, throw.
  destruct (find _ (users st)) as [s |]; cbn [fst]; [| apply evolves_refl].
  destruct (find (fun x => u_id x =? a_recipient a) (users st)) as [r |]; cbn [fst];
    [| apply evolves_refl].
  destruct (find_private (u_id s) (u_id r) st) as [c |]; cbn [fst].
  - destruct (Message_insert st _) as [e | st1] eqn:Hins; cbn [fst];
      [apply evolves_refl |].
    apply Message_insert_inv in Hins. destruct Hins as (_ & _ & ->).
    cbn. apply evolves_insert. split; reflexivity.
  - unfold Conversation_insert.
    destruct (existsb _ (conversations st)); cbn [fst]; [apply evolves_refl |].
    destruct (Message_insert _ _) as [e | st1] eqn:Hins; cbn [fst];
      [apply evolves_refl |].
    apply Message_insert_inv in Hins. destruct Hins as (_ & _ & ->).
    cbn. apply evolves_insert. split; reflexivity.
Qed.

Lemma startConsumer_evolves env msg st :
  evolves (messages st) (messages (fst (fst (startConsumer cast env msg st)))).
Proof.
  pose proof (processAutoMessage_body_evolves env msg st) as H.
  unfold startConsumer, processAutoMessage.
  destruct msg; cbn [fst]; try apply evolves_refl;
    destruct (processAutoMessage_body cast env _ st) as [st1 [e | events]];
    exact H.
Qed.

(** ** Operations and their interleavings *)

(** Applies [f] to the document at position [i]. *)
Fixpoint at_index {A} (i : nat) (f : A -> A) (l : list A) : list A :=
  match l, i with
  | [], _ => []
  | a :: r, O => f a :: r
  | a :: r, S i' => a :: at_index i' f r
  end.

(** The share of one document in an [updateMany]: the filter is tested and
    the update applied to that document in one indivisible write. *)
Definition update_one (flt : Message -> bool) (upd : Message -> Message) (i : nat)
  (st : Store) : Store :=
  set_messages st (at_index i (fun m => if flt m then upd m else m) (messages st)).

(** What can happen to the store. [OpReadOne] and [OpMultipleOne] are the
    single-document writes of the two mark-as-read updates, so that calls
    that overlap in time are interleavings of them. *)
Inductive Op :=
| OpSend (u : oid) (env : Env) (data : SendData)
| OpDeliver (env : Env) (t : Timer)
| OpMarkRead (u : oid) (env : Env) (data : ReadData)
| OpReadOne (i : nat) (ids : list oid) (conversation u : oid) (now : Z) (sessionId : string)
| OpMultipleOne (i : nat) (ids : list oid) (u : oid) (now : Z) (sessionId : string)
| OpMarkMultiple (messageIds : list string) (u : oid) (sessionId : string) (now : Z)
| OpDelete (u : oid) (env : Env) (data : DeleteData)
| OpDeleteMultiple (u : oid) (env : Env) (data : DeleteMultipleData)
| OpConsume (env : QueueEnv) (msg : Payload)
| OpPlan (env : PlanEnv).

Definition run_op (st : Store) (op : Op) : Store :=
  match op with
  | OpSend u env data => fst (fst (send_message cast st u env data))
  | OpDeliver env t => fst (deliver cast st env t)
  | OpMarkRead u env data => fst (mark_messages_read cast st u env data)
  | OpReadOne i ids c u now sessionId =>
      update_one (read_filter ids c u) (read_update u now sessionId) i st
  | OpMultipleOne i ids u now sessionId =>
      update_one (multiple_filter ids u) (read_update u now sessionId) i st
  | OpMarkMultiple messageIds u sessionId now =>
      match markMultipleAsRead cast st messageIds u sessionId now with
      | inr st1 => st1
      | inl _ => st
      end
  | OpDelete u env data => fst (delete_message cast st u env data)
  | OpDeleteMultiple u env data => fst (delete_multiple_messages cast st u env data)
  | OpConsume env msg => fst (fst (startConsumer cast env msg st))
  | OpPlan env => planAutomaticMessages env st
  end.

Definition run (ops : list Op) (st : Store) : Store := fold_left run_op ops st.

Lemma evolves_at_index ms i (f : Message -> Message) :
  (forall m, message_step m (f m)) -> evolves ms (at_index i f ms).
Proof.
  intros Hf. exists (at_index i f ms), []. rewrite app_nil_r. repeat split; auto.
  revert i. induction ms as [| m ms IH]; intros i; cbn.
  - destruct i; constructor.
  - destruct i; constructor; auto using changes_step, changes_none, Forall2_changes_refl.
Qed.

Lemma run_op_evolves st op : evolves (messages st) (messages (run_op st op)).
Proof.
  destruct op; cbn [run_op].
  - apply send_message_evolves.
  - apply deliver_evolves.
  - apply mark_messages_read_evolves.
  - cbn. apply evolves_at_index. intros m.
    destruct (read_filter ids conversation u m) eqn:Hm; [| apply step_same].
    apply step_read. cbn. eapply read_filter_unread; eauto.
  - cbn. apply evolves_at_index. intros m.
    destruct (multiple_filter ids u m) eqn:Hm; [| apply step_same].
    apply step_read. cbn. eapply multiple_filter_unread; eauto.
  - unfold markMultipleAsRead. destruct (cast_all cast messageIds) as [ids |];
      [| apply evolves_refl].
    apply evolves_updateMany. intros m Hm. cbn. eapply multiple_filter_unread; eauto.
  - apply delete_message_evolves.
  - apply delete_multiple_messages_evolves.
  - apply startConsumer_evolves.
  - cbn. apply evolves_refl.
Qed.

Lemma run_evolves ops st : evolves (messages st) (messages (run ops st)).
Proof.
  revert st. induction ops as [| op ops IH]; intros st; cbn.
  - apply evolves_refl.
  - eapply evolves_trans; [apply run_op_evolves | apply IH].
Qed.

(** An [updateMany] is its single-document writes, one document after the
    other. *)
Lemma updateMany_sequential flt upd st :
  updateMany flt upd st
  = fold_left (fun s i => update_one flt upd i s) (seq 0 (List.length (messages st))) st.
Proof.
  unfold updateMany.
  set (f := fun m => if flt m then upd m else m).
  assert (H : forall post pre s,
             messages s = map f pre ++ post ->
             fold_left (fun s i => update_one flt upd i s)
                       (seq (List.length pre) (List.length post)) s
             = set_messages s (map f pre ++ map f post)).
  { induction post as [| m post IH]; intros pre s Hs; cbn [seq fold_left List.length].
    - cbn [map]. rewrite <- Hs. destruct s; reflexivity.
    - replace (S (List.length pre)) with (List.length (pre ++ [m]))
        by (rewrite length_app; cbn; lia).
      rewrite IH.
      + unfold update_one, set_messages. cbn. rewrite map_app. cbn.
        rewrite <- app_assoc. reflexivity.
      + unfold update_one. cbn [messages set_messages]. rewrite Hs, map_app. cbn [map].
        rewrite <- app_assoc. cbn [app]. fold f.
        clear. induction pre as [| p pre IHp]; cbn; [reflexivity |].
        f_equal. exact IHp. }
  specialize (H (messages st) [] st eq_refl). cbn in H. rewrite H. reflexivity.
Qed.

(** ** Read receipts (C3) *)

(** [readBy] holds at most one entry per user. *)
Definition unique_readers (m : Message) : Prop := NoDup (map rb_user (m_readBy m)).


Lemma read_by_false_not_in u m : read_by u m = false -> ~ In u (map rb_user (m_readBy m)).
Proof.
  unfold read_by. intros H Hin. apply in_map_iff in Hin. destruct Hin as (r & <- & Hr).
  assert (existsb (fun r0 => rb_user r0 =? rb_user r) (m_readBy m) = true).
  { apply existsb_exists. exists r. split; [exact Hr | apply String.eqb_refl]. }
  congruence.
Qed.

Lemma NoDup_snoc {A} (l : list A) (x : A) : NoDup l -> ~ In x l -> NoDup (l ++ [x]).
Proof.
  intros Hl Hx. induction Hl as [| a l Ha Hl IH]; cbn.
  - constructor; [intros [] | constructor].
  - constructor.
    + intros Hin. apply in_app_or in Hin. destruct Hin as [Hin | [<- | []]].
      * contradiction.
      * apply Hx. left. reflexivity.
    + apply IH. intros Hin. apply Hx. right. exact Hin.
Qed.






Lemma existsb_eqb_In (x : string) (l : list string) :
  existsb (String.eqb x) l = true <-> In x l.
Proof.
  rewrite existsb_exists. split.
  - intros (y & Hy & He). apply String.eqb_eq in He. subst. exact Hy.
  - intros H. exists x. split; [exact H | apply String.eqb_refl].
Qed.

Lemma Forall2_map_same {A} (R : A -> A -> Prop) (f : A -> A) (l : list A) :
  (forall a, In a l -> R a (f a)) -> Forall2 R l (map f l).
Proof.
  induction l as [| a l IH]; cbn; intros H; constructor.
  - apply H. left. reflexivity.
  - apply IH. intros b Hb. apply H. right. exact Hb.
Qed.




Lemma findOne_some st conversationId u c :
  Conversation_findOne cast st conversationId u = inr (Some c) ->
  cast conversationId = Some (c_id c) /\ In c (conversations st)
  /\ is_participant u c = true.
Proof.
  unfold Conversation_findOne. destruct (cast conversationId) as [o |]; [| discriminate].
  intros H. inversion H as [Hf]. apply find_some in Hf. destruct Hf as [Hin Hb].
  apply andb_true_iff in Hb. destruct Hb as [Hid Hp]. apply String.eqb_eq in Hid.
  subst. auto.
Qed.


(** ** Delete for everyone (C6) *)

Lemma message_step_deleted m m' :
  message_step m m' ->
  m_id m' = m_id m /\ (m_isDeleted m = true -> m_isDeleted m' = true).
Proof. intros H. destruct H; cbn; auto. Qed.

Lemma changes_deleted m m' :
  changes m m' -> m_id m' = m_id m /\ (m_isDeleted m = true -> m_isDeleted m' = true).
Proof.
  intros H. induction H as [| m1 m2 _ [IHid IHd] Hs]; [auto |].
  apply message_step_deleted in Hs. destruct Hs as [Hid Hd].
  split; [congruence | auto].
Qed.

(** The document found under an id is found under it after any evolution,
    changed or not. *)
Lemma evolves_find ms ms' o m :
  evolves ms ms' -> find (fun x => m_id x =? o) ms = Some m ->
  exists m', find (fun x => m_id x =? o) ms' = Some m' /\ changes m m'.
Proof.
  intros (changed & inserted & -> & Hc & _).
  induction Hc as [| a b la lb Hab Hc IH]; cbn; [discriminate |].
  destruct (changes_deleted a b Hab) as [Hid _]. rewrite Hid.
  destruct (m_id a =? o).
  - intros H; inversion H; subst. eauto.
  - exact IH.
Qed.

Definition hour_ms : Z := 60 * 60 * 1000.

Definition authorization_errors : list string :=
  ["Access denied"; "Only sender can delete for everyone"].

Definition time_limit_error : string :=
  "Message can only be deleted for everyone within 1 hour".

(** The event that reports a deletion for everyone. *)
Definition deleted_for_everyone (events : list emit) : Prop :=
  exists room messageId by_user at_time,
    In (ToRoom room, EvMessageDeletedForEveryone messageId by_user at_time) events.

(** C6: for a stored message whose conversation exists, delete_message with
    the type forEveryone succeeds exactly when the caller participates, is
    the sender and the message was created no more than one hour ago: then
    [isDeleted] is set and no later operation unsets it. A caller who is not
    the sender gets an authorization error, the sender outside the hour gets
    the time-limit error, the two differ, and the store stays as it was in
    both cases. *)
Theorem delete_for_everyone_window st u env data message conversation :
  d_deleteType data = Some "forEveryone" ->
  Message_findById cast st (d_messageId data) = inr (Some message) ->
  find (fun c => c_id c =? m_conversation message) (conversations st) = Some conversation ->
  (is_participant u conversation = true -> m_sender message = u ->
   now env - hour_ms <= m_createdAt message ->
     delete_message cast st u env data =
     (update_message st (m_id message) (mark_deleted u (now env)),
      [(ToRoom (conversation_room (d_conversationId data)),
        EvMessageDeletedForEveryone (d_messageId data) u (now env))])
     /\ forall ops, exists m',
          find_message (run ops (fst (delete_message cast st u env data))) (m_id message)
          = Some m'
          /\ m_isDeleted m' = true)
  /\ (m_sender message <> u ->
        exists error,
          delete_message cast st u env data = (st, [(ToSocket, EvError error None)])
          /\ In error authorization_errors)
  /\ (is_participant u conversation = true -> m_sender message = u ->
      m_createdAt message < now env - hour_ms ->
        delete_message cast st u env data =
        (st, [(ToSocket, EvError time_limit_error None)]))
  /\ ~ In time_limit_error authorization_errors
  /\ (deleted_for_everyone (snd (delete_message cast st u env data)) ->
        is_participant u conversation = true /\ m_sender message = u
        /\ now env - hour_ms <= m_createdAt message).
Proof.
  intros Ht Hm Hc.
  assert (Hcases :
    delete_message cast st u env data =
    if negb (is_participant u conversation) then delete_error st "Access denied"
    else if negb (m_sender message =? u)
         then delete_error st "Only sender can delete for everyone"
         else if Z.ltb (m_createdAt message) (now env - hour_ms)
              then delete_error st time_limit_error
              else (update_message st (m_id message) (mark_deleted u (now env)),
                    [(ToRoom (conversation_room (d_conversationId data)),
                      EvMessageDeletedForEveryone (d_messageId data) u (now env))])).
  { unfold delete_message. rewrite Hm, Hc, Ht. cbn [String.eqb Ascii.eqb Bool.eqb].
    destruct (negb (is_participant u conversation)); [reflexivity |].
    unfold deleteForUser. cbn [String.eqb Ascii.eqb Bool.eqb].
    destruct (negb (m_sender message =? u)); [reflexivity |].
    reflexivity. }
  rewrite Hcases. clear Hcases.
  split; [| split; [| split; [| split]]].
  - intros Hp Hs Hw. rewrite Hp. cbn [negb].
    apply String.eqb_eq in Hs. rewrite Hs. cbn [negb].
    apply Z.ltb_ge in Hw. rewrite Hw. split; [reflexivity |].
    intros ops. cbn [fst].
    unfold Message_findById in Hm. destruct (cast (d_messageId data)) as [o |];
      [| discriminate].
    inversion Hm as [Hfind]. unfold find_message in Hfind.
    destruct (find_some _ _ Hfind) as [_ Hid]. apply String.eqb_eq in Hid. subst o.
    assert (Hafter : find_message (update_message st (m_id message) (mark_deleted u (now env)))
                       (m_id message) = Some (mark_deleted u (now env) message)).
    { unfold find_message, update_message. cbn [messages set_messages].
      clear - Hfind. induction (messages st) as [| a l IH]; cbn in *; [discriminate |].
      destruct (m_id a =? m_id message) eqn:Ha.
      - inversion Hfind; subst. cbn. rewrite String.eqb_refl. reflexivity.
      - rewrite Ha. apply IH. exact Hfind. }
    destruct (evolves_find _ _ _ _ (run_evolves ops _) Hafter) as (m' & Hm' & Hch).
    exists m'. split; [exact Hm' |].
    apply changes_deleted in Hch. destruct Hch as [_ Hd]. apply Hd. reflexivity.
  - intros Hs. apply String.eqb_neq in Hs.
    destruct (negb (is_participant u conversation)).
    + exists "Access denied". split; [reflexivity | cbn; auto].
    + rewrite Hs. cbn [negb]. exists "Only sender can delete for everyone".
      split; [reflexivity | cbn; auto].
  - intros Hp Hs Hw. rewrite Hp. cbn [negb].
    apply String.eqb_eq in Hs. rewrite Hs. cbn [negb].
    apply Z.ltb_lt in Hw. rewrite Hw. reflexivity.
  - cbn. intros [H | [H | []]]; discriminate.
  - destruct (is_participant u conversation); cbn [negb].
    2:{ intros (r & i & b & a & [H | []]). discriminate. }
    destruct (m_sender message =? u) eqn:Hs; cbn [negb].
    2:{ intros (r & i & b & a & [H | []]). discriminate. }
    destruct (Z.ltb _ _) eqn:Hw.
    { intros (r & i & b & a & [H | []]). discriminate. }
    intros _. apply String.eqb_eq in Hs. apply Z.ltb_ge in Hw. auto.
Qed.

(** ** Bulk delete (C9) *)

(** The id casts, the message exists and belongs to the conversation named
    in the request. *)
Definition deletable (st : Store) (conversationId : string) (messageId : string) : bool :=
  match cast messageId with
  | Some o =>
      match find_message st o with
      | Some m => m_conversation m =? conversationId
      | None => false
      end
  | None => false
  end.

Lemma message_step_fixed m m' :
  message_step m m' ->
  m_id m' = m_id m /\ m_conversation m' = m_conversation m
  /\ (forall u, deleted_for u m = true -> deleted_for u m' = true).
Proof.
  intros H. destruct H; cbn; auto.
  repeat split; auto. intros v Hv. unfold deleted_for in *. cbn.
  rewrite existsb_app, Hv. reflexivity.
Qed.

Lemma changes_fixed m m' :
  changes m m' ->
  m_id m' = m_id m /\ m_conversation m' = m_conversation m
  /\ (forall u, deleted_for u m = true -> deleted_for u m' = true).
Proof.
  intros H. induction H as [| m1 m2 _ (IHi & IHc & IHd) Hs]; [auto |].
  apply message_step_fixed in Hs. destruct Hs as (Hi & Hc & Hd).
  repeat split; [congruence | congruence | auto].
Qed.

(** With no insertion in between, an id finds the same document, changed
    or not, or finds none in both collections. *)
Lemma find_changes ms ms' o :
  Forall2 changes ms ms' ->
  match find (fun x => m_id x =? o) ms, find (fun x => m_id x =? o) ms' with
  | Some m, Some m' => changes m m'
  | None, None => True
  | _, _ => False
  end.
Proof.
  intros H. induction H as [| a b la lb Hab _ IH]; cbn; [exact I |].
  destruct (changes_fixed a b Hab) as (Hid & _). rewrite Hid.
  destruct (m_id a =? o); [exact Hab | exact IH].
Qed.

Lemma deletable_changes st st' conversationId i :
  Forall2 changes (messages st) (messages st') ->
  deletable st' conversationId i = deletable st conversationId i.
Proof.
  intros H. unfold deletable, find_message. destruct (cast i) as [o |]; [| reflexivity].
  pose proof (find_changes _ _ o H) as Hf.
  destruct (find _ (messages st)) as [m |], (find _ (messages st')) as [m' |];
    try contradiction; [| reflexivity].
  destruct (changes_fixed m m' Hf) as (_ & -> & _). reflexivity.
Qed.

Lemma update_message_changes st o f :
  (forall m, message_step m (f m)) ->
  Forall2 changes (messages st) (messages (update_message st o f)).
Proof.
  intros Hf. cbn. apply Forall2_map_same. intros m _.
  destruct (m_id m =? o); [apply changes_step, Hf | apply changes_none].
Qed.

Lemma find_update_message st o f m :
  (forall x, m_id (f x) = m_id x) ->
  find_message st o = Some m -> find_message (update_message st o f) o = Some (f m).
Proof.
  intros Hid. unfold find_message, update_message. cbn [messages set_messages].
  induction (messages st) as [| a l IH]; cbn; [discriminate |].
  destruct (m_id a =? o) eqn:Ha.
  - intros H; inversion H; subst. cbn. rewrite Hid, Ha. reflexivity.
  - rewrite Ha. exact IH.
Qed.

(** One turn of the loop: the id is counted exactly when it is deletable,
    and then the message found is deleted for the caller. *)
Lemma delete_one_spec u env conversationId st n l i :
  exists st',
    delete_one cast u env conversationId (st, n, l) i
    = (st', if deletable st conversationId i then S n else n,
            if deletable st conversationId i then l ++ [i] else l)
    /\ Forall2 changes (messages st) (messages st')
    /\ (forall o m, cast i = Some o -> find_message st o = Some m ->
                    m_conversation m = conversationId ->
                    exists m', find_message st' o = Some m' /\ deleted_for u m' = true).
Proof.
  unfold delete_one, deletable, Message_findById.
  destruct (cast i) as [o |] eqn:Hc.
  2:{ exists st. repeat split; auto using Forall2_changes_refl. discriminate. }
  destruct (find_message st o) as [m |] eqn:Hf.
  2:{ exists st. repeat split; auto using Forall2_changes_refl.
      intros o' m' Ho'. inversion Ho'; subst. congruence. }
  destruct (m_conversation m =? conversationId) eqn:Hconv.
  2:{ exists st. repeat split; auto using Forall2_changes_refl.
      intros o' m' Ho' Hf' Hm'. inversion Ho'; subst.
      rewrite Hf in Hf'. inversion Hf'; subst.
      rewrite String.eqb_refl in Hconv. discriminate. }
  assert (Hid : m_id m = o).
  { unfold find_message in Hf. apply find_some in Hf. destruct Hf as [_ H].
    apply String.eqb_eq in H. exact H. }
  unfold deleteForUser. cbn [String.eqb Ascii.eqb Bool.eqb].
  destruct (deleted_for u m) eqn:Hd.
  - exists (update_message st (m_id m) (fun x => x)). repeat split; auto.
    + apply update_message_changes. intros x. apply step_same.
    + intros o' m0 Ho' Hf' _. inversion Ho'; subst o'. rewrite Hf in Hf'.
      inversion Hf'; subst m0. exists m. split; [| exact Hd].
      rewrite Hid. apply (find_update_message st o (fun x => x) m); auto.
  - exists (update_message st (m_id m)
              (push_deleted {| df_user := u; df_deletedAt := now env;
                               df_deleteType := "forMe" |})).
    repeat split; auto.
    + apply update_message_changes. intros x. apply step_deleted_for.
    + intros o' m0 Ho' Hf' _. inversion Ho'; subst o'. rewrite Hf in Hf'.
      inversion Hf'; subst m0. eexists. split.
      * rewrite Hid. apply find_update_message; [reflexivity | exact Hf].
      * unfold deleted_for. cbn. rewrite existsb_app. cbn.
        rewrite String.eqb_refl. apply orb_true_r.
Qed.

Lemma delete_loop_spec u env conversationId messageIds :
  forall st n l,
  exists st',
    fold_left (delete_one cast u env conversationId) messageIds (st, n, l)
    = (st', (n + List.length (filter (deletable st conversationId) messageIds))%nat,
            l ++ filter (deletable st conversationId) messageIds)
    /\ Forall2 changes (messages st) (messages st')
    /\ (forall i o m, In i messageIds -> cast i = Some o -> find_message st o = Some m ->
                      m_conversation m = conversationId ->
                      exists m', find_message st' o = Some m' /\ deleted_for u m' = true).
Proof.
  induction messageIds as [| i r IH]; intros st n l; cbn [fold_left filter].
  - exists st. rewrite app_nil_r, Nat.add_0_r.
    repeat split; auto using Forall2_changes_refl. intros i o m [].
  - destruct (delete_one_spec u env conversationId st n l i) as (st1 & -> & Hch1 & Hdel1).
    destruct (IH st1 (if deletable st conversationId i then S n else n)
                 (if deletable st conversationId i then l ++ [i] else l))
      as (st2 & -> & Hch2 & Hdel2).
    exists st2.
    rewrite (filter_ext _ _ (fun x => deletable_changes st st1 conversationId x Hch1)).
    split; [| split].
    + destruct (deletable st conversationId i); cbn [List.length];
        rewrite <- ?app_assoc; cbn [app]; f_equal; f_equal; lia.
    + eapply Forall2_changes_trans; eauto.
    + intros j o m [<- | Hj] Hc Hf Hm.
      * destruct (Hdel1 o m Hc Hf Hm) as (m1 & Hf1 & Hd1).
        pose proof (find_changes _ _ o Hch2) as H. unfold find_message in Hf1.
        rewrite Hf1 in H. unfold find_message.
        destruct (find _ (messages st2)) as [m2 |]; [| contradiction].
        exists m2. split; [reflexivity |].
        destruct (changes_fixed m1 m2 H) as (_ & _ & Hmono). auto.
      * pose proof (find_changes _ _ o Hch1) as H. unfold find_message in Hf.
        rewrite Hf in H.
        destruct (find (fun x => m_id x =? o) (messages st1)) as [m1 |] eqn:Hf1;
          [| contradiction].
        destruct (changes_fixed m m1 H) as (_ & Hconv & _).
        apply (Hdel2 j o m1 Hj Hc Hf1). congruence.
Qed.

(** The answer of a bulk delete: the counts. *)
Definition reports (events : list emit) : Prop :=
  exists deleted deletedCount totalRequested,
    In (ToSocket, EvMultipleMessagesDeleted deleted deletedCount totalRequested) events.

(** C9, as amended: for a non-empty list of message ids and a conversation
    in which the caller participates, delete_multiple_messages deletes for
    the caller every listed message that exists and belongs to that
    conversation; an id that fails (it does not cast, or names no such
    message) is passed over and the ids after it are still processed; the
    caller receives the ids deleted, their number and the number of ids
    requested. *)
Theorem bulk_delete_reports st u env data messageIds conversation :
  dm_messageIds data = Some messageIds -> messageIds <> [] ->
  Conversation_findOne cast st (dm_conversationId data) u = inr (Some conversation) ->
  let deleted := filter (deletable st (dm_conversationId data)) messageIds in
  snd (delete_multiple_messages cast st u env data)
  = [(ToSocket, EvMultipleMessagesDeleted deleted (List.length deleted)
                                          (List.length messageIds))]
  /\ (forall i o m, In i messageIds -> cast i = Some o -> find_message st o = Some m ->
        m_conversation m = dm_conversationId data ->
        exists m', find_message (fst (delete_multiple_messages cast st u env data)) o
                   = Some m'
                   /\ deleted_for u m' = true)
  /\ (forall before bad after, messageIds = before ++ bad :: after ->
        deletable st (dm_conversationId data) bad = false ->
        deleted = filter (deletable st (dm_conversationId data)) before
                  ++ filter (deletable st (dm_conversationId data)) after).
Proof.
  intros Hids Hne Hc deleted.
  unfold delete_multiple_messages. rewrite Hids.
  destruct messageIds as [| i r]; [contradiction |]. rewrite Hc.
  destruct (delete_loop_spec u env (dm_conversationId data) (i :: r) st O [])
    as (st' & Hloop & _ & Hdel).
  rewrite Hloop. cbn [fst snd app Nat.add].
  split; [reflexivity |]. split; [exact Hdel |].
  intros before bad after Heq Hbad. unfold deleted. rewrite Heq, filter_app.
  cbn [filter]. rewrite Hbad. reflexivity.
Qed.

(** ** The planner (C8) *)

(** A value of [Math.random()] for which [Math.floor(r * k)] is [j]. *)
Definition random_for (j k : Z) : Q :=
  (inject_Z ((j * 2 ^ 53 + k - 1) / k) * Double.pow2 (-53))%Q.

Section Doubles.

Import Double.
Local Open Scope Q_scope.

(** *** Rounding and the integers *)

Lemma nearest_even_le q z : q <= inject_Z z -> (nearest_even q <= z)%Z.
Proof.
  intros H. unfold nearest_even. cbv zeta.
  pose proof (Qfloor_le q) as Hf. pose proof (Qlt_floor q) as Hc.
  rewrite inject_Z_plus in Hc. change (inject_Z 1) with 1%Q in Hc.
  assert (Hfz : (Qfloor q <= z)%Z) by (rewrite Zle_Qle; lra).
  destruct (Qcompare (q - inject_Z (Qfloor q)) (1 # 2)) eqn:Hcmp.
  - destruct (Z.even (Qfloor q)); [exact Hfz |].
    apply Qeq_alt in Hcmp.
    assert (Qfloor q < z)%Z by (rewrite Zlt_Qlt; lra). lia.
  - exact Hfz.
  - apply Qgt_alt in Hcmp.
    assert (Qfloor q < z)%Z by (rewrite Zlt_Qlt; lra). lia.
Qed.

Lemma nearest_even_ge q z : inject_Z z <= q -> (z <= nearest_even q)%Z.
Proof.
  intros H. unfold nearest_even. cbv zeta.
  pose proof (Qfloor_le q) as Hf. pose proof (Qlt_floor q) as Hc.
  rewrite inject_Z_plus in Hc. change (inject_Z 1) with 1%Q in Hc.
  assert (Hfz : (z <= Qfloor q)%Z).
  { assert (z < Qfloor q + 1)%Z; [| lia]. rewrite Zlt_Qlt, inject_Z_plus. change (inject_Z 1) with 1%Q. lra. }
  destruct (Qcompare (q - inject_Z (Qfloor q)) (1 # 2));
    [destruct (Z.even (Qfloor q)) | |].
  all: lia.
Qed.

Lemma nearest_even_above q : inject_Z (nearest_even q) - q <= 1 # 2.
Proof.
  unfold nearest_even. cbv zeta.
  pose proof (Qfloor_le q) as Hf. pose proof (Qlt_floor q) as Hc.
  rewrite inject_Z_plus in Hc. change (inject_Z 1) with 1%Q in Hc.
  destruct (Qcompare (q - inject_Z (Qfloor q)) (1 # 2)) eqn:Hcmp.
  - apply Qeq_alt in Hcmp. destruct (Z.even (Qfloor q)); [lra |].
    rewrite inject_Z_plus. change (inject_Z 1) with 1%Q. lra.
  - lra.
  - apply Qgt_alt in Hcmp. rewrite inject_Z_plus. change (inject_Z 1) with 1%Q. lra.
Qed.

Lemma pow2_pos e : 0 < pow2 e.
Proof. apply Qpower_0_lt. reflexivity. Qed.

Lemma pow2_add a b : pow2 (a + b) == pow2 a * pow2 b.
Proof. apply Qpower_plus. discriminate. Qed.

Lemma pow2_le a b : (a <= b)%Z -> pow2 a <= pow2 b.
Proof. intros H. apply Qpower_le_compat_l; [exact H | discriminate]. Qed.

Lemma pow2_lt a b : (a < b)%Z -> pow2 a < pow2 b.
Proof. intros H. apply Qpower_lt_compat_l; [exact H | reflexivity]. Qed.

Lemma pow2_inject e : (0 <= e)%Z -> pow2 e == inject_Z (2 ^ e).
Proof. intros H. unfold pow2. rewrite Zpower_Qpower by exact H. reflexivity. Qed.

Lemma floor_log2_lower x : 0 < x -> pow2 (floor_log2 x) <= x.
Proof.
  intros Hx. unfold floor_log2.
  set (k := (Z.log2 (Qnum x) - Z.log2 (Z.pos (Qden x)))%Z).
  destruct (Qle_bool (pow2 k) x) eqn:Hb; [apply Qle_bool_iff; exact Hb |].
  destruct x as [n d]. cbn [Qnum Qden] in *.
  assert (Hn : (0 < n)%Z) by (unfold Qlt in Hx; cbn in Hx; lia).
  destruct (Z.log2_spec n Hn) as [Hn1 _].
  destruct (Z.log2_spec (Z.pos d) (Pos2Z.is_pos d)) as [_ Hd2].
  pose proof (Z.log2_nonneg n) as Hln. pose proof (Z.log2_nonneg (Z.pos d)) as Hld.
  replace (k - 1)%Z with (Z.log2 n + - (Z.log2 (Z.pos d) + 1))%Z by (unfold k; lia).
  rewrite pow2_add. unfold pow2 at 2. rewrite Qpower_opp.
  fold (pow2 (Z.log2 (Z.pos d) + 1)).
  rewrite (pow2_inject (Z.log2 n)) by exact Hln.
  rewrite (pow2_inject (Z.log2 (Z.pos d) + 1)) by lia.
  rewrite (Qmake_Qdiv n d).
  assert (H1 : inject_Z (2 ^ Z.log2 n) <= inject_Z n) by (rewrite <- Zle_Qle; exact Hn1).
  assert (H2 : inject_Z (Z.pos d) <= inject_Z (2 ^ (Z.log2 (Z.pos d) + 1))).
  { rewrite <- Zle_Qle. replace (Z.log2 (Z.pos d) + 1)%Z with (Z.succ (Z.log2 (Z.pos d))) by lia.
    lia. }
  assert (H3 : 0 < inject_Z (Z.pos d)) by (change 0 with (inject_Z 0); rewrite <- Zlt_Qlt; lia).
  assert (H4 : 0 < inject_Z (2 ^ Z.log2 n)).
  { change 0 with (inject_Z 0). rewrite <- Zlt_Qlt. apply Z.pow_pos_nonneg; lia. }
  unfold Qdiv. apply Qmult_le_compat_nonneg.
  - split; [apply Qlt_le_weak; exact H4 | exact H1].
  - split.
    + apply Qlt_le_weak, Qinv_lt_0_compat. lra.
    + apply Qle_shift_inv_l; [exact H3 |].
      setoid_replace (/ inject_Z (2 ^ (Z.log2 (Z.pos d) + 1)) * inject_Z (Z.pos d))
        with (inject_Z (Z.pos d) / inject_Z (2 ^ (Z.log2 (Z.pos d) + 1)))
        by (unfold Qdiv; ring).
      apply Qle_shift_div_r; lra.
Qed.

Lemma round_positive x :
  0 < x ->
  round x = inject_Z (nearest_even (x / pow2 (ulp_exponent x))) * pow2 (ulp_exponent x).
Proof.
  intros Hx. unfold round. apply Qgt_alt in Hx. rewrite Hx. reflexivity.
Qed.

Lemma round_zero x : x == 0 -> round x = 0.
Proof. intros Hx. unfold round. apply Qeq_alt in Hx. rewrite Hx. reflexivity. Qed.

Lemma scaled_le x y e : x <= y * pow2 e -> x / pow2 e <= y.
Proof. intros H. apply Qle_shift_div_r; [apply pow2_pos | exact H]. Qed.

Lemma scaled_ge x y e : y * pow2 e <= x -> y <= x / pow2 e.
Proof. intros H. apply Qle_shift_div_l; [apply pow2_pos | exact H]. Qed.

(** An integer is a multiple of the unit in the last place when that unit
    is at most one. *)
Lemma integer_on_grid z e :
  (e <= 0)%Z -> inject_Z z == inject_Z (z * 2 ^ (- e)) * pow2 e.
Proof.
  intros He. rewrite inject_Z_mult, <- (pow2_inject (- e)) by lia.
  rewrite <- Qmult_assoc, <- pow2_add.
  replace (- e + e)%Z with 0%Z by lia. unfold pow2. cbn. ring.
Qed.

(** Rounding does not cross an integer that a double holds exactly. *)
Lemma round_integer_bound x z :
  0 <= x -> (0 <= z <= 2 ^ 53)%Z ->
  (x <= inject_Z z -> round x <= inject_Z z)
  /\ (inject_Z z <= x -> inject_Z z <= round x).
Proof.
  intros Hx Hz.
  assert (Hz0 : 0 <= inject_Z z) by (change 0 with (inject_Z 0); rewrite <- Zle_Qle; lia).
  destruct (Qlt_le_dec 0 x) as [Hpos | Hle].
  2:{ assert (H0 : x == 0) by lra. rewrite (round_zero x H0). split; intros; lra. }
  rewrite (round_positive x Hpos).
  set (e := ulp_exponent x).
  pose proof (pow2_pos e) as Hp.
  destruct (Z_le_gt_dec e 0) as [He | He].
  - pose proof (integer_on_grid z e He) as Hg.
    split; intros H.
    + rewrite Hg. apply Qmult_le_compat_r; [| lra].
      rewrite <- Zle_Qle. apply nearest_even_le. apply scaled_le. rewrite <- Hg. exact H.
    + rewrite Hg at 1. apply Qmult_le_compat_r; [| lra].
      rewrite <- Zle_Qle. apply nearest_even_ge. apply scaled_ge. rewrite <- Hg. exact H.
  - assert (Hlog : e = (floor_log2 x - 52)%Z) by (unfold e, ulp_exponent in *; lia).
    pose proof (floor_log2_lower x Hpos) as Hlow.
    replace (floor_log2 x) with (52 + e)%Z in Hlow by lia.
    rewrite pow2_add in Hlow.
    assert (Hbig : inject_Z z <= pow2 52 * pow2 e).
    { rewrite <- pow2_add.
      apply Qle_trans with (pow2 53); [| apply pow2_le; lia].
      rewrite (pow2_inject 53) by lia. rewrite <- Zle_Qle. lia. }
    assert (H52 : pow2 52 == inject_Z (2 ^ 52)) by (apply pow2_inject; lia).
    split; intros H.
    + apply Qle_trans with (inject_Z (2 ^ 52) * pow2 e); [| rewrite <- H52; lra].
      apply Qmult_le_compat_r; [| lra].
      rewrite <- Zle_Qle. apply nearest_even_le. apply scaled_le. rewrite <- H52. lra.
    + apply Qle_trans with (inject_Z (2 ^ 52) * pow2 e); [rewrite <- H52; lra |].
      apply Qmult_le_compat_r; [| lra].
      rewrite <- Zle_Qle. apply nearest_even_ge. apply scaled_ge. rewrite <- H52. lra.
Qed.

(** The error of rounding upwards is at most half a unit in the last place. *)
Lemma round_above x :
  0 < x -> round x - x <= (1 # 2) * pow2 (ulp_exponent x).
Proof.
  intros Hpos. rewrite (round_positive x Hpos).
  set (e := ulp_exponent x). pose proof (pow2_pos e) as Hp.
  pose proof (nearest_even_above (x / pow2 e)) as Hn.
  setoid_replace x with (x / pow2 e * pow2 e) at 2 by (field; lra).
  setoid_replace (inject_Z (nearest_even (x / pow2 e)) * pow2 e - x / pow2 e * pow2 e)
    with ((inject_Z (nearest_even (x / pow2 e)) - x / pow2 e) * pow2 e) by ring.
  apply Qmult_le_compat_r; lra.
Qed.

(** A number that is below an integer by the relative spacing of the doubles
    is not rounded up to it. *)
Lemma round_below_integer x k :
  (1 <= k <= 2 ^ 53)%Z -> 0 <= x ->
  x <= inject_Z k * (1 - pow2 (-53)) ->
  round x < inject_Z k.
Proof.
  intros Hk Hx Hxk.
  assert (Hk1 : 1 <= inject_Z k) by (change 1 with (inject_Z 1); rewrite <- Zle_Qle; lia).
  pose proof (pow2_pos (-53)) as H53.
  destruct (Qlt_le_dec 0 x) as [Hpos | Hle].
  2:{ assert (H0 : x == 0) by lra. rewrite (round_zero x H0). lra. }
  destruct (Qlt_le_dec (round x) (inject_Z k)) as [Hlt | Hge]; [exact Hlt | exfalso].
  pose proof (round_above x Hpos) as Herr.
  set (e := ulp_exponent x) in *. pose proof (pow2_pos e) as Hp.
  assert (Hke : inject_Z k * pow2 (-53) <= (1 # 2) * pow2 e) by nra.
  assert (Hk52 : inject_Z k <= pow2 (52 + e)).
  { rewrite pow2_add.
    assert (Hone : pow2 (-53) * (2 * pow2 52) == 1).
    { setoid_replace (2 * pow2 52) with (pow2 53)
        by (replace 53%Z with (1 + 52)%Z by lia; rewrite pow2_add; reflexivity).
      rewrite <- pow2_add. reflexivity. }
    pose proof (pow2_pos 52) as H52.
    setoid_replace (inject_Z k) with (inject_Z k * pow2 (-53) * (2 * pow2 52))
      by (rewrite <- Qmult_assoc, Hone; ring).
    setoid_replace (pow2 52 * pow2 e) with ((1 # 2) * pow2 e * (2 * pow2 52)) by ring.
    apply Qmult_le_compat_r; lra. }
  destruct (Z.max_spec (floor_log2 x - 52) (-1074)) as [[_ Hm] | [_ Hm]];
    fold (ulp_exponent x) in Hm; fold e in Hm.
  - assert (Hsmall : pow2 (52 + e) < 1).
    { change 1 with (pow2 0). apply pow2_lt. lia. }
    lra.
  - pose proof (floor_log2_lower x Hpos) as Hlow.
    replace (floor_log2 x) with (52 + e)%Z in Hlow by lia.
    nra.
Qed.

(** *** The values of [Math.random()] *)

Lemma unit_double_range r : unit_double r -> 0 <= r /\ r <= 1 - pow2 (-53).
Proof.
  intros (m & e & Hr & Hm & He). rewrite Hr.
  pose proof (pow2_pos e) as Hp. pose proof (pow2_le e (-53) ltac:(lia)) as Hle.
  assert (Hm0 : 0 <= inject_Z m) by (change 0 with (inject_Z 0); rewrite <- Zle_Qle; lia).
  assert (Hm1 : inject_Z m + 1 <= inject_Z (2 ^ 53)).
  { change 1 with (inject_Z 1). rewrite <- inject_Z_plus, <- Zle_Qle. lia. }
  assert (H1 : inject_Z (2 ^ 53) * pow2 (-53) == 1).
  { rewrite <- (pow2_inject 53) by lia. rewrite <- pow2_add. reflexivity. }
  split; [nra |].
  apply Qle_trans with (inject_Z m * pow2 (-53)); [apply Qmult_le_compat_nonneg; lra |].
  pose proof (pow2_pos (-53)) as H53. nra.
Qed.


Lemma inject_Z_nonneg z : (0 <= z)%Z -> 0 <= inject_Z z.
Proof. intros H. change 0 with (inject_Z 0). rewrite <- Zle_Qle. exact H. Qed.

Lemma Qfloor_between y z : inject_Z z <= y -> y < inject_Z (z + 1) -> Qfloor y = z.
Proof.
  intros Hl Hu.
  assert (H1 : (z <= Qfloor y)%Z).
  { rewrite <- (Qfloor_Z z). apply Qfloor_resp_le. exact Hl. }
  assert (H2 : (Qfloor y < z + 1)%Z).
  { rewrite Zlt_Qlt. eapply Qle_lt_trans; [apply Qfloor_le | exact Hu]. }
  lia.
Qed.

Lemma mul_nonneg a b : 0 <= a -> 0 <= b -> 0 <= mul a b.
Proof.
  intros Ha Hb. unfold mul.
  assert (Hab : 0 <= a * b) by (apply Qmult_le_0_compat; assumption).
  apply (round_integer_bound (a * b) 0 Hab); [lia | exact Hab].
Qed.

Lemma mul_integer_bound a z c :
  (0 <= z)%Z -> (0 <= c)%Z -> (z * c <= 2 ^ 53)%Z ->
  0 <= a -> a <= inject_Z z -> mul a (inject_Z c) <= inject_Z (z * c).
Proof.
  intros Hz Hc Hzc Ha Haz. unfold mul.
  pose proof (inject_Z_nonneg c Hc) as Hc'.
  assert (Hab : 0 <= a * inject_Z c) by (apply Qmult_le_0_compat; assumption).
  apply (round_integer_bound (a * inject_Z c) (z * c) Hab); [lia |].
  rewrite inject_Z_mult. apply Qmult_le_compat_r; assumption.
Qed.


Lemma unit_double_zero : unit_double 0.
Proof. exists 0%Z, (-53)%Z. split; [reflexivity | lia]. Qed.

(** An index computed from a value of [Math.random()] is inside the array. *)
Lemma random_floor_range (r : Q) (k : Z) :
  unit_double r -> (1 <= k <= 2 ^ 53)%Z -> (0 <= random_floor r k < k)%Z.
Proof.
  intros Hr Hk. apply unit_double_range in Hr. destruct Hr as [H0 H1].
  unfold random_floor, mul.
  pose proof (inject_Z_nonneg k ltac:(lia)) as Hk0.
  assert (Hx : 0 <= r * inject_Z k) by (apply Qmult_le_0_compat; assumption).
  split.
  - rewrite <- (Qfloor_Z 0). apply Qfloor_resp_le.
    apply (round_integer_bound (r * inject_Z k) 0 Hx); [lia | exact Hx].
  - rewrite Zlt_Qlt. eapply Qle_lt_trans; [apply Qfloor_le |].
    apply round_below_integer; [lia | exact Hx |].
    rewrite (Qmult_comm r). apply Qmult_le_l; [| exact H1].
    apply Qlt_le_trans with (inject_Z 1); [reflexivity | rewrite <- Zle_Qle; lia].
Qed.

Lemma random_for_unit j k :
  (0 <= j < k)%Z -> (k <= 2 ^ 53)%Z -> unit_double (random_for j k).
Proof.
  intros Hj Hk. exists ((j * 2 ^ 53 + k - 1) / k)%Z, (-53)%Z.
  split; [reflexivity |]. split; [| lia]. split.
  - apply Z.div_pos; lia.
  - apply Z.div_lt_upper_bound; nia.
Qed.

(** Every index of an array is computed from some value. *)
Lemma random_for_floor j k :
  (0 <= j < k)%Z -> (k <= 2 ^ 52)%Z -> random_floor (random_for j k) k = j.
Proof.
  intros Hj Hk. unfold random_floor, mul, random_for.
  set (m := ((j * 2 ^ 53 + k - 1) / k)%Z).
  assert (Hm1 : (j * 2 ^ 53 <= m * k)%Z).
  { pose proof (Z.mul_succ_div_gt (j * 2 ^ 53 + k - 1) k ltac:(lia)) as H.
    fold m in H. nia. }
  assert (Hm2 : (m * k <= j * 2 ^ 53 + k - 1)%Z).
  { pose proof (Z.mul_div_le (j * 2 ^ 53 + k - 1) k ltac:(lia)) as H.
    fold m in H. nia. }
  pose proof (pow2_pos (-53)) as H53.
  assert (H1 : inject_Z (2 ^ 53) * pow2 (-53) == 1).
  { rewrite <- (pow2_inject 53) by lia. rewrite <- pow2_add. reflexivity. }
  assert (Hx : inject_Z m * pow2 (-53) * inject_Z k == inject_Z (m * k) * pow2 (-53))
    by (rewrite inject_Z_mult; ring).
  assert (Hlow : inject_Z j <= inject_Z m * pow2 (-53) * inject_Z k).
  { rewrite Hx.
    setoid_replace (inject_Z j) with (inject_Z (j * 2 ^ 53) * pow2 (-53))
      by (rewrite inject_Z_mult, <- Qmult_assoc, H1; ring).
    apply Qmult_le_compat_r; [rewrite <- Zle_Qle; exact Hm1 | lra]. }
  assert (Hj0 : 0 <= inject_Z j) by (apply inject_Z_nonneg; lia).
  assert (Hpos : 0 <= inject_Z m * pow2 (-53) * inject_Z k) by lra.
  apply Qfloor_between.
  - apply (round_integer_bound _ j Hpos); [lia | exact Hlow].
  - apply round_below_integer; [lia | exact Hpos |].
    rewrite Hx.
    apply Qle_trans with (inject_Z (j * 2 ^ 53 + k - 1) * pow2 (-53)).
    { apply Qmult_le_compat_r; [rewrite <- Zle_Qle; exact Hm2 | lra]. }
    setoid_replace (inject_Z (j + 1) * (1 - pow2 (-53)))
      with (inject_Z ((j + 1) * 2 ^ 53 - (j + 1)) * pow2 (-53)).
    { apply Qmult_le_compat_r; [rewrite <- Zle_Qle; lia | lra]. }
    assert (He : inject_Z ((j + 1) * 2 ^ 53 - (j + 1))
                 == inject_Z (j + 1) * inject_Z (2 ^ 53) - inject_Z (j + 1)).
    { unfold Z.sub. rewrite inject_Z_plus, inject_Z_opp, inject_Z_mult. reflexivity. }
    rewrite He.
    setoid_replace ((inject_Z (j + 1) * inject_Z (2 ^ 53) - inject_Z (j + 1)) * pow2 (-53))
      with (inject_Z (j + 1) * (inject_Z (2 ^ 53) * pow2 (-53)) - inject_Z (j + 1) * pow2 (-53))
      by ring.
    rewrite H1. ring.
Qed.


(** The offset of at most a day and its sum with the clock stay between
    the integers that bound them exactly. *)
Lemma sendDate_range now r :
  (0 <= now <= 8640000000000000 - day_ms)%Z -> unit_double r ->
  (now
   <= trunc (add (inject_Z now) (mul (mul (mul (mul r 24) 60) 60) 1000))
   <= now + day_ms)%Z.
Proof.
  intros Hnow Hr. apply unit_double_range in Hr. destruct Hr as [H0 H1].
  pose proof (pow2_pos (-53)) as H53.
  assert (Hr1 : r <= inject_Z 1) by (change (inject_Z 1) with 1; lra).
  set (a1 := mul r 24). set (a2 := mul a1 60). set (a3 := mul a2 60).
  set (a4 := mul a3 1000).
  assert (P1 : 0 <= a1) by (apply mul_nonneg; [exact H0 | discriminate]).
  assert (P2 : 0 <= a2) by (apply mul_nonneg; [exact P1 | discriminate]).
  assert (P3 : 0 <= a3) by (apply mul_nonneg; [exact P2 | discriminate]).
  assert (P4 : 0 <= a4) by (apply mul_nonneg; [exact P3 | discriminate]).
  assert (B1 : a1 <= inject_Z 24).
  { apply (mul_integer_bound r 1 24); [lia | lia | lia | exact H0 | exact Hr1]. }
  assert (B2 : a2 <= inject_Z 1440).
  { apply (mul_integer_bound a1 24 60); [lia | lia | lia | exact P1 | exact B1]. }
  assert (B3 : a3 <= inject_Z 86400).
  { apply (mul_integer_bound a2 1440 60); [lia | lia | lia | exact P2 | exact B2]. }
  assert (B4 : a4 <= inject_Z day_ms).
  { apply (mul_integer_bound a3 86400 1000); [lia | lia | lia | exact P3 | exact B3]. }
  pose proof (inject_Z_nonneg now ltac:(lia)) as Hn0.
  assert (Hs : 0 <= inject_Z now + a4) by lra.
  unfold day_ms in Hnow. change (24 * 60 * 60 * 1000)%Z with 86400000%Z in Hnow.
  destruct (round_integer_bound (inject_Z now + a4) now Hs ltac:(lia)) as [_ Hlow].
  destruct (round_integer_bound (inject_Z now + a4) (now + day_ms) Hs) as [Hup _].
  { unfold day_ms. lia. }
  specialize (Hlow ltac:(lra)).
  specialize (Hup ltac:(rewrite inject_Z_plus; lra)).
  fold (add (inject_Z now) a4) in Hlow, Hup.
  unfold trunc.
  assert (Hpos : Qle_bool 0 (add (inject_Z now) a4) = true).
  { apply Qle_bool_iff. lra. }
  rewrite Hpos. split.
  - apply Z.le_trans with (Qfloor (inject_Z now)).
    + rewrite Qfloor_Z. apply Z.le_refl.
    + apply Qfloor_resp_le. exact Hlow.
  - apply Z.le_trans with (Qfloor (inject_Z (now + day_ms))).
    + apply Qfloor_resp_le. exact Hup.
    + rewrite Qfloor_Z. apply Z.le_refl.
Qed.

End Doubles.

Lemma set_nth_length {A} i (x : A) l : List.length (set_nth i x l) = List.length l.
Proof.
  revert i. induction l as [| a l IH]; intros [| i]; cbn; auto.
Qed.

Lemma swap_length {A} (l : list A) i j : List.length (swap l i j) = List.length l.
Proof.
  unfold swap. destruct (nth_error l i), (nth_error l j); auto.
  rewrite !set_nth_length. reflexivity.
Qed.

Lemma set_nth_perm {A} (l : list A) i x y :
  nth_error l i = Some x -> Permutation (y :: l) (x :: set_nth i y l).
Proof.
  revert i. induction l as [| a l IH]; intros [| i]; cbn; try discriminate.
  - intros H; inversion H; subst. apply perm_swap.
  - intros H. apply IH in H.
    eapply perm_trans; [apply perm_swap |].
    eapply perm_trans; [apply perm_skip, H |]. apply perm_swap.
Qed.

Lemma nth_error_set_nth_kept {A} (l : list A) i j x y :
  nth_error l i = Some x -> nth_error l j = Some y ->
  nth_error (set_nth i y l) j = Some y.
Proof.
  revert i j. induction l as [| a l IH]; intros [| i] [| j]; cbn; try discriminate; auto.
Qed.

Lemma swap_perm {A} (l : list A) i j : Permutation (swap l i j) l.
Proof.
  unfold swap.
  destruct (nth_error l i) as [x |] eqn:Hi; [| reflexivity].
  destruct (nth_error l j) as [y |] eqn:Hj; [| reflexivity].
  pose proof (set_nth_perm l i x y Hi) as H1.
  pose proof (nth_error_set_nth_kept l i j x y Hi Hj) as Hj'.
  pose proof (set_nth_perm (set_nth i y l) j y x Hj') as H2.
  symmetry. apply (Permutation_cons_inv (a := y)).
  eapply perm_trans; [exact H1 | exact H2].
Qed.

Lemma shuffle_from_perm {A} random i (l : list A) k :
  Permutation (fst (shuffle_from random i l k)) l.
Proof.
  revert l k. induction i as [| i IH]; intros l k; cbn [shuffle_from fst].
  - reflexivity.
  - eapply perm_trans; [apply IH | apply swap_perm].
Qed.

Lemma shuffleArray_perm {A} random (l : list A) k :
  Permutation (fst (shuffleArray random l k)) l.
Proof. apply shuffle_from_perm. Qed.

Lemma pair_up_length {A} (l : list A) :
  List.length (pair_up l) = Nat.div2 (List.length l).
Proof.
  assert (H : forall n (l : list A), (List.length l <= n)%nat ->
                List.length (pair_up l) = Nat.div2 (List.length l)).
  { induction n as [| n IH]; intros [| a [| b r]] Hl; cbn in *; try reflexivity; try lia.
    f_equal. apply IH. lia. }
  apply (H (List.length l)). lia.
Qed.

(** The pairs and the element left over make up the list. *)
Lemma pair_up_cover {A} (l : list A) :
  exists rest,
    List.length rest = (List.length l mod 2)%nat
    /\ l = flat_map (fun p => [fst p; snd p]) (pair_up l) ++ rest.
Proof.
  assert (H : forall n (l : list A), (List.length l <= n)%nat ->
                exists rest, List.length rest = (List.length l mod 2)%nat
                  /\ l = flat_map (fun p => [fst p; snd p]) (pair_up l) ++ rest).
  { induction n as [| n IH]; intros [| a [| b r]] Hl; cbn [List.length] in Hl; try lia.
    - exists []. split; reflexivity.
    - exists []. split; reflexivity.
    - exists [a]. split; reflexivity.
    - destruct (IH r) as (rest & Hlen & Heq); [lia |].
      exists rest. split.
      + rewrite Hlen. cbn [List.length].
        replace (S (S (List.length r))) with (List.length r + 1 * 2)%nat by lia.
        rewrite Nat.Div0.mod_add. reflexivity.
      + cbn. f_equal. f_equal. exact Heq. }
  apply (H (List.length l)). lia.
Qed.

(** *** Every order is one the shuffle produces *)

Lemma nth_error_middle {A} (a : list A) x r :
  nth_error (a ++ x :: r) (List.length a) = Some x.
Proof. induction a as [| h a IH]; cbn; [reflexivity | exact IH]. Qed.

Lemma set_nth_middle {A} (a : list A) x z r :
  set_nth (List.length a) z (a ++ x :: r) = a ++ z :: r.
Proof. induction a as [| h a IH]; cbn; [reflexivity | f_equal; exact IH]. Qed.

(** Swapping the last element of the part still to be shuffled with an
    element before it. *)
Lemma swap_middle_last {A} (a b suf : list A) x y :
  swap (a ++ x :: b ++ y :: suf) (List.length (a ++ x :: b)) (List.length a)
  = a ++ y :: b ++ x :: suf.
Proof.
  assert (Hl : a ++ x :: b ++ y :: suf = (a ++ x :: b) ++ y :: suf)
    by (rewrite <- app_assoc; reflexivity).
  unfold swap. rewrite nth_error_middle.
  rewrite Hl at 1. rewrite nth_error_middle.
  rewrite Hl, set_nth_middle, <- app_assoc. cbn [app]. apply set_nth_middle.
Qed.

Lemma swap_last_itself {A} (a suf : list A) y :
  swap (a ++ y :: suf) (List.length a) (List.length a) = a ++ y :: suf.
Proof.
  unfold swap. rewrite nth_error_middle, !set_nth_middle. reflexivity.
Qed.

(** The loop reads the oracle from its counter on. *)
Lemma shuffle_from_ext {A} random random' i (l : list A) k :
  (forall n, (k <= n)%nat -> random n = random' n) ->
  shuffle_from random i l k = shuffle_from random' i l k.
Proof.
  revert l k. induction i as [| i IH]; intros l k H; cbn [shuffle_from].
  - reflexivity.
  - rewrite (H k) by lia. apply IH. intros n Hn. apply H. lia.
Qed.

Definition doubles (random : nat -> Q) : Prop :=
  forall k, Double.unit_double (random k).

(** Fisher and Yates: the element meant for the last place is swapped
    there, and the places before it are filled in the same way. *)
Lemma shuffle_from_reaches {A} i :
  forall (pre suf target : list A) k,
    List.length pre = S i -> Z.of_nat (S i) <= 2 ^ 52 ->
    Permutation target pre ->
    exists random,
      doubles random
      /\ fst (shuffle_from random i (pre ++ suf) k) = target ++ suf.
Proof.
  induction i as [| i IH]; intros pre suf target k Hlen Hbound Hperm.
  - destruct pre as [| y [| ? ?]]; try discriminate.
    apply Permutation_sym, Permutation_length_1_inv in Hperm. subst target.
    exists (fun _ => 0%Q). split; [intros n; apply unit_double_zero | reflexivity].
  - destruct (exists_last (l := pre)) as (pre0 & y & Hpre);
      [intros ->; discriminate |].
    destruct (exists_last (l := target)) as (target0 & x & Htarget).
    { intros ->. apply Permutation_nil in Hperm. subst pre. discriminate. }
    subst pre target. rewrite length_app in Hlen. cbn [List.length] in Hlen.
    assert (Hlen0 : List.length pre0 = S i) by lia.
    assert (Hx : In x (pre0 ++ [y])).
    { apply (Permutation_in _ Hperm). apply in_or_app. right. left. reflexivity. }
    assert (Hstep : exists j pre',
               (j <= S i)%nat
               /\ swap ((pre0 ++ [y]) ++ suf) (S i) j = pre' ++ x :: suf
               /\ List.length pre' = S i
               /\ Permutation target0 pre').
    { apply in_app_or in Hx. destruct Hx as [Hx | [<- | []]].
      - apply in_split in Hx. destruct Hx as (a & b & ->).
        exists (List.length a), (a ++ y :: b).
        rewrite length_app in Hlen0. cbn [List.length] in Hlen0.
        split; [lia |]. split; [| split].
        + rewrite <- Hlen0.
          replace (List.length a + S (List.length b))%nat
            with (List.length (a ++ x :: b))
            by (rewrite length_app; reflexivity).
          rewrite <- !app_assoc. cbn [app]. apply swap_middle_last.
        + rewrite length_app. cbn [List.length]. lia.
        + apply (Permutation_cons_inv (a := x)).
          eapply perm_trans; [apply Permutation_cons_append |].
          eapply perm_trans; [exact Hperm |].
          rewrite <- app_assoc. cbn [app].
          eapply perm_trans; [apply Permutation_sym, Permutation_middle |].
          apply perm_skip, Permutation_app_head.
          apply Permutation_sym, Permutation_cons_append.
      - exists (S i), pre0. split; [lia |]. split; [| split].
        + rewrite <- Hlen0, <- app_assoc. cbn [app]. apply swap_last_itself.
        + exact Hlen0.
        + eapply Permutation_app_inv_r. exact Hperm. }
    destruct Hstep as (j & pre' & Hj & Hswap & Hlen' & Hperm').
    destruct (IH pre' (x :: suf) target0 (S k) Hlen' ltac:(lia) Hperm')
      as (random' & Hdoubles & Hrest).
    set (r := random_for (Z.of_nat j) (Z.of_nat (S i) + 1)).
    exists (fun n => if Nat.eqb n k then r else random' n). split.
    + intros n. destruct (Nat.eqb n k); [| apply Hdoubles].
      apply random_for_unit; lia.
    + cbn [shuffle_from]. rewrite Nat.eqb_refl.
      unfold r. rewrite random_for_floor by lia. rewrite Nat2Z.id, Hswap.
      rewrite (shuffle_from_ext _ random').
      * rewrite Hrest, <- app_assoc. reflexivity.
      * intros n Hn. destruct (Nat.eqb_spec n k); [lia | reflexivity].
Qed.

Lemma shuffleArray_reaches {A} (array target : list A) k :
  Z.of_nat (List.length array) <= 2 ^ 52 ->
  Permutation target array ->
  exists random, doubles random /\ fst (shuffleArray random array k) = target.
Proof.
  intros Hbound Hperm. unfold shuffleArray.
  destruct array as [| a array].
  - apply Permutation_sym, Permutation_nil in Hperm. subst target.
    exists (fun _ => 0%Q). split; [intros n; apply unit_double_zero | reflexivity].
  - replace (List.length (a :: array) - 1)%nat with (List.length array)
      by (cbn [List.length]; lia).
    destruct (shuffle_from_reaches (List.length array) (a :: array) [] target k
                eq_refl Hbound Hperm) as (random & Hd & Hs).
    exists random. split; [exact Hd |]. rewrite !app_nil_r in Hs. exact Hs.
Qed.

(** What the planner promises of an AutoMessage it creates. *)
Definition well_planned (env : PlanEnv) (a : AutoMessage) : Prop :=
  In (a_content a) messageTemplates
  /\ p_now env <= a_sendDate a <= p_now env + day_ms
  /\ a_isQueued a = false /\ a_isSent a = false.

Definition fair (random : nat -> Q) : Prop :=
  forall k, (0 <= random k)%Q /\ (random k < 1)%Q.

(** The planner run with another sequence of values of [Math.random()]. *)
Definition with_random (env : PlanEnv) (random : nat -> Q) : PlanEnv :=
  {| p_now := p_now env; p_random := random; p_new_id := p_new_id env |}.

Lemma plan_pairs_ids env pairs k n :
  List.length (plan_pairs env pairs k n) = List.length pairs
  /\ flat_map (fun a => [a_sender a; a_recipient a]) (plan_pairs env pairs k n)
     = map u_id (flat_map (fun p => [fst p; snd p]) pairs).
Proof.
  revert k n.
  induction pairs as [| [s r] pairs IH]; intros k n; cbn [plan_pairs].
  - split; reflexivity.
  - destruct (IH (S (S k)) (S n)) as (Hlen & Hids). split.
    + cbn [List.length]. f_equal. exact Hlen.
    + cbn. f_equal. f_equal. exact Hids.
Qed.

Lemma plan_pairs_well_planned env pairs k n :
  doubles (p_random env) ->
  0 <= p_now env <= 8640000000000000 - day_ms ->
  Forall (well_planned env) (plan_pairs env pairs k n).
Proof.
  intros Hd Hnow. revert k n.
  induction pairs as [| [s r] pairs IH]; intros k n; cbn [plan_pairs].
  - constructor.
  - constructor; [| apply IH]. unfold well_planned.
    cbn [a_content a_sendDate a_isQueued a_isSent].
    split; [| split; [| split; reflexivity]].
    + pose proof (random_floor_range (p_random env k) 10 (Hd k) ltac:(lia)) as Hr.
      change (Z.of_nat (List.length messageTemplates)) with 10.
      apply nth_In. change (List.length messageTemplates) with 10%nat. lia.
    + apply sendDate_range; [exact Hnow | apply Hd].
Qed.

(** C8: over [n] active users the planner creates no AutoMessage when
    [n < 2] and otherwise shuffles the users, pairs neighbours and creates
    one AutoMessage per pair, [n / 2] in all: the users of the pairs together
    with the one left over when [n] is odd are the active users, each once;
    every AutoMessage has a template as content, both flags false and a send
    date from now to 24 hours from now, both ends included: the date is the
    double sum [Date.now() + Math.random() * 24 * 60 * 60 * 1000] without its
    fraction, which rounding can bring to exactly 24 hours. Three users give
    one AutoMessage and one user gives none. The shuffle is one: whatever
    order of the active users is taken, there are values of [Math.random()]
    with which the planner pairs the users in that order, the first with the
    second, the third with the fourth and so on, leaving out the last of an
    odd number. Here [Math.random()] returns doubles of [0, 1), the clock is
    a time value from 1970 on for which a day later is still a Date, and an
    array has fewer than 2^32 elements. *)
Theorem planner_pairs_active_users env st :
  doubles (p_random env) ->
  0 <= p_now env <= 8640000000000000 - day_ms ->
  let active := filter u_isActive (users st) in
  let n := List.length active in
  autoMessages (planAutomaticMessages env st) = autoMessages st ++ planned env st
  /\ ((n < 2)%nat -> planned env st = [])
  /\ List.length (planned env st) = (n / 2)%nat
  /\ Forall (well_planned env) (planned env st)
  /\ ((2 <= n)%nat ->
      exists rest,
        List.length rest = (n mod 2)%nat
        /\ Permutation
             (flat_map (fun a => [a_sender a; a_recipient a]) (planned env st) ++ rest)
             (map u_id active))
  /\ (n = 3%nat -> List.length (planned env st) = 1%nat)
  /\ (n = 1%nat -> List.length (planned env st) = 0%nat)
  /\ (forall target,
        Permutation target active -> (2 <= n)%nat -> Z.of_nat n < 2 ^ 32 ->
        exists random rest,
          doubles random
          /\ List.length rest = (n mod 2)%nat
          /\ flat_map (fun a => [a_sender a; a_recipient a])
               (planned (with_random env random) st) ++ rest
             = map u_id target).
Proof.
  intros Hd Hnow active n.
  assert (Hsmall : (n < 2)%nat -> planned env st = []).
  { intros Hn. unfold planned. fold active. fold n.
    apply Nat.ltb_lt in Hn. rewrite Hn. reflexivity. }
  assert (Hlen : List.length (planned env st) = (n / 2)%nat).
  { destruct (Nat.ltb n 2) eqn:Hn.
    - apply Nat.ltb_lt in Hn. rewrite (Hsmall Hn). cbn [List.length].
      symmetry. apply Nat.div_small. exact Hn.
    - unfold planned. fold active. fold n. rewrite Hn.
      destruct (shuffleArray (p_random env) active 0) as [shuffled k] eqn:Hsh.
      destruct (plan_pairs_ids env (pair_up shuffled) k 0) as (-> & _).
      rewrite pair_up_length, Nat.div2_div.
      pose proof (shuffleArray_perm (p_random env) active 0) as Hp.
      rewrite Hsh in Hp. cbn in Hp. rewrite (Permutation_length Hp). reflexivity. }
  split; [reflexivity |]. split; [exact Hsmall |]. split; [exact Hlen |].
  split; [| split; [| split; [| split]]].
  - unfold planned. fold active. fold n.
    destruct (Nat.ltb n 2); [constructor |].
    destruct (shuffleArray (p_random env) active 0) as [shuffled k].
    apply plan_pairs_well_planned; assumption.
  - intros Hn. unfold planned. fold active. fold n.
    apply Nat.ltb_ge in Hn. rewrite Hn.
    destruct (shuffleArray (p_random env) active 0) as [shuffled k] eqn:Hsh.
    destruct (plan_pairs_ids env (pair_up shuffled) k 0) as (_ & ->).
    pose proof (shuffleArray_perm (p_random env) active 0) as Hp.
    rewrite Hsh in Hp. cbn in Hp.
    destruct (pair_up_cover shuffled) as (rest & Hrest & Hcover).
    exists (map u_id rest). split.
    + rewrite length_map, Hrest, (Permutation_length Hp). reflexivity.
    + rewrite <- map_app, <- Hcover. apply Permutation_map. exact Hp.
  - intros H3. rewrite Hlen, H3. reflexivity.
  - intros H1. rewrite Hlen, H1. reflexivity.
  - intros target Hperm Hn Hsize.
    destruct (shuffleArray_reaches active target 0 ltac:(fold n; lia) Hperm)
      as (random & Hdoubles & Hshuffle).
    destruct (pair_up_cover target) as (rest & Hrest & Hcover).
    exists random, (map u_id rest). split; [exact Hdoubles |]. split.
    + rewrite length_map, Hrest, (Permutation_length Hperm). reflexivity.
    + unfold planned, with_random. cbn [p_random]. fold active. fold n.
      apply Nat.ltb_ge in Hn. rewrite Hn.
      destruct (shuffleArray random active 0) as [shuffled k] eqn:Hsh.
      cbn [fst] in Hshuffle. subst shuffled.
      match goal with
      | |- context [plan_pairs ?e ?p ?k ?n] =>
          destruct (plan_pairs_ids e p k n) as (_ & ->)
      end.
      rewrite <- map_app, <- Hcover. reflexivity.
Qed.

(** ** The consumer's acknowledgements (C7) *)

(** Whatever happens inside processAutoMessage, the work item is
    acknowledged: only a content that [JSON.parse] refuses is rejected. *)
Lemma consumer_nacks_only_unparsable env msg st :
  snd (startConsumer cast env msg st) = NackNoRequeue <-> msg = NotJson.
Proof.
  unfold startConsumer. destruct msg; cbn [snd].
  - split; reflexivity.
  - destruct (processAutoMessage cast env JsonNull st). cbn. split; discriminate.
  - destruct (processAutoMessage cast env (JsonValue autoMessageId) st). cbn.
    split; discriminate.
Qed.

(** The idempotent skip: a work item whose AutoMessage is missing or already
    sent is acknowledged, and nothing is written or emitted. *)
Lemma consumer_skips env i o st :
  cast i = Some o ->
  match find (fun a => a_id a =? o) (autoMessages st) with
  | Some a => a_isSent a = true
  | None => True
  end ->
  startConsumer cast env (JsonValue (Some i)) st = (st, [], Ack).
Proof.
  intros Hc Hs.
  unfold startConsumer, processAutoMessage, processAutoMessage_body, bind, ret,
    AutoMessage_findById, read.
  rewrite Hc. destruct (find _ (autoMessages st)) as [a |]; [| reflexivity].
  rewrite Hs. reflexivity.
Qed.

(** ** The deferred promotion (C2) *)

(** The promotion writes [delivered] over whatever status the message has
    by then. *)
Lemma deliver_overwrites st env t m :
  find_message st (t_saved t) = Some m ->
  exists m',
    find_message (fst (deliver cast st env t)) (t_saved t) = Some m'
    /\ m_deliveryStatus m' = Delivered.
Proof.
  intros Hf. unfold deliver. rewrite Hf.
  exists (set_delivery Delivered (Some (now env)) m). split; [| reflexivity].
  destruct (cast (t_conversationId t)); cbn [fst];
    apply find_update_message; auto.
Qed.

(** The lifecycle of the specification, and the test that the statuses a
    message takes, in order, are a subsequence of it. *)
Definition lifecycle : list DeliveryStatus := [Sent; Delivered; Read].

Fixpoint subsequence (l whole : list DeliveryStatus) : bool :=
  match whole with
  | [] => match l with [] => true | _ :: _ => false end
  | b :: whole' =>
      match l with
      | [] => true
      | a :: l' =>
          if DeliveryStatus_eqb a b then subsequence l' whole' else subsequence l whole'
      end
  end.

(** The status of the message [o] after each of the stores. *)
Definition status_trace (o : oid) (stores : list Store) : list DeliveryStatus :=
  flat_map (fun st => match find_message st o with
                      | Some m => [m_deliveryStatus m]
                      | None => []
                      end) stores.

End Properties.

(** * The sample deployment: scenarios of the specification *)

Local Open Scope list_scope.

(** ** A send, the early read and the promotion (C2) *)

(** The first send of the sample schedules [timer1]. *)
Example send_schedules_timer :
  snd (send_message Sample.cast Sample.store0 Sample.alice
         (Sample.env_at 1000 Sample.msg1 "uuid-1") (Sample.text (Some "m1") "hi"))
  = Some Sample.timer1.
Proof. reflexivity. Qed.

(** C2 fails on the code: alice sends "hi"; bob marks it as read 50 ms
    later, before the promotion that the send scheduled for 100 ms; the
    promotion then writes delivered over read. The message takes the
    statuses sent, read, delivered, which is no subsequence of the
    lifecycle, while its [readBy] still holds bob's receipt. *)
Theorem promotion_regresses_read_status :
  let st1 := Sample.store1 in
  let st2 := fst (mark_messages_read Sample.cast st1 Sample.bob
                    (Sample.env_at 1050 Sample.msg2 "uuid-2") Sample.read1) in
  let st3 := fst (deliver Sample.cast st2 (Sample.env_at 1100 Sample.msg2 "uuid-2")
                    Sample.timer1) in
  status_trace Sample.msg1 [st1; st2; st3] = [Sent; Read; Delivered]
  /\ subsequence (status_trace Sample.msg1 [st1; st2; st3]) lifecycle = false
  /\ map (fun m => map rb_user (m_readBy m)) (messages st3) = [[Sample.bob]].
Proof. vm_compute. repeat split. Qed.

(** With the promotion before the read, the order is the lifecycle's. *)
Example promotion_then_read :
  let st1 := Sample.store1 in
  let st2 := fst (deliver Sample.cast st1 (Sample.env_at 1100 Sample.msg2 "uuid-2")
                    Sample.timer1) in
  let st3 := fst (mark_messages_read Sample.cast st2 Sample.bob
                    (Sample.env_at 1200 Sample.msg2 "uuid-2") Sample.read1) in
  status_trace Sample.msg1 [st1; st2; st3] = lifecycle.
Proof. vm_compute. reflexivity. Qed.

(** ** The consumer (C7) *)

(** An unsent AutoMessage between two users: one conversation found, one
    Message created, the AutoMessage marked as sent, the recipient notified,
    the work item acknowledged. *)
Example consumer_delivers :
  let '(st, events, ack) :=
    startConsumer Sample.cast Sample.queue_env (JsonValue (Some Sample.auto1))
                  Sample.store_queue in
  map m_content (messages st) = ["Selam! Keyifler nasıl?"]
  /\ map c_lastMessage (conversations st) = [Some Sample.msg2]
  /\ map c_lastActivity (conversations st) = [2000]
  /\ map (fun a => (a_isSent a, a_sentAt a, a_conversation a)) (autoMessages st)
     = [(true, Some 2000, Some Sample.room1); (false, None, None)]
  /\ map fst events = [ToRoom (user_room Sample.bob)]
  /\ ack = Ack.
Proof. vm_compute. repeat split. Qed.

(** C7 fails on the code in its last part: the work item for an AutoMessage
    whose sender has no user document makes processAutoMessage throw a
    TypeError; its own [catch] swallows the error, so the consumer
    acknowledges the work item instead of rejecting it without requeue. The
    same happens to a work item whose content is the JSON value null. *)
Theorem consumer_acks_failed_processing :
  processAutoMessage_body Sample.cast Sample.queue_env (JsonValue (Some Sample.auto2))
                          Sample.store_queue
  = (Sample.store_queue, inl TypeError)
  /\ startConsumer Sample.cast Sample.queue_env (JsonValue (Some Sample.auto2))
                   Sample.store_queue
     = (Sample.store_queue, [], Ack)
  /\ startConsumer Sample.cast Sample.queue_env JsonNull Sample.store_queue
     = (Sample.store_queue, [], Ack).
Proof. vm_compute. repeat split. Qed.

(** ** An oversized image (C5) *)






Definition room1_doc : Conversation :=
  {| c_id := Sample.room1; c_participants := [Sample.alice; Sample.bob];
     c_type := "private"; c_lastMessage := None; c_lastActivity := 0;
     c_isActive := true |}.



(** ** An outsider (C4) *)

Definition read_by_carol : ReadData :=
  {| r_messageIds := Some [Sample.msg1]; r_conversationId := Sample.room1;
     r_sessionId := Some "sess-3" |}.

(** C4 fails as stated for mark_messages_read: carol, who is no participant
    of the conversation, asks to mark its message as read; nothing is
    changed, and no error event is sent to her either. And when her
    send_message carries no session id, the rejection reads "Session ID
    required". *)
Lemma unauthorized_read_gets_no_error :
  (forall c, In c (conversations Sample.store1) -> c_id c = Sample.room1 ->
             is_participant Sample.carol c = false)
  /\ fst (mark_messages_read Sample.cast Sample.store1 Sample.carol
            (Sample.env_at 1050 Sample.msg2 "uuid-2") read_by_carol) = Sample.store1
  /\ ~ receives_error
         (snd (mark_messages_read Sample.cast Sample.store1 Sample.carol
                 (Sample.env_at 1050 Sample.msg2 "uuid-2") read_by_carol))
  /\ send_message Sample.cast Sample.store1 Sample.carol
       (Sample.env_at 1050 Sample.msg2 "uuid-2")
       {| s_conversationId := Sample.room1; s_content := Some "let me in";
          s_type := Js.Undefined; s_messageId := Some "m9"; s_sessionId := None;
          s_fileData := None |}
     = (Sample.store1, [(ToSocket, EvError "Session ID required" None)], None).
Proof.
  split; [| split; [| split]].
  - intros c [<- | []] _. reflexivity.
  - reflexivity.
  - intros (message & details & H). exact H.
  - reflexivity.
Qed.

Lemma unauthorized_participant_rejected_witness :
  (forall c, In c (conversations Sample.store1) -> c_id c = Sample.room1 ->
             is_participant Sample.carol c = false)
  /\ send_message Sample.cast Sample.store1 Sample.carol
       (Sample.env_at 1050 Sample.msg2 "uuid-2") (Sample.text (Some "m9") "let me in")
     = (Sample.store1, [(ToSocket, EvError "Conversation not found" None)], None)
  /\ mark_messages_read Sample.cast Sample.store1 Sample.carol
       (Sample.env_at 1050 Sample.msg2 "uuid-2") read_by_carol
     = (Sample.store1, []).
Proof.
  assert (Hn : forall c, In c (conversations Sample.store1) -> c_id c = Sample.room1 ->
                         is_participant Sample.carol c = false).
  { intros c [<- | []] _. reflexivity. }
  destruct (unauthorized_participant_rejected Sample.cast Sample.store1 Sample.carol
              (Sample.env_at 1050 Sample.msg2 "uuid-2") Sample.room1 Hn) as [Hsend Hread].
  split; [exact Hn |]. split.
  - exact (Hsend (Sample.text (Some "m9") "let me in") eq_refl).
  - exact (Hread read_by_carol eq_refl).
Defined.

(** ** Read receipts of overlapping calls (C3) *)



(** Two duplicate calls by bob over two messages, their single-document
    writes interleaved: each message ends with one entry of bob. *)
Example duplicate_calls_interleaved :
  let st2 := fst (fst (send_message Sample.cast Sample.store1 Sample.alice
                         (Sample.env_at 1010 Sample.msg2 "uuid-2")
                         (Sample.text (Some "m2") "yo"))) in
  let ids := [Sample.msg1; Sample.msg2] in
  let first i := OpReadOne i ids Sample.room1 Sample.bob 1050 "sess-2" in
  let second i := OpReadOne i ids Sample.room1 Sample.bob 1051 "sess-2" in
  map (fun m => map rb_readAt (m_readBy m))
      (messages (run Sample.cast [first 0%nat; second 0%nat; second 1%nat; first 1%nat] st2))
  = [[1050]; [1051]].
Proof. vm_compute. reflexivity. Qed.

(** ** Delete for everyone, 59 and 61 minutes after the send (C6) *)

Definition saved1 : Message :=
  messageData Sample.alice (Sample.env_at 1000 Sample.msg1 "uuid-1")
              (Sample.text (Some "m1") "hi") room1_doc "hi" "text" None.

Definition room1_bumped : Conversation := bump Sample.msg1 1000 room1_doc.

Lemma delete_for_everyone_window_witness :
  let at_59 := Sample.env_at (1000 + 59 * Sample.minute_ms) Sample.msg2 "uuid-2" in
  let at_61 := Sample.env_at (1000 + 61 * Sample.minute_ms) Sample.msg2 "uuid-2" in
  Message_findById Sample.cast Sample.store1 Sample.msg1 = inr (Some saved1)
  /\ map m_isDeleted
         (messages (fst (delete_message Sample.cast Sample.store1 Sample.alice at_59
                           (Sample.delete1 "forEveryone")))) = [true]
  /\ delete_message Sample.cast Sample.store1 Sample.alice at_61
       (Sample.delete1 "forEveryone")
     = (Sample.store1, [(ToSocket, EvError time_limit_error None)])
  /\ delete_message Sample.cast Sample.store1 Sample.bob at_59
       (Sample.delete1 "forEveryone")
     = (Sample.store1, [(ToSocket, EvError "Only sender can delete for everyone" None)]).
Proof.
  intros at_59 at_61.
  assert (Hm : Message_findById Sample.cast Sample.store1
                 (d_messageId (Sample.delete1 "forEveryone")) = inr (Some saved1))
    by reflexivity.
  assert (Hc : find (fun c => c_id c =? m_conversation saved1)
                    (conversations Sample.store1) = Some room1_bumped) by reflexivity.
  destruct (delete_for_everyone_window Sample.cast Sample.store1 Sample.alice at_59
              (Sample.delete1 "forEveryone") saved1 room1_bumped eq_refl Hm Hc)
    as (Hok & _).
  destruct (Hok eq_refl eq_refl ltac:(vm_compute; discriminate)) as [Hdel _].
  destruct (delete_for_everyone_window Sample.cast Sample.store1 Sample.alice at_61
              (Sample.delete1 "forEveryone") saved1 room1_bumped eq_refl Hm Hc)
    as (_ & _ & Hlate & _).
  specialize (Hlate eq_refl eq_refl ltac:(reflexivity)).
  split; [exact Hm |]. split; [rewrite Hdel; reflexivity |]. split; [exact Hlate |].
  reflexivity.
Defined.

(** ** The planner over three users and over one (C8) *)

Lemma sample_random_fair : fair (p_random Sample.plan_env).
Proof. intros k. split; cbn; [discriminate | reflexivity]. Qed.

Lemma sample_random_doubles : doubles (p_random Sample.plan_env).
Proof. intros k. exists (2 ^ 52), (-53). split; [reflexivity | split; lia]. Qed.

Lemma planner_pairs_active_users_witness :
  doubles (p_random Sample.plan_env)
  /\ 0 <= p_now Sample.plan_env <= 8640000000000000 - day_ms
  /\ List.length (planned Sample.plan_env Sample.store0) = 1%nat
  /\ Forall (well_planned Sample.plan_env) (planned Sample.plan_env Sample.store0)
  /\ exists random rest,
       doubles random
       /\ List.length rest = 1%nat
       /\ flat_map (fun a => [a_sender a; a_recipient a])
            (planned (with_random Sample.plan_env random) Sample.store0) ++ rest
          = [Sample.carol; Sample.bob; Sample.alice].
Proof.
  pose proof sample_random_doubles as Hd.
  assert (Hnow : 0 <= p_now Sample.plan_env <= 8640000000000000 - day_ms)
    by (vm_compute; split; discriminate).
  destruct (planner_pairs_active_users Sample.plan_env Sample.store0 Hd Hnow)
    as (_ & _ & _ & Hall & _ & H3 & _ & Hshuffle).
  split; [exact Hd |]. split; [exact Hnow |].
  split; [apply H3; reflexivity |]. split; [exact Hall |].
  destruct (Hshuffle (rev (filter u_isActive (users Sample.store0))))
    as (random & rest & Hrandom & Hrest & Hpairs).
  - apply Permutation_sym, Permutation_rev.
  - vm_compute. lia.
  - reflexivity.
  - exists random, rest. split; [exact Hrandom |]. split; [exact Hrest | exact Hpairs].
Defined.

Example planner_three_users :
  map (fun a => (a_sender a, a_recipient a, a_content a, a_sendDate a))
      (planned Sample.plan_env Sample.store0)
  = [(Sample.alice, Sample.carol, "Hey! Uzun zamandır konuşmuyoruz.", 43205000)].
Proof. vm_compute. reflexivity. Qed.

(** With a clock of today and [Math.random()] returning [1 - 2^-52], the
    sum rounds to 24 hours from now. *)
Example planner_day_end :
  map a_sendDate
      (planned {| p_now := 1700000000000;
                  p_random := fun _ => (4503599627370495 # 4503599627370496)%Q;
                  p_new_id := p_new_id Sample.plan_env |} Sample.store0)
  = [1700000000000 + day_ms].
Proof. vm_compute. reflexivity. Qed.

Example planner_one_user :
  planned Sample.plan_env
    {| conversations := []; messages := []; autoMessages := [];
       users := [{| u_id := Sample.alice; u_username := "alice"; u_isActive := true |};
                 {| u_id := Sample.bob; u_username := "bob"; u_isActive := false |}] |}
  = [].
Proof. reflexivity. Qed.

(** ** Bulk delete (C9) *)

(** C9 fails as stated for the empty list: alice, a participant, sends an
    empty list of ids; she receives the error "Invalid message IDs" and no
    counts. Nor does carol, who is no participant, receive counts for a
    list of one id: she receives "Conversation not found". *)
Lemma bulk_delete_empty_list_rejected :
  delete_multiple_messages Sample.cast Sample.store1 Sample.alice
    (Sample.env_at 2000 Sample.msg2 "uuid-2")
    {| dm_messageIds := Some []; dm_conversationId := Sample.room1 |}
  = (Sample.store1, [(ToSocket, EvError "Invalid message IDs" None)])
  /\ ~ reports (snd (delete_multiple_messages Sample.cast Sample.store1 Sample.alice
                       (Sample.env_at 2000 Sample.msg2 "uuid-2")
                       {| dm_messageIds := Some []; dm_conversationId := Sample.room1 |}))
  /\ delete_multiple_messages Sample.cast Sample.store1 Sample.carol
       (Sample.env_at 2000 Sample.msg2 "uuid-2")
       {| dm_messageIds := Some [Sample.msg1]; dm_conversationId := Sample.room1 |}
     = (Sample.store1, [(ToSocket, EvError "Conversation not found" None)]).
Proof.
  split; [reflexivity |]. split; [| reflexivity].
  intros (d & n & t & [H | []]). discriminate.
Qed.

Definition bulk1 : DeleteMultipleData :=
  {| dm_messageIds := Some ["not-an-id"; Sample.msg1; Sample.msg2];
     dm_conversationId := Sample.room1 |}.

Lemma bulk_delete_reports_witness :
  Conversation_findOne Sample.cast Sample.store1 Sample.room1 Sample.bob
  = inr (Some room1_bumped)
  /\ snd (delete_multiple_messages Sample.cast Sample.store1 Sample.bob
            (Sample.env_at 2000 Sample.msg2 "uuid-2") bulk1)
     = [(ToSocket, EvMultipleMessagesDeleted [Sample.msg1] 1 3)]
  /\ map (fun m => map df_user (m_deletedFor m))
         (messages (fst (delete_multiple_messages Sample.cast Sample.store1 Sample.bob
                           (Sample.env_at 2000 Sample.msg2 "uuid-2") bulk1)))
     = [[Sample.bob]].
Proof.
  assert (Hc : Conversation_findOne Sample.cast Sample.store1
                 (dm_conversationId bulk1) Sample.bob = inr (Some room1_bumped))
    by reflexivity.
  assert (Hne : ["not-an-id"; Sample.msg1; Sample.msg2] <> []) by discriminate.
  destruct (bulk_delete_reports Sample.cast Sample.store1 Sample.bob
              (Sample.env_at 2000 Sample.msg2 "uuid-2") bulk1
              ["not-an-id"; Sample.msg1; Sample.msg2] room1_bumped eq_refl Hne Hc)
    as (Hev & _).
  split; [exact Hc |]. split; [rewrite Hev; reflexivity | reflexivity].
Defined.

(** ** A file sent with a text (C10) *)

Definition small_upload : SendData :=
  Sample.upload (Some "look at this") (Sample.file (Some " cat.png ") "image/png" 8).

Lemma file_name_replaces_text_witness :
  has_file small_upload (Sample.file (Some " cat.png ") "image/png" 8)
  /\ map m_content
         (messages (fst (fst (send_message Sample.cast Sample.store0 Sample.alice
                                (Sample.env_at 1000 Sample.msg1 "uuid-1") small_upload))))
     = ["cat.png"]
  /\ ~ In (ToSocket, EvError "Message content or file required" None)
          (snd (fst (send_message Sample.cast Sample.store0 Sample.alice
                       (Sample.env_at 1000 Sample.msg1 "uuid-1") small_upload))).
Proof.
  assert (Hf : has_file small_upload (Sample.file (Some " cat.png ") "image/png" 8))
    by (split; reflexivity).
  destruct (file_name_replaces_text Sample.cast Sample.store0 Sample.alice
              (Sample.env_at 1000 Sample.msg1 "uuid-1") small_upload _ Hf)
    as (Hnever & _ & _).
  split; [exact Hf |]. split; [reflexivity | exact Hnever].
Defined.

(** A file whose name is blank passes the handler's own check and is
    refused by the schema validation instead. *)
Example blank_file_name :
  send_message Sample.cast Sample.store0 Sample.alice
    (Sample.env_at 1000 Sample.msg1 "uuid-1")
    (Sample.upload None (Sample.file (Some "  ") "image/png" 8))
  = (Sample.store0,
     [(ToSocket, EvError "Error sending message" (Some (Thrown ValidationError)))], None).
Proof. reflexivity. Qed.

(** A file name between a no-break space (U+00A0) and a byte order mark
    (U+FEFF) is stored bare, and a name of a no-break space only is refused
    like a blank one. *)
Example unicode_file_name :
  map m_content
      (messages (fst (fst (send_message Sample.cast Sample.store0 Sample.alice
                             (Sample.env_at 1000 Sample.msg1 "uuid-1")
                             (Sample.upload None
                                (Sample.file
                                   (Some (String (ascii_of_nat 194) (String (ascii_of_nat 160)
                                            ("cat.png" ++ String (ascii_of_nat 239)
                                               (String (ascii_of_nat 187)
                                                  (String (ascii_of_nat 191) ""))))))
                                   "image/png" 8))))))
  = ["cat.png"]
  /\ send_message Sample.cast Sample.store0 Sample.alice
       (Sample.env_at 1000 Sample.msg1 "uuid-1")
       (Sample.upload None
          (Sample.file (Some (String (ascii_of_nat 194) (String (ascii_of_nat 160) "")))
                       "image/png" 8))
     = (Sample.store0,
        [(ToSocket, EvError "Error sending message" (Some (Thrown ValidationError)))], None).
Proof. split; reflexivity. Qed.

(** The limit of 2000 is on UTF-16 code units: 1001 letters of two bytes
    each are stored, 2001 letters are not. *)
Example long_content :
  let letters n :=
    string_of_list_ascii (List.concat (repeat [ascii_of_nat 197; ascii_of_nat 159] n)) in
  let sent n :=
    List.length
      (messages (fst (fst (send_message Sample.cast Sample.store0 Sample.alice
                             (Sample.env_at 1000 Sample.msg1 "uuid-1")
                             (Sample.text (Some "m1") (letters n)))))) in
  String.length (letters 1001%nat) = 2002%nat
  /\ sent 1001%nat = 1%nat /\ sent 2000%nat = 1%nat /\ sent 2001%nat = 0%nat.
Proof. vm_compute. repeat split. Qed.

(** The default of the destructuring stands in for a missing [type] only: a
    request with [type: null] is refused by the schema validation. *)
Example null_type :
  send_message Sample.cast Sample.store0 Sample.alice
    (Sample.env_at 1000 Sample.msg1 "uuid-1")
    {| s_conversationId := Sample.room1; s_content := Some "hi"; s_type := Js.Null;
       s_messageId := Some "m1"; s_sessionId := Some "sess-1"; s_fileData := None |}
  = (Sample.store0,
     [(ToSocket, EvError "Error sending message" (Some (Thrown ValidationError)))], None).
Proof. reflexivity. Qed.

(** * Further properties of the delivery engine *)

(** [messageSchema.statics.getUnreadCount(conversationId, userId)]: the
    messages of the conversation that others sent and the user has neither
    read nor lost to a deletion. *)
Definition getUnreadCount (st : Store) (conversation u : oid) : nat :=
  List.length
    (filter (fun m => (m_conversation m =? conversation) && negb (m_sender m =? u)
                      && negb (read_by u m) && negb (m_isDeleted m)
                      && negb (deleted_for u m))%bool
            (messages st)).

Lemma find_absent {A} (p : A -> bool) (l : list A) :
  (forall a, In a l -> p a = false) -> find p l = None.
Proof.
  induction l as [| a l IH]; cbn; intros H; [reflexivity |].
  rewrite (H a (or_introl eq_refl)). apply IH. intros b Hb. apply H. right. exact Hb.
Qed.

Lemma find_after {A} (p : A -> bool) (l1 l2 : list A) :
  find p l1 = None -> find p (l1 ++ l2) = find p l2.
Proof.
  induction l1 as [| a l1 IH]; cbn; [reflexivity |].
  destruct (p a); [discriminate | exact IH].
Qed.

Section Delivery.

Variable cast : string -> option oid.

(** ** A successful send, looked up again *)

(** X1: A send that is acknowledged appends one message to the collection; the
    id of that message finds it again, with the status sent, no reader and
    the time of the call; the conversation of the caller points to it: its
    [lastMessage] is the new message and its [lastActivity] the time of the
    call, with the participants it had; the room of the conversation gets
    message_received with the message, and the caller message_sent with the
    key of the request, or the id of the message when the request has none;
    and the promotion scheduled is the one of that message. *)
Theorem send_then_find st u env data st' events timer :
  send_message cast st u env data = (st', events, Some timer) ->
  exists saved conversation,
    messages st' = messages st ++ [saved]
    /\ find_message st' (new_id env) = Some saved
    /\ m_sender saved = u /\ m_conversation saved = c_id conversation
    /\ m_deliveryStatus saved = Sent /\ m_readBy saved = [] /\ m_isDeleted saved = false
    /\ m_createdAt saved = now env
    /\ In conversation (conversations st) /\ is_participant u conversation = true
    /\ In (bump (new_id env) (now env) conversation) (conversations st')
    /\ events = sent_events data conversation saved
    /\ timer = delivery_timer u data conversation saved
    /\ t_saved timer = new_id env
    /\ (exists bumped,
          In bumped (conversations st') /\ c_id bumped = c_id conversation
          /\ c_participants bumped = c_participants conversation
          /\ c_lastMessage bumped = Some (new_id env)
          /\ c_lastActivity bumped = now env)
    /\ events
       = [(ToRoom ("conversation_" ++ s_conversationId data)%string,
           EvMessageReceived saved (c_participants conversation)
                             (Js.template (s_sessionId data)));
          (ToSocket,
           EvMessageSent (if Js.truthy (s_messageId data)
                          then Js.template (s_messageId data) else new_id env)
                         (now env) Sent)].
Proof.
  intros Hsend.
  destruct (send_message_inv cast _ _ _ _ _ _ _ Hsend) as [(_ & Hnone & _) | Hok];
    [discriminate |].
  destruct Hok as (c & content & type & pfd & st1 & _ & Hc & _ & Hins & -> & -> & Ht).
  inversion Ht; subst timer. clear Ht.
  destruct (Message_insert_inv _ _ _ Hins) as (_ & Hfresh & ->).
  destruct (findOne_some cast _ _ _ _ Hc) as (_ & Hin & Hp).
  set (saved := messageData u env data c content type pfd) in *.
  exists saved, c.
  split; [reflexivity |]. split.
  { unfold find_message. cbn [update_conversation set_conversations set_messages messages].
    rewrite find_after.
    - cbn. rewrite String.eqb_refl. reflexivity.
    - apply find_absent. intros m Hm. apply String.eqb_neq. apply (Hfresh m Hm). }
  do 6 (split; [reflexivity |]).
  split; [exact Hin |]. split; [exact Hp |]. split.
  { cbn. apply in_map_iff. exists c. rewrite String.eqb_refl. split; [reflexivity | exact Hin]. }
  do 3 (split; [reflexivity |]). split.
  { exists (bump (new_id env) (now env) c).
    split; [| split; [| split; [| split]]]; try reflexivity.
    cbn. apply in_map_iff. exists c. rewrite String.eqb_refl.
    split; [reflexivity | exact Hin]. }
  unfold sent_events, conversation_room, Js.or_else.
  destruct (Js.truthy (s_messageId data)) eqn:Hk; [| reflexivity].
  destruct (s_messageId data); [reflexivity | discriminate].
Qed.

(** X2: A send raises by one the unread count of every other user for the
    sender in that conversation, and leaves the sender's own count and the
    counts for other senders as they were. *)
Theorem send_raises_unread st u env data st' events timer :
  send_message cast st u env data = (st', events, Some timer) ->
  exists conversation,
    Conversation_findOne cast st (s_conversationId data) u = inr (Some conversation)
    /\ (forall viewer,
          unread_count st' u (c_id conversation) viewer
          = S (unread_count st u (c_id conversation) viewer))
    /\ (forall viewer, viewer <> u ->
          getUnreadCount st' (c_id conversation) viewer
          = S (getUnreadCount st (c_id conversation) viewer))
    /\ getUnreadCount st' (c_id conversation) u = getUnreadCount st (c_id conversation) u
    /\ (forall sender c viewer, sender <> u ->
          unread_count st' sender c viewer = unread_count st sender c viewer).
Proof.
  intros Hsend.
  destruct (send_message_inv cast _ _ _ _ _ _ _ Hsend) as [(_ & Hnone & _) | Hok];
    [discriminate |].
  destruct Hok as (c & content & type & pfd & st1 & _ & Hc & _ & Hins & -> & _ & _).
  destruct (Message_insert_inv _ _ _ Hins) as (_ & _ & ->).
  exists c. split; [exact Hc |].
  unfold unread_count, getUnreadCount.
  cbn [update_conversation set_conversations set_messages messages].
  split; [| split; [| split]].
  - intros viewer. rewrite filter_app, length_app. cbn.
    rewrite !String.eqb_refl. cbn. lia.
  - intros viewer Hv. rewrite filter_app, length_app. cbn.
    rewrite String.eqb_refl. apply String.eqb_neq in Hv. rewrite String.eqb_sym, Hv.
    cbn. lia.
  - rewrite filter_app, length_app. cbn.
    rewrite !String.eqb_refl. cbn. lia.
  - intros sender c0 viewer Hs. rewrite filter_app, length_app. cbn.
    apply String.eqb_neq in Hs. rewrite String.eqb_sym, Hs. cbn. lia.
Qed.

(** ** Marking as read, again and for the counts *)

Lemma set_messages_same st : set_messages st (messages st) = st.
Proof. destruct st; reflexivity. Qed.

Lemma map_unchanged {A} (g : A -> A) (l : list A) :
  (forall a, In a l -> g a = a) -> map g l = l.
Proof.
  induction l as [| a l IH]; cbn; intros H; [reflexivity |].
  rewrite (H a (or_introl eq_refl)). f_equal. apply IH. intros b Hb. apply H. right. exact Hb.
Qed.

Lemma count_after_map {A} (p q : A -> bool) (g : A -> A) (l : list A) :
  (forall a, In a l -> p (g a) = q a) ->
  List.length (filter p (map g l)) = List.length (filter q l).
Proof.
  induction l as [| a l IH]; cbn; intros H; [reflexivity |].
  rewrite (H a (or_introl eq_refl)).
  assert (IH' : List.length (filter p (map g l)) = List.length (filter q l)).
  { apply IH. intros b Hb. apply H. right. exact Hb. }
  destruct (q a); cbn; rewrite IH'; reflexivity.
Qed.

Lemma read_by_after_push v e now m :
  read_by v (push_read e now m) = (read_by v m || (rb_user e =? v))%bool.
Proof. unfold read_by. cbn. rewrite existsb_app. cbn. rewrite orb_false_r. reflexivity. Qed.

Lemma read_filter_after_update ids c u now sessionId m :
  read_filter ids c u (if read_filter ids c u m then read_update u now sessionId m else m)
  = false.
Proof.
  destruct (read_filter ids c u m) eqn:Hm; [| exact Hm].
  unfold read_filter, read_update. rewrite read_by_after_push. cbn.
  rewrite String.eqb_refl, orb_true_r. cbn.
  rewrite andb_false_r. reflexivity.
Qed.

(** A call either returns at once, or runs its [updateMany]. *)
Lemma mark_read_cases st u data :
  (forall env, mark_messages_read cast st u env data = (st, []))
  \/ (exists messageIds c ids,
        r_messageIds data = Some messageIds
        /\ Js.truthy (r_sessionId data) = true
        /\ Conversation_findOne cast st (r_conversationId data) u = inr (Some c)
        /\ cast_all cast messageIds = Some ids
        /\ forall env,
             fst (mark_messages_read cast st u env data)
             = updateMany (read_filter ids (c_id c) u)
                 (read_update u (now env) (Js.template (r_sessionId data))) st).
Proof.
  unfold mark_messages_read.
  destruct (r_messageIds data) as [messageIds |] eqn:Hids; [| left; reflexivity].
  destruct (Js.truthy (r_sessionId data)) eqn:Hs; cbn [negb]; [| left; reflexivity].
  destruct (Conversation_findOne cast st (r_conversationId data) u) as [e | [c |]] eqn:Hc;
    try (left; reflexivity).
  destruct (cast_all cast messageIds) as [ids |] eqn:Hcast; [| left; reflexivity].
  right. exists messageIds, c, ids.
  split; [reflexivity |]. split; [reflexivity |]. split; [reflexivity |].
  split; [exact Hcast |].
  intros env. destruct (Nat.ltb _ _); reflexivity.
Qed.

(** X3: Marking the same messages as read a second time changes nothing and
    emits nothing, whatever the outcome of the first call was. *)
Theorem mark_read_twice st u env env' data :
  mark_messages_read cast (fst (mark_messages_read cast st u env data)) u env' data
  = (fst (mark_messages_read cast st u env data), []).
Proof.
  destruct (mark_read_cases st u data) as [Hexit | Hrun].
  - rewrite (Hexit env). cbn [fst]. apply Hexit.
  - destruct Hrun as (messageIds & c & ids & Hids & Hs & Hc & Hcast & Hst).
    rewrite (Hst env).
    set (flt := read_filter ids (c_id c) u).
    set (st1 := updateMany flt (read_update u (now env) (Js.template (r_sessionId data))) st).
    assert (Hnone : forall m, In m (messages st1) -> flt m = false).
    { intros m Hm. unfold st1 in Hm. cbn in Hm. apply in_map_iff in Hm.
      destruct Hm as (m0 & <- & _). apply read_filter_after_update. }
    unfold mark_messages_read. rewrite Hids, Hs. cbn [negb].
    change (Conversation_findOne cast st1 (r_conversationId data) u)
      with (Conversation_findOne cast st (r_conversationId data) u).
    rewrite Hc, Hcast. fold flt.
    assert (Hsame : updateMany flt (read_update u (now env') (Js.template (r_sessionId data)))
                      st1 = st1).
    { unfold updateMany. rewrite map_unchanged; [apply set_messages_same |].
      intros m Hm. rewrite (Hnone m Hm). reflexivity. }
    assert (Hzero : modifiedCount flt st1 = O).
    { unfold modifiedCount. rewrite filter_none; [reflexivity | exact Hnone]. }
    rewrite Hsame, Hzero. reflexivity.
Qed.

(** The filter of the unread count of [viewer] for [sender] in a
    conversation. *)
Definition counted (sender conversation viewer : oid) (m : Message) : bool :=
  ((m_sender m =? sender) && (m_conversation m =? conversation)
   && negb (read_by viewer m) && negb (m_isDeleted m) && negb (deleted_for viewer m))%bool.

(** X4: After a participant has marked messages as read, the messages still
    counted as unread for that user are the ones that were counted before
    and were not requested; when all the messages of a sender in the
    conversation were requested the count for that sender is zero, and the
    counts of every other viewer are untouched. *)
Theorem mark_read_clears_unread st u env data c messageIds ids :
  Js.truthy (r_sessionId data) = true ->
  r_messageIds data = Some messageIds ->
  cast_all cast messageIds = Some ids ->
  Conversation_findOne cast st (r_conversationId data) u = inr (Some c) ->
  (forall sender,
     unread_count (fst (mark_messages_read cast st u env data)) sender (c_id c) u
     = List.length (filter (fun m => counted sender (c_id c) u m
                                     && negb (existsb (String.eqb (m_id m)) ids))%bool
                           (messages st)))
  /\ (forall sender,
        (forall m, In m (messages st) -> m_sender m = sender ->
                   m_conversation m = c_id c -> In (m_id m) ids) ->
        unread_count (fst (mark_messages_read cast st u env data)) sender (c_id c) u = O)
  /\ (forall sender c' viewer, viewer <> u ->
        unread_count (fst (mark_messages_read cast st u env data)) sender c' viewer
        = unread_count st sender c' viewer).
Proof.
  intros Hs Hids Hcast Hc.
  assert (Hst : fst (mark_messages_read cast st u env data)
                = updateMany (read_filter ids (c_id c) u)
                    (read_update u (now env) (Js.template (r_sessionId data))) st).
  { unfold mark_messages_read. rewrite Hids, Hs. cbn [negb]. rewrite Hc, Hcast.
    destruct (Nat.ltb _ _); reflexivity. }
  rewrite Hst. clear Hst.
  assert (Hformula : forall sender,
    unread_count (updateMany (read_filter ids (c_id c) u)
                    (read_update u (now env) (Js.template (r_sessionId data))) st)
                 sender (c_id c) u
    = List.length (filter (fun m => counted sender (c_id c) u m
                                    && negb (existsb (String.eqb (m_id m)) ids))%bool
                          (messages st))).
  { intros sender. unfold unread_count, updateMany. cbn [messages set_messages].
    apply count_after_map. intros m _. unfold counted.
    destruct (read_filter ids (c_id c) u m) eqn:Hm.
    - unfold read_update. rewrite read_by_after_push. cbn.
      rewrite String.eqb_refl, orb_true_r. cbn.
      unfold read_filter in Hm.
      repeat (apply andb_true_iff in Hm; destruct Hm as [Hm ?]).
      rewrite Hm. cbn. rewrite !andb_false_r. reflexivity.
    - unfold read_filter in Hm.
      destruct (existsb (String.eqb (m_id m)) ids); cbn in *; [| rewrite andb_true_r; reflexivity].
      rewrite andb_false_r.
      destruct (m_sender m =? sender); cbn; [exact Hm | reflexivity]. }
  split; [exact Hformula |]. split.
  - intros sender Hall. rewrite Hformula. rewrite filter_none; [reflexivity |].
    intros m Hm. unfold counted.
    destruct (m_sender m =? sender) eqn:Hsd; cbn; [| reflexivity].
    destruct (m_conversation m =? c_id c) eqn:Hcv; cbn; [| reflexivity].
    apply String.eqb_eq in Hsd. apply String.eqb_eq in Hcv.
    pose proof (Hall m Hm Hsd Hcv) as Hin. apply existsb_eqb_In in Hin.
    rewrite Hin. cbn. apply andb_false_r.
  - intros sender c' viewer Hv. unfold unread_count, updateMany.
    cbn [messages set_messages]. apply count_after_map. intros m _.
    destruct (read_filter ids (c_id c) u m); [| reflexivity].
    unfold read_update. rewrite read_by_after_push. cbn.
    assert (Huv : (u =? viewer) = false) by (apply String.eqb_neq; congruence).
    rewrite Huv, orb_false_r. reflexivity.
Qed.

(** ** The unique indexes *)

(** The two indexed values of a message: [_id] and [messageId]. *)
Definition keys (st : Store) : list (oid * string) :=
  map (fun m => (m_id m, m_messageId m)) (messages st).

(** No two messages share an [_id], and none share a [messageId]. *)
Definition keys_unique (st : Store) : Prop :=
  NoDup (map fst (keys st)) /\ NoDup (map snd (keys st)).

(** The keys after an operation: the same, or one more that was in use by
    no message. *)
Definition keys_grow (st st' : Store) : Prop :=
  keys st' = keys st
  \/ exists k, keys st' = keys st ++ [k]
               /\ ~ In (fst k) (map fst (keys st)) /\ ~ In (snd k) (map snd (keys st)).

Lemma message_step_key m m' :
  message_step m m' -> (m_id m', m_messageId m') = (m_id m, m_messageId m).
Proof. intros H. destruct H; reflexivity. Qed.

Lemma changes_key m m' :
  changes m m' -> (m_id m', m_messageId m') = (m_id m, m_messageId m).
Proof.
  intros H. induction H as [| m1 m2 _ IH Hs]; [reflexivity |].
  rewrite (message_step_key _ _ Hs). exact IH.
Qed.

Lemma keys_changes st st' :
  Forall2 changes (messages st) (messages st') -> keys st' = keys st.
Proof.
  unfold keys. intros H. induction H as [| a b la lb Hab _ IH]; cbn; [reflexivity |].
  rewrite (changes_key _ _ Hab), IH. reflexivity.
Qed.

Lemma Forall2_changes_at_index ms i (f : Message -> Message) :
  (forall m, message_step m (f m)) -> Forall2 changes ms (at_index i f ms).
Proof.
  intros Hf. revert i. induction ms as [| m ms IH]; intros i; cbn.
  - destruct i; constructor.
  - destruct i; constructor; auto using changes_step, changes_none, Forall2_changes_refl.
Qed.

Lemma updateMany_changes st flt e now :
  (forall m, flt m = true -> read_by (rb_user e) m = false) ->
  Forall2 changes (messages st) (messages (updateMany flt (push_read e now) st)).
Proof.
  intros Hflt. cbn. apply Forall2_map_same. intros m _.
  destruct (flt m) eqn:Hm; [apply changes_step, step_read; auto | apply changes_none].
Qed.

Lemma keys_insert st m st1 :
  Message_insert st m = inr st1 ->
  keys st1 = keys st ++ [(m_id m, m_messageId m)]
  /\ ~ In (m_id m) (map fst (keys st)) /\ ~ In (m_messageId m) (map snd (keys st)).
Proof.
  intros Hins. destruct (Message_insert_inv _ _ _ Hins) as (_ & Hfresh & ->).
  unfold keys. cbn [messages set_messages]. rewrite map_app. split; [reflexivity |].
  rewrite !map_map. cbn [fst snd].
  split; intros Hin; apply in_map_iff in Hin; destruct Hin as (x & Hx & Hxin);
    destruct (Hfresh x Hxin) as [H1 H2]; congruence.
Qed.

Lemma delete_message_changes st u env data :
  Forall2 changes (messages st) (messages (fst (delete_message cast st u env data))).
Proof.
  unfold delete_message, delete_error.
  destruct (Message_findById _ _ _) as [e | [message |]]; try apply Forall2_changes_refl.
  destruct (find _ (conversations st)) as [c |]; [| apply Forall2_changes_refl].
  destruct (negb (is_participant u c)); [apply Forall2_changes_refl |].
  destruct (match d_deleteType data with Some t => t =? "forEveryone" | None => false end).
  - destruct (negb (m_sender message =? u)); [apply Forall2_changes_refl |].
    destruct (Z.ltb _ _); [apply Forall2_changes_refl |].
    destruct (deleteForUser message u "forEveryone" (now env)) as [e | f] eqn:Hd;
      [apply Forall2_changes_refl |].
    cbn [fst]. apply update_message_changes. eapply deleteForUser_step; eauto.
  - destruct (deleteForUser message u "forMe" (now env)) as [e | f] eqn:Hd;
      [apply Forall2_changes_refl |].
    cbn [fst]. apply update_message_changes. eapply deleteForUser_step; eauto.
Qed.

Lemma delete_multiple_messages_changes st u env data :
  Forall2 changes (messages st)
          (messages (fst (delete_multiple_messages cast st u env data))).
Proof.
  unfold delete_multiple_messages, delete_error.
  destruct (dm_messageIds data) as [[| i r] |]; try apply Forall2_changes_refl.
  destruct (Conversation_findOne _ _ _ _) as [e | [c |]]; try apply Forall2_changes_refl.
  destruct (delete_loop_spec cast u env (dm_conversationId data) (i :: r) st O [])
    as (st' & -> & Hch & _).
  exact Hch.
Qed.

Lemma startConsumer_keys env msg st :
  keys_grow st (fst (fst (startConsumer cast env msg st))).
Proof.
  assert (H : keys_grow st (fst (processAutoMessage_body cast env msg st))).
  { unfold processAutoMessage_body, bind, ret, throw, read, write, attempt.
    destruct msg as [| | i]; cbn [fst]; try (left; reflexivity).
    unfold AutoMessage_findById, read, ret, throw.
    destruct i as [i |]; cbn [fst]; [| left; reflexivity].
    destruct (cast i) as [o |]; cbn [fst]; [| left; reflexivity].
    destruct (find _ (autoMessages st)) as [a |]; cbn [fst]; [| left; reflexivity].
    destruct (a_isSent a); cbn [fst]; [left; reflexivity |].
    unfold id_of, ret, throw.
    destruct (find _ (users st)) as [s |]; cbn [fst]; [| left; reflexivity].
    destruct (find (fun x => u_id x =? a_recipient a) (users st)) as [r |]; cbn [fst];
      [| left; reflexivity].
    destruct (find_private (u_id s) (u_id r) st) as [c |]; cbn [fst].
    - destruct (Message_insert st _) as [e | st1] eqn:Hins; cbn [fst];
        [left; reflexivity |].
      right. destruct (keys_insert _ _ _ Hins) as (Hk & H1 & H2).
      eexists. split; [exact Hk | split; [exact H1 | exact H2]].
    - unfold Conversation_insert.
      destruct (existsb _ (conversations st)); cbn [fst]; [left; reflexivity |].
      destruct (Message_insert _ _) as [e | st1] eqn:Hins; cbn [fst];
        [left; reflexivity |].
      right. destruct (keys_insert _ _ _ Hins) as (Hk & H1 & H2).
      eexists. split; [exact Hk | split; [exact H1 | exact H2]]. }
  unfold startConsumer, processAutoMessage.
  destruct msg; cbn [fst]; try (left; reflexivity);
    destruct (processAutoMessage_body cast env _ st) as [st1 [e | events]]; exact H.
Qed.

Lemma run_op_keys st op : keys_grow st (run_op cast st op).
Proof.
  destruct op; cbn [run_op].
  - destruct (send_message cast st u env data) as [[st' events] timer] eqn:Hsend.
    destruct (send_message_inv cast _ _ _ _ _ _ _ Hsend) as [(-> & _) | Hok];
      [left; reflexivity |].
    destruct Hok as (c & content & type & pfd & st1 & _ & _ & _ & Hins & -> & _).
    right. destruct (keys_insert _ _ _ Hins) as (Hk & H1 & H2).
    eexists. split; [exact Hk | split; [exact H1 | exact H2]].
  - left. apply keys_changes. unfold deliver.
    destruct (find_message st (t_saved t)) as [saved |]; [| apply Forall2_changes_refl].
    destruct (cast (t_conversationId t)); cbn [fst];
      apply update_message_changes; intros x; apply step_delivery.
  - left. apply keys_changes.
    destruct (mark_read_cases st u data) as [Hexit | Hrun].
    + rewrite (Hexit env). apply Forall2_changes_refl.
    + destruct Hrun as (messageIds & c & ids & _ & _ & _ & _ & Hst). rewrite (Hst env).
      apply updateMany_changes. intros m Hm. cbn. eapply read_filter_unread; eauto.
  - left. apply keys_changes. cbn. apply Forall2_changes_at_index. intros m.
    destruct (read_filter ids conversation u m) eqn:Hm; [| apply step_same].
    apply step_read. cbn. eapply read_filter_unread; eauto.
  - left. apply keys_changes. cbn. apply Forall2_changes_at_index. intros m.
    destruct (multiple_filter ids u m) eqn:Hm; [| apply step_same].
    apply step_read. cbn. eapply multiple_filter_unread; eauto.
  - left. apply keys_changes. unfold markMultipleAsRead.
    destruct (cast_all cast messageIds) as [ids |]; [| apply Forall2_changes_refl].
    apply updateMany_changes. intros m Hm. cbn. eapply multiple_filter_unread; eauto.
  - left. apply keys_changes, delete_message_changes.
  - left. apply keys_changes, delete_multiple_messages_changes.
  - apply startConsumer_keys.
  - left. reflexivity.
Qed.

Lemma keys_grow_unique st st' : keys_grow st st' -> keys_unique st -> keys_unique st'.
Proof.
  unfold keys_unique. intros [-> | (k & -> & H1 & H2)] [Hid Hkey]; [auto |].
  rewrite !map_app. cbn. split; apply NoDup_snoc; assumption.
Qed.

(** X5: The unique indexes hold through every sequence of operations: when
    no two messages share an [_id] or a [messageId], none do afterwards. *)
Theorem keys_stay_unique ops st :
  keys_unique st -> keys_unique (run cast ops st).
Proof.
  revert st. induction ops as [| op ops IH]; intros st Hu; cbn; [exact Hu |].
  apply IH. eapply keys_grow_unique; [apply run_op_keys | exact Hu].
Qed.

(** ** Delete for me *)

Definition for_me (data : DeleteData) : Prop :=
  match d_deleteType data with Some t => t =? "forEveryone" | None => false end = false.

(** What [deleteForUser(userId, 'forMe')] does to the document. *)
Definition hide_for (u : oid) (now : Z) (m : Message) : Message :=
  if deleted_for u m then m
  else push_deleted {| df_user := u; df_deletedAt := now; df_deleteType := "forMe" |} m.

Lemma deleteForUser_forMe message u now :
  exists f, deleteForUser message u "forMe" now = inr f
            /\ f message = hide_for u now message
            /\ (forall x, f x = x \/ (deleted_for u message = false
                   /\ f x = push_deleted {| df_user := u; df_deletedAt := now;
                                            df_deleteType := "forMe" |} x)).
Proof.
  unfold deleteForUser, hide_for. cbn [String.eqb Ascii.eqb Bool.eqb].
  destruct (deleted_for u message) eqn:Hd; eexists; split; try reflexivity.
  - split; [reflexivity | intros x; left; reflexivity].
  - split; [reflexivity | intros x; right; split; reflexivity].
Qed.

Lemma deleted_for_after_push v e m :
  deleted_for v (push_deleted e m) = (deleted_for v m || (df_user e =? v))%bool.
Proof. unfold deleted_for. cbn. rewrite existsb_app. cbn. rewrite orb_false_r. reflexivity. Qed.

Lemma deleted_for_hidden u now m : deleted_for u (hide_for u now m) = true.
Proof.
  unfold hide_for. destruct (deleted_for u m) eqn:Hd; [exact Hd |].
  rewrite deleted_for_after_push. cbn. rewrite String.eqb_refl. apply orb_true_r.
Qed.

Lemma findById_some st i message :
  Message_findById cast st i = inr (Some message) ->
  cast i = Some (m_id message) /\ find_message st (m_id message) = Some message.
Proof.
  unfold Message_findById. destruct (cast i) as [o |]; [| discriminate].
  intros H. inversion H as [Hf]. pose proof Hf as Hf'. unfold find_message in Hf'.
  apply find_some in Hf'. destruct Hf' as [_ Hid]. apply String.eqb_eq in Hid.
  subst o. rewrite Hf. split; reflexivity.
Qed.

(** X6: A participant who deletes a message for themselves is answered with
    message_deleted_for_me; the message is then deleted for that user; no
    read receipt, status or deletion for everyone changes; the unread counts
    of every other user stay as they were; and deleting it again changes
    nothing in the store. *)
Theorem delete_for_me_is_private st u env data message conversation :
  for_me data ->
  Message_findById cast st (d_messageId data) = inr (Some message) ->
  find (fun c => c_id c =? m_conversation message) (conversations st) = Some conversation ->
  is_participant u conversation = true ->
  snd (delete_message cast st u env data)
  = [(ToSocket, EvMessageDeletedForMe (d_messageId data) (now env))]
  /\ find_message (fst (delete_message cast st u env data)) (m_id message)
     = Some (hide_for u (now env) message)
  /\ deleted_for u (hide_for u (now env) message) = true
  /\ map (fun m => (m_readBy m, m_deliveryStatus m, m_isDeleted m))
         (messages (fst (delete_message cast st u env data)))
     = map (fun m => (m_readBy m, m_deliveryStatus m, m_isDeleted m)) (messages st)
  /\ (forall sender c viewer, viewer <> u ->
        unread_count (fst (delete_message cast st u env data)) sender c viewer
        = unread_count st sender c viewer)
  /\ (forall env',
        fst (delete_message cast (fst (delete_message cast st u env data)) u env' data)
        = fst (delete_message cast st u env data)).
Proof.
  intros Hme Hm Hc Hp. unfold for_me in Hme.
  destruct (findById_some _ _ _ Hm) as [Hcast Hfind].
  destruct (deleteForUser_forMe message u (now env)) as (f & Hf & Hfm & Hfx).
  assert (Hcall : delete_message cast st u env data
                  = (update_message st (m_id message) f,
                     [(ToSocket, EvMessageDeletedForMe (d_messageId data) (now env))])).
  { unfold delete_message. rewrite Hm, Hc, Hp, Hme, Hf. reflexivity. }
  rewrite Hcall. cbn [fst snd].
  assert (Hid : forall x, m_id (f x) = m_id x).
  { intros x. destruct (Hfx x) as [-> | [_ ->]]; reflexivity. }
  assert (Hfound : find_message (update_message st (m_id message) f) (m_id message)
                   = Some (hide_for u (now env) message)).
  { rewrite <- Hfm. apply find_update_message; assumption. }
  split; [reflexivity |]. split; [exact Hfound |].
  split; [apply deleted_for_hidden |]. split; [| split].
  - cbn [update_message set_messages messages]. rewrite map_map. apply map_ext.
    intros x. destruct (m_id x =? m_id message); [| reflexivity].
    destruct (Hfx x) as [-> | [_ ->]]; reflexivity.
  - intros sender c viewer Hv. unfold unread_count.
    cbn [update_message set_messages messages]. apply count_after_map. intros x _.
    destruct (m_id x =? m_id message); [| reflexivity].
    destruct (Hfx x) as [-> | [_ ->]]; [reflexivity |].
    rewrite deleted_for_after_push. cbn.
    assert (Huv : (u =? viewer) = false) by (apply String.eqb_neq; congruence).
    rewrite Huv, orb_false_r. reflexivity.
  - intros env'.
    set (st1 := update_message st (m_id message) f) in *.
    assert (Hm1 : Message_findById cast st1 (d_messageId data)
                  = inr (Some (hide_for u (now env) message))).
    { unfold Message_findById. rewrite Hcast, Hfound. reflexivity. }
    assert (Hkeep : m_conversation (hide_for u (now env) message) = m_conversation message
                    /\ m_id (hide_for u (now env) message) = m_id message).
    { unfold hide_for. destruct (deleted_for u message); split; reflexivity. }
    destruct Hkeep as [Hkc Hki].
    unfold delete_message. rewrite Hm1, Hkc.
    change (conversations st1) with (conversations st). rewrite Hc, Hp, Hme.
    cbn [negb]. unfold deleteForUser. cbn [String.eqb Ascii.eqb Bool.eqb].
    rewrite deleted_for_hidden. cbn [fst]. rewrite Hki.
    unfold update_message. rewrite map_unchanged; [apply set_messages_same |].
    intros x _. destruct (m_id x =? m_id message); reflexivity.
Qed.

(** ** The deletions of one user, once each *)

(** [deletedFor] holds at most one entry per user. *)
Definition unique_deleters (m : Message) : Prop := NoDup (map df_user (m_deletedFor m)).

Lemma deleted_for_false_not_in u m :
  deleted_for u m = false -> ~ In u (map df_user (m_deletedFor m)).
Proof.
  unfold deleted_for. intros H Hin. apply in_map_iff in Hin. destruct Hin as (d & <- & Hd).
  assert (existsb (fun d0 => df_user d0 =? df_user d) (m_deletedFor m) = true).
  { apply existsb_exists. exists d. split; [exact Hd | apply String.eqb_refl]. }
  congruence.
Qed.

Lemma same_id_same_message st x y :
  NoDup (map fst (keys st)) -> In x (messages st) -> In y (messages st) ->
  m_id x = m_id y -> x = y.
Proof.
  unfold keys. rewrite map_map. cbn [fst].
  induction (messages st) as [| a l IH]; cbn; intros Hn Hx Hy He; [contradiction |].
  inversion Hn as [| ? ? Ha Hl]; subst.
  destruct Hx as [<- | Hx], Hy as [<- | Hy]; auto.
  - exfalso. apply Ha. rewrite He. apply in_map. exact Hy.
  - exfalso. apply Ha. rewrite <- He. apply in_map. exact Hx.
Qed.

Lemma Forall_map_kept {A} (P : A -> Prop) (g : A -> A) (l : list A) :
  (forall a, In a l -> P a -> P (g a)) -> Forall P l -> Forall P (map g l).
Proof.
  intros Hg Hl. induction l as [| a l IH]; cbn; constructor; inversion Hl; subst.
  - apply Hg; [left; reflexivity | assumption].
  - apply IH; [intros b Hb; apply Hg; right; exact Hb | assumption].
Qed.

(** Saving what [deleteForUser] did to the message found under an id keeps
    the entries of [deletedFor] unique. *)
Lemma delete_update_unique st message u deleteType now f :
  NoDup (map fst (keys st)) ->
  find_message st (m_id message) = Some message ->
  deleteForUser message u deleteType now = inr f ->
  Forall unique_deleters (messages st) ->
  Forall unique_deleters (messages (update_message st (m_id message) f)).
Proof.
  intros Hn Hfind Hf Hu. cbn [update_message set_messages messages].
  apply Forall_map_kept; [| exact Hu]. intros x Hx Hux.
  destruct (m_id x =? m_id message) eqn:Hid; [| exact Hux].
  apply String.eqb_eq in Hid.
  assert (Hin : In message (messages st)).
  { unfold find_message in Hfind. apply find_some in Hfind. apply Hfind. }
  pose proof (same_id_same_message st x message Hn Hx Hin Hid) as ->.
  unfold deleteForUser in Hf. destruct (deleteType =? "forEveryone").
  - destruct (negb (m_sender message =? u)); [discriminate |].
    inversion Hf; subst. exact Hux.
  - destruct (deleted_for u message) eqn:Hd; inversion Hf; subst; [exact Hux |].
    unfold unique_deleters. cbn. rewrite map_app. cbn.
    apply NoDup_snoc; [exact Hux | apply deleted_for_false_not_in; exact Hd].
Qed.

Definition deleters_unique (st : Store) : Prop := Forall unique_deleters (messages st).

Lemma delete_message_deleters st u env data :
  keys_unique st -> deleters_unique st ->
  deleters_unique (fst (delete_message cast st u env data)).
Proof.
  intros [Hn _] Hu. unfold delete_message, delete_error.
  destruct (Message_findById cast st (d_messageId data)) as [e | [message |]] eqn:Hm;
    try exact Hu.
  destruct (findById_some _ _ _ Hm) as [_ Hfind].
  destruct (find _ (conversations st)) as [c |]; [| exact Hu].
  destruct (negb (is_participant u c)); [exact Hu |].
  destruct (match d_deleteType data with Some t => t =? "forEveryone" | None => false end).
  - destruct (negb (m_sender message =? u)); [exact Hu |].
    destruct (Z.ltb _ _); [exact Hu |].
    destruct (deleteForUser message u "forEveryone" (now env)) as [e | f] eqn:Hd;
      [exact Hu |].
    cbn [fst]. eapply delete_update_unique; eauto.
  - destruct (deleteForUser message u "forMe" (now env)) as [e | f] eqn:Hd; [exact Hu |].
    cbn [fst]. eapply delete_update_unique; eauto.
Qed.

Lemma delete_one_deleters u env conversationId st n l i :
  keys_unique st -> deleters_unique st ->
  keys_unique (fst (fst (delete_one cast u env conversationId (st, n, l) i)))
  /\ deleters_unique (fst (fst (delete_one cast u env conversationId (st, n, l) i))).
Proof.
  intros Hk Hu.
  split.
  - unfold keys_unique. destruct (delete_one_spec cast u env conversationId st n l i)
      as (st' & -> & Hch & _).
    cbn [fst]. rewrite (keys_changes _ _ Hch). exact Hk.
  - unfold delete_one.
    destruct (Message_findById cast st i) as [e | [message |]] eqn:Hm; try exact Hu.
    destruct (findById_some _ _ _ Hm) as [_ Hfind].
    destruct (m_conversation message =? conversationId); [| exact Hu].
    destruct (deleteForUser message u "forMe" (now env)) as [e | f] eqn:Hd; [exact Hu |].
    cbn [fst]. destruct Hk as [Hn _]. eapply delete_update_unique; eauto.
Qed.

Lemma delete_loop_deleters u env conversationId messageIds :
  forall acc,
    keys_unique (fst (fst acc)) -> deleters_unique (fst (fst acc)) ->
    deleters_unique
      (fst (fst (fold_left (delete_one cast u env conversationId) messageIds acc))).
Proof.
  induction messageIds as [| i r IH]; intros [[st n] l] Hk Hu; cbn [fold_left fst] in *.
  - exact Hu.
  - destruct (delete_one_deleters u env conversationId st n l i Hk Hu) as [Hk1 Hu1].
    apply IH; assumption.
Qed.

Lemma delete_multiple_messages_deleters st u env data :
  keys_unique st -> deleters_unique st ->
  deleters_unique (fst (delete_multiple_messages cast st u env data)).
Proof.
  intros Hk Hu. unfold delete_multiple_messages, delete_error.
  destruct (dm_messageIds data) as [[| i r] |]; try exact Hu.
  destruct (Conversation_findOne _ _ _ _) as [e | [c |]]; try exact Hu.
  pose proof (delete_loop_deleters u env (dm_conversationId data) (i :: r) (st, O, [])
                Hk Hu) as H.
  destruct (fold_left _ _ _) as [[st1 n] ids]. exact H.
Qed.

Lemma Forall_at_index {A} (P : A -> Prop) (g : A -> A) (i : nat) (l : list A) :
  (forall a, P a -> P (g a)) -> Forall P l -> Forall P (at_index i g l).
Proof.
  intros Hg. revert i. induction l as [| a l IH]; intros i Hl; cbn.
  - destruct i; constructor.
  - inversion Hl; subst. destruct i; constructor; auto.
Qed.

Lemma unique_deleters_read flt u now sessionId m :
  unique_deleters m ->
  unique_deleters (if flt m : bool then read_update u now sessionId m else m).
Proof. intros H. destruct (flt m); exact H. Qed.

(** The messages after the consumer: the same, or one more without any
    deletion entry. *)
Lemma startConsumer_messages env msg st :
  messages (fst (fst (startConsumer cast env msg st))) = messages st
  \/ exists m, messages (fst (fst (startConsumer cast env msg st))) = messages st ++ [m]
               /\ m_deletedFor m = [].
Proof.
  assert (H : messages (fst (processAutoMessage_body cast env msg st)) = messages st
              \/ exists m, messages (fst (processAutoMessage_body cast env msg st))
                           = messages st ++ [m] /\ m_deletedFor m = []).
  { unfold processAutoMessage_body, bind, ret, throw, read, write, attempt.
    destruct msg as [| | i]; cbn [fst]; try (left; reflexivity).
    unfold AutoMessage_findById, read, ret, throw.
    destruct i as [i |]; cbn [fst]; [| left; reflexivity].
    destruct (cast i) as [o |]; cbn [fst]; [| left; reflexivity].
    destruct (find _ (autoMessages st)) as [a |]; cbn [fst]; [| left; reflexivity].
    destruct (a_isSent a); cbn [fst]; [left; reflexivity |].
    unfold id_of, ret, throw.
    destruct (find _ (users st)) as [s |]; cbn [fst]; [| left; reflexivity].
    destruct (find (fun x => u_id x =? a_recipient a) (users st)) as [r |]; cbn [fst];
      [| left; reflexivity].
    destruct (find_private (u_id s) (u_id r) st) as [c |]; cbn [fst].
    - destruct (Message_insert st _) as [e | st1] eqn:Hins; cbn [fst];
        [left; reflexivity |].
      right. destruct (Message_insert_inv _ _ _ Hins) as (_ & _ & ->).
      eexists. split; reflexivity.
    - unfold Conversation_insert.
      destruct (existsb _ (conversations st)); cbn [fst]; [left; reflexivity |].
      destruct (Message_insert _ _) as [e | st1] eqn:Hins; cbn [fst];
        [left; reflexivity |].
      right. destruct (Message_insert_inv _ _ _ Hins) as (_ & _ & ->).
      eexists. split; reflexivity. }
  unfold startConsumer, processAutoMessage.
  destruct msg; cbn [fst]; try (left; reflexivity);
    destruct (processAutoMessage_body cast env _ st) as [st1 [e | events]]; exact H.
Qed.

Lemma run_op_deleters st op :
  keys_unique st -> deleters_unique st -> deleters_unique (run_op cast st op).
Proof.
  intros Hk Hu. unfold deleters_unique in *. destruct op; cbn [run_op].
  - destruct (send_message cast st u env data) as [[st' events] timer] eqn:Hsend.
    destruct (send_message_inv cast _ _ _ _ _ _ _ Hsend) as [(-> & _) | Hok]; [exact Hu |].
    destruct Hok as (c & content & type & pfd & st1 & _ & _ & _ & Hins & -> & _).
    destruct (Message_insert_inv _ _ _ Hins) as (_ & _ & ->).
    cbn. apply Forall_app. split; [exact Hu |]. repeat constructor.
  - unfold deliver. destruct (find_message st (t_saved t)) as [saved |]; [| exact Hu].
    destruct (cast (t_conversationId t)); cbn [fst update_message set_messages messages];
      (apply Forall_map_kept; [| exact Hu]); intros x _ Hx;
      destruct (m_id x =? t_saved t); exact Hx.
  - destruct (mark_read_cases st u data) as [Hexit | Hrun].
    + rewrite (Hexit env). exact Hu.
    + destruct Hrun as (messageIds & c & ids & _ & _ & _ & _ & Hst). rewrite (Hst env).
      cbn. apply Forall_map_kept; [| exact Hu]. intros x _. apply unique_deleters_read.
  - cbn. apply Forall_at_index; [| exact Hu]. intros x. apply unique_deleters_read.
  - cbn. apply Forall_at_index; [| exact Hu]. intros x. apply unique_deleters_read.
  - unfold markMultipleAsRead. destruct (cast_all cast messageIds) as [ids |]; [| exact Hu].
    cbn. apply Forall_map_kept; [| exact Hu]. intros x _. apply unique_deleters_read.
  - apply delete_message_deleters; assumption.
  - apply delete_multiple_messages_deleters; assumption.
  - destruct (startConsumer_messages env msg st) as [-> | (m & -> & Hm)]; [exact Hu |].
    apply Forall_app. split; [exact Hu |]. constructor; [| constructor].
    unfold unique_deleters. rewrite Hm. constructor.
  - exact Hu.
Qed.

(** X7: Through every sequence of operations, each handler running to its
    end before the next one starts, a message keeps at most one
    [deletedFor] entry per user, provided the ids of the messages are
    distinct to begin with: deleting a message for oneself twice, alone or
    in bulk, records it once. *)
Theorem deleters_stay_unique ops st :
  keys_unique st -> deleters_unique st -> deleters_unique (run cast ops st).
Proof.
  revert st. induction ops as [| op ops IH]; intros st Hk Hu; cbn; [exact Hu |].
  apply IH.
  - eapply keys_grow_unique; [apply run_op_keys | exact Hk].
  - apply run_op_deleters; assumption.
Qed.

(** ** The consumer, on a work item that can be delivered *)

Lemma Message_insert_fresh st m :
  validate m = true ->
  (forall x, In x (messages st) -> m_id x <> m_id m /\ m_messageId x <> m_messageId m) ->
  Message_insert st m = inr (set_messages st (messages st ++ [m])).
Proof.
  intros Hv Hfresh. unfold Message_insert. rewrite Hv. cbn [negb].
  replace (existsb _ (messages st)) with false; [reflexivity |].
  symmetry. apply not_true_is_false. intros He. apply existsb_exists in He.
  destruct He as (x & Hx & Hb). destruct (Hfresh x Hx) as [H1 H2].
  apply orb_true_iff in Hb. destruct Hb as [Hb | Hb]; apply String.eqb_eq in Hb; congruence.
Qed.

(** The message that the consumer creates for an AutoMessage. *)
Definition auto_message (env : QueueEnv) (a : AutoMessage) (sender conversation : oid)
  : Message :=
  {| m_id := q_message_id env; m_sender := sender; m_conversation := conversation;
     m_content := Js.trim (a_content a); m_type := "text"; m_messageId := q_uuid env;
     m_sessionId := None; m_fileData := None; m_readBy := []; m_deletedFor := [];
     m_isDeleted := false; m_deletedAt := None; m_deletedBy := None;
     m_deliveryStatus := Sent; m_sentAt := q_now env; m_deliveredAt := None;
     m_readAt := None; m_createdAt := q_now env |}.

(** The AutoMessage of a work item, unsent, with its two users on file. *)
Definition deliverable (st : Store) (i : string) (a : AutoMessage) (s r : User) : Prop :=
  (exists o, cast i = Some o /\ find (fun x => a_id x =? o) (autoMessages st) = Some a)
  /\ a_isSent a = false
  /\ find (fun x => u_id x =? a_sender a) (users st) = Some s
  /\ find (fun x => u_id x =? a_recipient a) (users st) = Some r.

(** The ids that the consumer draws are new and the content fits a
    message. *)
Definition can_store (st : Store) (env : QueueEnv) (a : AutoMessage) (s r : User) : Prop :=
  Js.trim (a_content a) <> ""
  /\ (Js.length (Js.trim (a_content a)) <= 2000)%nat
  /\ (forall x, In x (messages st) ->
        m_id x <> q_message_id env /\ m_messageId x <> q_uuid env)
  /\ (find_private (u_id s) (u_id r) st = None ->
      forall c, In c (conversations st) -> c_id c <> q_conversation_id env).

(** X8: A deliverable work item is delivered once: the consumer creates one
    text Message from the sender with the AutoMessage's content, in a
    private conversation of the two users that it finds or, failing that,
    creates; that conversation points to the message; the AutoMessage is
    marked as sent; the recipient's room is notified; the item is
    acknowledged. Consuming the same item again creates and emits nothing. *)
Theorem consumer_delivers_once st env i a s r :
  deliverable st i a s r -> can_store st env a s r ->
  exists st' conversation,
    startConsumer cast env (JsonValue (Some i)) st
    = (st',
       if q_io env
       then [(ToRoom (user_room (u_id r)),
              EvAutoMessageReceived (auto_message env a (u_id s) (c_id conversation))
                                    (c_id conversation) (u_id s))]
       else [],
       Ack)
    /\ messages st' = messages st ++ [auto_message env a (u_id s) (c_id conversation)]
    /\ u_id s = a_sender a /\ u_id r = a_recipient a
    /\ In conversation (conversations st')
    /\ is_participant (u_id s) conversation = true
    /\ is_participant (u_id r) conversation = true
    /\ c_type conversation = "private"
    /\ c_lastMessage conversation = Some (q_message_id env)
    /\ c_lastActivity conversation = q_now env
    /\ List.length (conversations st')
       = (List.length (conversations st)
          + match find_private (u_id s) (u_id r) st with Some _ => 0 | None => 1 end)%nat
    /\ (exists a', In a' (autoMessages st') /\ a_id a' = a_id a /\ a_isSent a' = true
                   /\ a_sentAt a' = Some (q_now env)
                   /\ a_conversation a' = Some (c_id conversation))
    /\ (forall env', startConsumer cast env' (JsonValue (Some i)) st' = (st', [], Ack)).
Proof.
  intros ((o & Hcast & Hfa) & Hsent & Hs & Hr) (Hne & Hlen & Hfresh & Hnewc).
  assert (Hsid : u_id s = a_sender a).
  { apply find_some in Hs. destruct Hs as [_ H]. apply String.eqb_eq in H. exact H. }
  assert (Hrid : u_id r = a_recipient a).
  { apply find_some in Hr. destruct Hr as [_ H]. apply String.eqb_eq in H. exact H. }
  assert (Hao : a_id a = o /\ In a (autoMessages st)).
  { apply find_some in Hfa. destruct Hfa as [Hin H]. apply String.eqb_eq in H. auto. }
  destruct Hao as [<- Hain].
  assert (Hvalid : forall c, validate (auto_message env a (u_id s) c) = true).
  { intros c. unfold validate. cbn.
    apply String.eqb_neq in Hne. rewrite Hne. cbn.
    apply Nat.leb_le in Hlen. rewrite Hlen. reflexivity. }
  assert (Hskip : forall st1 c, autoMessages st1
                    = map (fun x => if a_id x =? a_id a
                                    then set_sent (q_now env) c x else x) (autoMessages st) ->
                  forall env', startConsumer cast env' (JsonValue (Some i)) st1
                               = (st1, [], Ack)).
  { intros st1 c Hst1 env'. apply (consumer_skips cast env' i (a_id a) st1 Hcast).
    rewrite Hst1, find_map_preserved.
    - rewrite Hfa. cbn [option_map]. rewrite String.eqb_refl. reflexivity.
    - intros x. destruct (a_id x =? a_id a) eqn:Hx; cbn; rewrite Hx; reflexivity. }
  assert (Hflag : forall c, exists a',
            In a' (map (fun x => if a_id x =? a_id a then set_sent (q_now env) c x else x)
                       (autoMessages st))
            /\ a_id a' = a_id a /\ a_isSent a' = true /\ a_sentAt a' = Some (q_now env)
            /\ a_conversation a' = Some c).
  { intros c. exists (set_sent (q_now env) c a). split.
    - apply in_map_iff. exists a. rewrite String.eqb_refl. auto.
    - repeat split. }
  unfold startConsumer at 1.
  unfold processAutoMessage, processAutoMessage_body, AutoMessage_findById, id_of.
  unfold bind, ret, throw, read, write, attempt.
  rewrite Hcast. cbv beta. rewrite Hfa, Hs, Hr, Hsent.
  destruct (find_private (u_id s) (u_id r) st) as [c |] eqn:Hfp.
  - fold (auto_message env a (u_id s) (c_id c)).
    rewrite (Message_insert_fresh st _ (Hvalid (c_id c)) Hfresh).
    unfold find_private in Hfp. apply find_some in Hfp. destruct Hfp as [Hcin Hcb].
    apply andb_true_iff in Hcb. destruct Hcb as [Hcb Hty].
    apply andb_true_iff in Hcb. destruct Hcb as [Hps Hpr]. apply String.eqb_eq in Hty.
    eexists. exists (bump (q_message_id env) (q_now env) c).
    split; [reflexivity |]. split; [reflexivity |].
    split; [exact Hsid |]. split; [exact Hrid |]. split.
    { cbn. apply in_map_iff. exists c. rewrite String.eqb_refl. auto. }
    split; [exact Hps |]. split; [exact Hpr |]. split; [exact Hty |].
    split; [reflexivity |]. split; [reflexivity |]. split.
    { cbn. rewrite length_map. lia. }
    split; [apply Hflag |].
    intros env'. apply (Hskip _ (c_id c)). reflexivity.
  - set (c := {| c_id := q_conversation_id env; c_participants := [u_id s; u_id r];
                 c_type := "private"; c_lastMessage := None;
                 c_lastActivity := q_now env; c_isActive := true |}).
    unfold Conversation_insert.
    replace (existsb (fun c' => c_id c' =? c_id c) (conversations st)) with false.
    2:{ symmetry. apply not_true_is_false. intros He. apply existsb_exists in He.
        destruct He as (x & Hx & Hb). apply String.eqb_eq in Hb.
        apply (Hnewc eq_refl x Hx). exact Hb. }
    fold (auto_message env a (u_id s) (c_id c)).
    rewrite (Message_insert_fresh _ _ (Hvalid (c_id c))); [| exact Hfresh].
    eexists. exists (bump (q_message_id env) (q_now env) c).
    split; [reflexivity |]. split; [reflexivity |].
    split; [exact Hsid |]. split; [exact Hrid |]. split.
    { cbn. rewrite map_app. apply in_or_app. right. cbn. rewrite String.eqb_refl.
      left. reflexivity. }
    split; [cbn; rewrite String.eqb_refl; reflexivity |]. split.
    { cbn. rewrite String.eqb_refl. apply orb_true_r. }
    split; [reflexivity |]. split; [reflexivity |]. split; [reflexivity |]. split.
    { cbn. rewrite length_map, length_app. reflexivity. }
    split; [apply Hflag |].
    intros env'. apply (Hskip _ (c_id c)). reflexivity.
Qed.

End Delivery.

(** * Further properties of the automated message pipeline *)

(** ** The planner never pairs a user twice *)

Lemma NoDup_pairs_differ {A B} (f g : A -> B) (l : list A) :
  NoDup (flat_map (fun a => [f a; g a]) l) -> Forall (fun a => f a <> g a) l.
Proof.
  induction l as [| a l IH]; cbn; intros H; constructor.
  - inversion H as [| ? ? Hn _]; subst. intros He. apply Hn. left. symmetry. exact He.
  - apply IH. inversion H as [| ? ? _ H1]; subst. inversion H1; subst. assumption.
Qed.

(** X9: When the active users have distinct ids, no user is the sender or the
    recipient of two AutoMessages of one run of the planner, nobody is
    paired with themselves, and every sender and recipient is an active
    user. *)
Theorem planner_pairs_distinct env st :
  fair (p_random env) ->
  NoDup (map u_id (filter u_isActive (users st))) ->
  NoDup (flat_map (fun a => [a_sender a; a_recipient a]) (planned env st))
  /\ Forall (fun a => a_sender a <> a_recipient a) (planned env st)
  /\ Forall (fun a => In (a_sender a) (map u_id (filter u_isActive (users st)))
                      /\ In (a_recipient a) (map u_id (filter u_isActive (users st))))
            (planned env st).
Proof.
  intros Hfair Hnd.
  assert (H : NoDup (flat_map (fun a => [a_sender a; a_recipient a]) (planned env st))
              /\ incl (flat_map (fun a => [a_sender a; a_recipient a]) (planned env st))
                      (map u_id (filter u_isActive (users st)))).
  { unfold planned.
    destruct (Nat.ltb _ 2); [split; [constructor | intros x []] |].
    destruct (shuffleArray (p_random env) (filter u_isActive (users st)) 0)
      as [shuffled k] eqn:Hsh.
    destruct (plan_pairs_ids env (pair_up shuffled) k 0) as (_ & ->).
    pose proof (shuffleArray_perm (p_random env) (filter u_isActive (users st)) 0) as Hp.
    rewrite Hsh in Hp. cbn [fst] in Hp.
    destruct (pair_up_cover shuffled) as (rest & _ & Hcover).
    assert (Hpm : Permutation (map u_id (flat_map (fun p => [fst p; snd p])
                                           (pair_up shuffled)) ++ map u_id rest)
                              (map u_id (filter u_isActive (users st)))).
    { rewrite <- map_app, <- Hcover. apply Permutation_map. exact Hp. }
    split.
    - apply (NoDup_app_remove_r _ (map u_id rest)).
      eapply Permutation_NoDup; [symmetry; exact Hpm | exact Hnd].
    - intros x Hx. eapply Permutation_in; [exact Hpm |]. apply in_or_app. left. exact Hx. }
  destruct H as [Hn Hincl]. split; [exact Hn |]. split.
  - apply (NoDup_pairs_differ a_sender a_recipient). exact Hn.
  - apply Forall_forall. intros a Ha. split; apply Hincl; apply in_flat_map;
      exists a; (split; [exact Ha | cbn; auto]).
Qed.

(** ** The queuer (processQueuedMessages, publishToQueue) *)

(** The broker as the queuer sees it: whether the channel accepts a
    [sendToQueue], and the work items of message_sending_queue, each as the
    consumer will parse it. *)
Record Broker := {
  channel_open : bool;
  queue : list Payload }.

(** publishToQueue: [channel.sendToQueue(..)] inside a try/catch that logs
    the error and returns. *)
Definition publishToQueue (b : Broker) (autoMessageId : oid) : Broker :=
  if channel_open b
  then {| channel_open := true; queue := queue b ++ [JsonValue (Some autoMessageId)] |}
  else b.

(** [message.isQueued = true; message.queuedAt = now]. *)
Definition set_queued (now : Z) (a : AutoMessage) : AutoMessage :=
  {| a_id := a_id a; a_sender := a_sender a; a_recipient := a_recipient a;
     a_content := a_content a; a_sendDate := a_sendDate a; a_isQueued := true;
     a_isSent := a_isSent a; a_queuedAt := Some now; a_sentAt := a_sentAt a;
     a_conversation := a_conversation a |}.

(** The query of the queuer: [{sendDate: {$lte: now}, isQueued: false,
    isSent: false}]. *)
Definition due (now : Z) (a : AutoMessage) : bool :=
  (Z.leb (a_sendDate a) now && negb (a_isQueued a) && negb (a_isSent a))%bool.

(** One turn of the loop: publish, then flag and save. *)
Definition queue_one (now : Z) (acc : Store * Broker) (message : AutoMessage)
  : Store * Broker :=
  let '(st, b) := acc in
  (update_autoMessage (a_id message) (set_queued now) st,
   publishToQueue b (a_id message)).

Definition processQueuedMessages (now : Z) (st : Store) (b : Broker) : Store * Broker :=
  let pendingMessages := filter (due now) (autoMessages st) in
  fold_left (queue_one now) pendingMessages (st, b).

(** What the loop has done to a document once the ids [ids] were handled. *)
Definition queued_if (now : Z) (ids : list oid) (a : AutoMessage) : AutoMessage :=
  if existsb (String.eqb (a_id a)) ids then set_queued now a else a.

Lemma queue_loop now l :
  forall st b,
    fold_left (queue_one now) l (st, b)
    = (set_autoMessages st (map (queued_if now (map a_id l)) (autoMessages st)),
       if channel_open b
       then {| channel_open := true;
               queue := queue b ++ map (fun a => JsonValue (Some (a_id a))) l |}
       else b).
Proof.
  induction l as [| m l IH]; intros st b; cbn [fold_left map].
  - f_equal.
    + unfold queued_if. cbn. rewrite map_id. destruct st; reflexivity.
    + destruct b as [[|] q]; cbn; rewrite ?app_nil_r; reflexivity.
  - unfold queue_one at 2. rewrite IH. f_equal.
    + unfold update_autoMessage, set_autoMessages. cbn. f_equal.
      rewrite map_map. apply map_ext. intros a. unfold queued_if. cbn.
      destruct (a_id a =? a_id m) eqn:Ha; cbn.
      * destruct (existsb (String.eqb (a_id a)) (map a_id l)); reflexivity.
      * reflexivity.
    + unfold publishToQueue. destruct (channel_open b) eqn:Ho; cbn.
      * rewrite <- app_assoc. reflexivity.
      * rewrite Ho. reflexivity.
Qed.

Lemma due_in_ids now l a :
  In a l -> existsb (String.eqb (a_id a)) (map a_id (filter (due now) l)) = due now a
            \/ due now a = false.
Proof.
  intros Hin. destruct (due now a) eqn:Hd; [left | right; reflexivity].
  apply existsb_exists. exists (a_id a). split; [| apply String.eqb_refl].
  apply in_map. apply filter_In. auto.
Qed.

(** X10: One run of the queuer publishes, in order, one work item for each
    AutoMessage that is due (send date reached, neither queued nor sent)
    and flags these as queued, when the channel is open; no AutoMessage is
    due at that time any more, so a second run at the same time publishes
    nothing, and a later run publishes only AutoMessages whose send date
    had not been reached; the sent flag and what a message says are never
    touched. *)
Theorem queuer_publishes_due_once now st b :
  channel_open b = true ->
  let '(st1, b1) := processQueuedMessages now st b in
  queue b1 = queue b ++ map (fun a => JsonValue (Some (a_id a)))
                            (filter (due now) (autoMessages st))
  /\ filter (due now) (autoMessages st1) = []
  /\ processQueuedMessages now st1 b1 = (st1, b1)
  /\ (forall later a, In a (filter (due later) (autoMessages st1)) -> now < a_sendDate a)
  /\ map (fun a => (a_id a, a_sender a, a_recipient a, a_content a, a_sendDate a,
                    a_isSent a, a_sentAt a, a_conversation a)) (autoMessages st1)
     = map (fun a => (a_id a, a_sender a, a_recipient a, a_content a, a_sendDate a,
                      a_isSent a, a_sentAt a, a_conversation a)) (autoMessages st)
  /\ (forall a, In a (autoMessages st) -> due now a = true ->
        exists a', In a' (autoMessages st1) /\ a_id a' = a_id a
                   /\ a_isQueued a' = true /\ a_queuedAt a' = Some now).
Proof.
  intros Hopen. unfold processQueuedMessages. rewrite queue_loop, Hopen.
  set (ids := map a_id (filter (due now) (autoMessages st))).
  assert (Hnot : forall a, In a (autoMessages st) ->
                           Z.leb (a_sendDate a) now = true ->
                           due now (queued_if now ids a) = false).
  { intros a Hin Hle. unfold queued_if.
    destruct (existsb (String.eqb (a_id a)) ids) eqn:He.
    - unfold due. cbn. rewrite andb_false_r. reflexivity.
    - destruct (due_in_ids now (autoMessages st) a Hin) as [H | H]; [| exact H].
      fold ids in H. congruence. }
  assert (Hdate : forall a, a_sendDate (queued_if now ids a) = a_sendDate a).
  { intros a. unfold queued_if. destruct (existsb (String.eqb (a_id a)) ids); reflexivity. }
  assert (Hnone : filter (due now) (map (queued_if now ids) (autoMessages st)) = []).
  { apply filter_none. intros a' Ha'. apply in_map_iff in Ha'.
    destruct Ha' as (a & <- & Hin).
    destruct (Z.leb (a_sendDate a) now) eqn:Hle; [apply Hnot; assumption |].
    unfold due. rewrite Hdate, Hle. reflexivity. }
  split; [reflexivity |]. split; [exact Hnone |]. split; [| split; [| split]].
  - unfold processQueuedMessages. cbn [autoMessages set_autoMessages].
    rewrite Hnone. reflexivity.
  - intros later a' Ha'. apply filter_In in Ha'. destruct Ha' as [Ha' Hd].
    cbn [autoMessages set_autoMessages] in Ha'. apply in_map_iff in Ha'.
    destruct Ha' as (a & <- & Hin). rewrite Hdate.
    destruct (Z.leb (a_sendDate a) now) eqn:Hle; [| apply Z.leb_gt; exact Hle].
    exfalso. unfold queued_if in Hd.
    destruct (existsb (String.eqb (a_id a)) ids) eqn:He.
    + unfold due in Hd. cbn in Hd. rewrite andb_false_r in Hd. discriminate.
    + assert (Hdn : due now a = false).
      { destruct (due_in_ids now (autoMessages st) a Hin) as [H | H]; [| exact H].
        fold ids in H. congruence. }
      unfold due in Hdn, Hd. rewrite Hle in Hdn.
      destruct (a_isQueued a), (a_isSent a), (Z.leb (a_sendDate a) later);
        cbn in *; discriminate.
  - cbn [autoMessages set_autoMessages]. rewrite map_map. apply map_ext.
    intros a. unfold queued_if. destruct (existsb (String.eqb (a_id a)) ids); reflexivity.
  - intros a Hin Hd. exists (queued_if now ids a). split.
    + cbn. apply in_map. exact Hin.
    + unfold queued_if.
      destruct (due_in_ids now (autoMessages st) a Hin) as [H | H]; [| congruence].
      fold ids in H. rewrite H, Hd. repeat split.
Qed.

(** X11: When the channel is closed the queuer publishes nothing and still flags
    every due AutoMessage as queued: no later run, with the channel open
    again, publishes a work item for them at that time. *)
Theorem queuer_flags_without_publishing now st b :
  channel_open b = false ->
  let '(st1, b1) := processQueuedMessages now st b in
  b1 = b
  /\ (forall a, In a (autoMessages st) -> due now a = true ->
        exists a', In a' (autoMessages st1) /\ a_id a' = a_id a
                   /\ a_isQueued a' = true /\ a_isSent a' = false)
  /\ (forall q, snd (processQueuedMessages now st1 {| channel_open := true; queue := q |})
                = {| channel_open := true; queue := q |}).
Proof.
  intros Hclosed. unfold processQueuedMessages. rewrite queue_loop, Hclosed.
  set (ids := map a_id (filter (due now) (autoMessages st))).
  split; [reflexivity |]. split.
  - intros a Hin Hd. exists (queued_if now ids a). split.
    + cbn. apply in_map. exact Hin.
    + unfold queued_if.
      destruct (due_in_ids now (autoMessages st) a Hin) as [H | H]; [| congruence].
      fold ids in H. rewrite H, Hd. cbn. repeat split.
      unfold due in Hd. apply andb_true_iff in Hd. destruct Hd as [_ Hd].
      apply negb_true_iff in Hd. exact Hd.
  - intros q. cbn [autoMessages set_autoMessages].
    rewrite filter_none; [reflexivity |].
    intros a' Ha'. apply in_map_iff in Ha'. destruct Ha' as (a & <- & Hin).
    unfold queued_if. destruct (existsb (String.eqb (a_id a)) ids) eqn:He.
    + unfold due. cbn. rewrite andb_false_r. reflexivity.
    + destruct (due_in_ids now (autoMessages st) a Hin) as [H | H]; [| exact H].
      fold ids in H. congruence.
Qed.

(** ** From the queuer to the consumer *)

Lemma find_unique_id (l : list AutoMessage) (a : AutoMessage) :
  NoDup (map a_id l) -> In a l -> find (fun x => a_id x =? a_id a) l = Some a.
Proof.
  induction l as [| x l IH]; cbn; intros Hn Hin; [contradiction |].
  inversion Hn as [| ? ? Hx Hl]; subst.
  destruct Hin as [-> | Hin]; [rewrite String.eqb_refl; reflexivity |].
  destruct (a_id x =? a_id a) eqn:He; [| apply IH; assumption].
  exfalso. apply String.eqb_eq in He. apply Hx. rewrite He. apply in_map. exact Hin.
Qed.

(** X12: Every work item that the queuer publishes names an AutoMessage that the
    consumer will find, flagged as queued and not yet sent: with the two
    users on file it is deliverable. The ids of the AutoMessages are taken
    distinct and such that their rendering casts back to them. *)
Theorem queued_items_are_deliverable cast now st b item :
  channel_open b = true ->
  NoDup (map a_id (autoMessages st)) ->
  (forall a, In a (autoMessages st) -> cast (a_id a) = Some (a_id a)) ->
  In item (skipn (List.length (queue b)) (queue (snd (processQueuedMessages now st b)))) ->
  exists a,
    item = JsonValue (Some (a_id a))
    /\ In a (autoMessages st) /\ due now a = true
    /\ forall s r,
         find (fun x => u_id x =? a_sender a) (users st) = Some s ->
         find (fun x => u_id x =? a_recipient a) (users st) = Some r ->
         deliverable cast (fst (processQueuedMessages now st b)) (a_id a)
                     (set_queued now a) s r.
Proof.
  intros Hopen Hn Hcast. unfold processQueuedMessages. rewrite queue_loop, Hopen.
  cbn [fst snd queue]. rewrite skipn_app, skipn_all, Nat.sub_diag. cbn [skipn app].
  intros Hin. apply in_map_iff in Hin. destruct Hin as (a & <- & Ha).
  apply filter_In in Ha. destruct Ha as [Hin Hd].
  exists a. split; [reflexivity |]. split; [exact Hin |]. split; [exact Hd |].
  intros s r Hs Hr. unfold deliverable. cbn [autoMessages users set_autoMessages].
  split; [| split; [| split]].
  - exists (a_id a). split; [apply Hcast; exact Hin |].
    rewrite find_map_preserved.
    + rewrite (find_unique_id _ a Hn Hin). cbn. unfold queued_if.
      destruct (due_in_ids now (autoMessages st) a Hin) as [H | H]; [| congruence].
      rewrite H, Hd. reflexivity.
    + intros x. unfold queued_if.
      destruct (existsb (String.eqb (a_id x)) _); reflexivity.
  - cbn. unfold due in Hd. apply andb_true_iff in Hd. destruct Hd as [_ Hd].
    apply negb_true_iff in Hd. exact Hd.
  - exact Hs.
  - exact Hr.
Qed.

(** * The base64 helper and the Message model *)

(** ** fixBase64Format *)

(** [s.indexOf(c)] for a character: [None] is -1. *)
Fixpoint indexOf (c : ascii) (s : string) : option nat :=
  match s with
  | EmptyString => None
  | String a s' =>
      if Ascii.eqb a c then Some O
      else match indexOf c s' with Some n => Some (S n) | None => None end
  end.

Fixpoint take (n : nat) (s : string) : string :=
  match n, s with
  | S n', String a s' => String a (take n' s')
  | _, _ => EmptyString
  end.

(** [s.substring(from, to)]: the bounds are swapped when [from > to]. *)
Definition substring_between (from to : nat) (s : string) : string :=
  take (Nat.max from to - Nat.min from to) (Js.drop (Nat.min from to) s).

Section Base64.

(** [atob], the decoder of the platform: the bytes, or [None] when it
    throws. *)
Variable atob : string -> option (list N).

Definition byte_is (bytes : list N) (i : nat) (v : N) : bool :=
  match nth_error bytes i with Some b => N.eqb b v | None => false end.

(** The MIME type guessed from the first bytes of a bare payload. *)
Definition sniff (base64String : string) : string :=
  match atob (take (Nat.min 20 (String.length base64String)) base64String) with
  | None => "application/octet-stream"
  | Some bytes =>
      if (byte_is bytes 0 255 && byte_is bytes 1 216)%bool then "image/jpeg"
      else if (byte_is bytes 0 137 && byte_is bytes 1 80 && byte_is bytes 2 78
               && byte_is bytes 3 71)%bool then "image/png"
      else if (byte_is bytes 0 71 && byte_is bytes 1 73 && byte_is bytes 2 70)%bool
           then "image/gif"
      else if (Nat.leb 12 (List.length bytes) && byte_is bytes 8 87 && byte_is bytes 9 69
               && byte_is bytes 10 66 && byte_is bytes 11 80)%bool then "image/webp"
      else "application/octet-stream"
  end.

(** fixBase64Format on a string; the empty string is returned as it is. *)
Definition fixBase64Format (base64String : string) : string :=
  if base64String =? "" then base64String
  else if (Js.startsWith base64String "data:" && Js.includes base64String ";base64,")%bool
  then base64String
  else if (Js.startsWith base64String "data:" && Js.includes base64String "base64,"
           && negb (Js.includes base64String ";base64,"))%bool
  then Js.replace base64String "base64," ";base64,"
  else
    match
      (if (Js.startsWith base64String "data:"
           && negb (Js.includes base64String "base64,"))%bool
       then match indexOf ":" base64String, indexOf "," base64String with
            | Some colonIndex, Some commaIndex =>
                Some ("data:" ++ substring_between (colonIndex + 1) commaIndex base64String
                      ++ ";base64," ++ Js.drop (commaIndex + 1) base64String)%string
            | _, _ => None
            end
       else None)
    with
    | Some fixed => fixed
    | None =>
        if negb (Js.startsWith base64String "data:")
        then ("data:" ++ sniff base64String ++ ";base64," ++ base64String)%string
        else base64String
    end.

Lemma prefix_nil s : String.prefix "" s = true.
Proof. destruct s; reflexivity. Qed.

Lemma prefix_self_append p x : String.prefix p (p ++ x)%string = true.
Proof.
  induction p as [| c p IH]; cbn; [apply prefix_nil |].
  destruct (ascii_dec c c); [exact IH | contradiction].
Qed.

Lemma includes_self_append p x : Js.includes (p ++ x)%string p = true.
Proof.
  pose proof (prefix_self_append p x) as H.
  destruct (p ++ x)%string; cbn [Js.includes]; rewrite H; reflexivity.
Qed.

Lemma includes_replaced s p r :
  Js.includes s p = true -> Js.includes (Js.replace s p r) r = true.
Proof.
  induction s as [| c s IH]; cbn [Js.includes Js.replace].
  - destruct (String.prefix p "") eqn:Hp; [intros _ | discriminate].
    apply includes_self_append.
  - destruct (String.prefix p (String c s)) eqn:Hp.
    + intros _. apply includes_self_append.
    + cbn [orb Js.includes]. intros H. rewrite (IH H). apply orb_true_r.
Qed.

Lemma prefix_inv p s :
  String.prefix p s = true -> s = (p ++ Js.drop (String.length p) s)%string.
Proof.
  revert s. induction p as [| c p IH]; intros s; [reflexivity |].
  destruct s as [| a s]; cbn; [discriminate |].
  destruct (ascii_dec c a) as [<- |]; [| discriminate].
  intros H. rewrite <- (IH s H). reflexivity.
Qed.

Lemma starts_data_inv s :
  Js.startsWith s "data:" = true -> exists s', s = ("data:" ++ s')%string.
Proof.
  intros H. exists (Js.drop 5 s). apply (prefix_inv "data:" s H).
Qed.

Lemma starts_data_append x : Js.startsWith ("data:" ++ x)%string "data:" = true.
Proof. unfold Js.startsWith. apply prefix_self_append. Qed.

Lemma starts_data_replaced s :
  Js.startsWith s "data:" = true ->
  Js.startsWith (Js.replace s "base64," ";base64,") "data:" = true.
Proof.
  intros H. destruct (starts_data_inv s H) as [s' ->].
  change (Js.replace ("data:" ++ s')%string "base64," ";base64,")
    with ("data:" ++ Js.replace s' "base64," ";base64,")%string.
  apply starts_data_append.
Qed.

(** A value in the final form: a data URL with the marker [;base64,]. *)
Definition well_formed (s : string) : bool :=
  (Js.startsWith s "data:" && Js.includes s ";base64,")%bool.

Lemma well_formed_fixed s : well_formed s = true -> fixBase64Format s = s.
Proof.
  unfold well_formed, fixBase64Format. intros H. rewrite H.
  destruct (s =? ""); reflexivity.
Qed.

Lemma well_formed_built mime data :
  well_formed ("data:" ++ mime ++ ";base64," ++ data)%string = true.
Proof.
  unfold well_formed. rewrite starts_data_append. cbn [andb].
  apply includes_after, includes_after, includes_self_append.
Qed.

Lemma fixBase64Format_normal_form s :
  fixBase64Format s = s \/ well_formed (fixBase64Format s) = true.
Proof.
  unfold fixBase64Format.
  destruct (s =? ""); [left; reflexivity |].
  destruct (Js.startsWith s "data:") eqn:Hd; cbn [andb negb].
  - destruct (Js.includes s ";base64,") eqn:Hsb; [left; reflexivity |].
    destruct (Js.includes s "base64,") eqn:Hb; cbn [andb negb].
    + right. unfold well_formed.
      rewrite (starts_data_replaced s Hd), (includes_replaced s _ _ Hb). reflexivity.
    + destruct (indexOf ":" s) as [colonIndex |]; [| left; reflexivity].
      destruct (indexOf "," s) as [commaIndex |]; [| left; reflexivity].
      right. apply well_formed_built.
  - right. apply well_formed_built.
Qed.

Lemma fixBase64Format_twice s : fixBase64Format (fixBase64Format s) = fixBase64Format s.
Proof.
  destruct (fixBase64Format_normal_form s) as [H | H];
    [rewrite H; exact H | apply well_formed_fixed; exact H].
Qed.

Lemma fixBase64Format_starts s :
  s <> "" -> Js.startsWith (fixBase64Format s) "data:" = true.
Proof.
  intros Hne. unfold fixBase64Format.
  apply String.eqb_neq in Hne. rewrite Hne.
  destruct (Js.startsWith s "data:") eqn:Hd; cbn [andb negb].
  - destruct (Js.includes s ";base64,"); [exact Hd |].
    destruct (Js.includes s "base64,"); cbn [andb negb];
      [apply starts_data_replaced; exact Hd |].
    destruct (indexOf ":" s); [| exact Hd].
    destruct (indexOf "," s); [apply starts_data_append | exact Hd].
  - apply starts_data_append.
Qed.

(** X13: fixBase64Format leaves a data URL that carries [;base64,] as it is; it
    gives every non-empty value the prefix [data:]; and applying it to its
    own result changes nothing. *)
Theorem fixBase64Format_idempotent s :
  fixBase64Format (fixBase64Format s) = fixBase64Format s
  /\ (s <> "" -> Js.startsWith (fixBase64Format s) "data:" = true)
  /\ (well_formed s = true -> fixBase64Format s = s).
Proof.
  split; [| split].
  - destruct (fixBase64Format_normal_form s) as [Hsame | Hformed].
    + rewrite Hsame. exact Hsame.
    + unfold well_formed in Hformed. unfold fixBase64Format at 1.
      rewrite Hformed. destruct (fixBase64Format s =? ""); reflexivity.
  - intros Hne. destruct (fixBase64Format_normal_form s) as [Hsame | Hformed].
    + apply fixBase64Format_starts. exact Hne.
    + unfold well_formed in Hformed. apply andb_true_iff in Hformed. apply Hformed.
  - intros Hformed. unfold well_formed in Hformed. unfold fixBase64Format.
    rewrite Hformed. destruct (s =? ""); reflexivity.
Qed.

(** ** The pre-save hook of the Message model *)

(** The paths of [fileData] in a document; [None] is undefined. *)
Record FileFields := {
  ff_name : option string;
  ff_type : option string;
  ff_size : option Z;
  ff_data : option string;
  ff_url : option string;
  ff_thumbnail : option string;
  ff_duration : option Q }.

(** The part of a Message document that the hook reads and writes. *)
Record Draft := {
  dr_messageId : option string;
  dr_fileData : FileFields }.

Definition no_file : FileFields :=
  {| ff_name := None; ff_type := None; ff_size := None; ff_data := None;
     ff_url := None; ff_thumbnail := None; ff_duration := None |}.

(** [v >= 0 ? v : undefined]. *)
Definition non_negative (v : option Z) : option Z :=
  match v with
  | Some n => if Z.leb 0 n then Some n else None
  | None => None
  end.

Definition non_negative_Q (v : option Q) : option Q :=
  match v with
  | Some q => if Qle_bool 0 q then Some q else None
  | None => None
  end.

(** [if (v && typeof v === 'string') v = fixBase64Format(v)]. *)
Definition fix_field (v : option string) : option string :=
  if Js.truthy v then option_map fixBase64Format v else v.

(** [data.includes(',') ? data.split(',')[1] : data]. *)
Definition payload_of (data : string) : string :=
  if Js.includes data "," then nth 1 (Js.split "," data) "" else data.

(** [if (data && (!size || size === 0)) size = Math.round(calculatedSize)]. *)
Definition hook_size (data : option string) (size : option Z) : option Z :=
  if (Js.truthy data
      && match size with Some n => Z.eqb n 0 | None => true end)%bool
  then match data with
       | Some d => Some (calculatedSize (payload_of d))
       | None => size
       end
  else size.

Definition normalize (fd : FileFields) : FileFields :=
  if (Js.truthy (ff_name fd) || Js.truthy (ff_type fd) || Js.truthy (ff_data fd))%bool
  then
    let data := fix_field (ff_data fd) in
    {| ff_name := ff_name fd;
       ff_type := ff_type fd;
       ff_size := hook_size data (non_negative (ff_size fd));
       ff_data := data;
       ff_url := ff_url fd;
       ff_thumbnail := fix_field (ff_thumbnail fd);
       ff_duration := non_negative_Q (ff_duration fd) |}
  else fd.

(** [messageSchema.pre('save', ..)]; [uuid] is the value that
    crypto.randomUUID() returns. *)
Definition pre_save (uuid : string) (d : Draft) : Draft :=
  {| dr_messageId := if Js.truthy (dr_messageId d) then dr_messageId d else Some uuid;
     dr_fileData := normalize (dr_fileData d) |}.

(** The document paths of a file as the send handler builds them. *)
Definition fields_of (fd : FileData) : FileFields :=
  {| ff_name := fd_name fd; ff_type := fd_type fd; ff_size := Some (fd_size fd);
     ff_data := Some (fd_data fd); ff_url := None; ff_thumbnail := None;
     ff_duration := None |}.

Definition draft_of (m : Message) : Draft :=
  {| dr_messageId := Some (m_messageId m);
     dr_fileData := match m_fileData m with Some fd => fields_of fd | None => no_file end |}.

Lemma fix_field_truthy v : Js.truthy (fix_field v) = Js.truthy v.
Proof.
  unfold fix_field. destruct (Js.truthy v) eqn:Hv; [| exact Hv].
  destruct v as [s |]; [| discriminate]. cbn in *.
  apply negb_true_iff in Hv. apply negb_true_iff. apply String.eqb_neq in Hv.
  apply String.eqb_neq. intros He.
  pose proof (fixBase64Format_starts s Hv) as Hp.
  rewrite He in Hp. discriminate.
Qed.

Lemma fix_field_idempotent v : fix_field (fix_field v) = fix_field v.
Proof.
  unfold fix_field at 1. rewrite fix_field_truthy.
  unfold fix_field. destruct (Js.truthy v); [| reflexivity].
  destruct v as [s |]; [| reflexivity]. cbn.
  rewrite (fixBase64Format_twice s). reflexivity.
Qed.

Lemma non_negative_idempotent v : non_negative (non_negative v) = non_negative v.
Proof.
  destruct v as [n |]; [| reflexivity]. cbn.
  destruct (Z.leb 0 n) eqn:H; cbn; [rewrite H |]; reflexivity.
Qed.

Lemma non_negative_Q_idempotent v : non_negative_Q (non_negative_Q v) = non_negative_Q v.
Proof.
  destruct v as [q |]; [| reflexivity]. cbn.
  destruct (Qle_bool 0 q) eqn:H; cbn; [rewrite H |]; reflexivity.
Qed.

Lemma hook_size_idempotent data size :
  hook_size data (non_negative (hook_size data (non_negative size)))
  = hook_size data (non_negative size).
Proof.
  unfold hook_size.
  destruct (Js.truthy data) eqn:Hd; cbn [andb]; [| apply non_negative_idempotent].
  destruct data as [d |]; [| discriminate].
  destruct (non_negative size) as [n |] eqn:Hn.
  - destruct (Z.eqb n 0) eqn:H0.
    + cbn [non_negative].
      destruct (Z.leb 0 (calculatedSize (payload_of d))) eqn:Hc; [| reflexivity].
      destruct (Z.eqb (calculatedSize (payload_of d)) 0) eqn:Hz; [reflexivity |].
      reflexivity.
    + assert (Hnn : non_negative (Some n) = Some n)
        by (rewrite <- Hn; apply non_negative_idempotent).
      rewrite Hnn, H0. reflexivity.
  - cbn [non_negative].
    destruct (Z.leb 0 (calculatedSize (payload_of d))) eqn:Hc; [| reflexivity].
    destruct (Z.eqb (calculatedSize (payload_of d)) 0) eqn:Hz; reflexivity.
Qed.

Lemma normalize_idempotent fd : normalize (normalize fd) = normalize fd.
Proof.
  unfold normalize at 2.
  destruct (Js.truthy (ff_name fd) || Js.truthy (ff_type fd) || Js.truthy (ff_data fd))%bool
    eqn:Hg; [| unfold normalize; rewrite Hg; reflexivity].
  unfold normalize. cbn [ff_name ff_type ff_data ff_size ff_url ff_thumbnail ff_duration].
  rewrite fix_field_truthy, Hg, !fix_field_idempotent, hook_size_idempotent,
    non_negative_Q_idempotent.
  reflexivity.
Qed.

(** X14: Saving a document a second time changes nothing: the hook gives the
    message an idempotency key when it has none, brings [fileData] to its
    normal form, and is the identity on its own results. A data payload that
    it leaves in the document carries the prefix [data:]. *)
Theorem pre_save_idempotent uuid uuid' d :
  uuid <> "" ->
  pre_save uuid' (pre_save uuid d) = pre_save uuid d
  /\ Js.truthy (dr_messageId (pre_save uuid d)) = true
  /\ (forall data, ff_data (dr_fileData (pre_save uuid d)) = Some data -> data <> "" ->
        Js.startsWith data "data:" = true).
Proof.
  intros Hu.
  assert (Hk : Js.truthy (dr_messageId (pre_save uuid d)) = true).
  { cbn. destruct (Js.truthy (dr_messageId d)) eqn:Hm; [exact Hm |].
    cbn. apply negb_true_iff, String.eqb_neq. exact Hu. }
  split; [| split; [exact Hk |]].
  - unfold pre_save at 1. rewrite Hk.
    unfold pre_save. cbn [dr_messageId dr_fileData]. rewrite normalize_idempotent.
    reflexivity.
  - cbn [pre_save dr_fileData]. intros data Hdata Hne. unfold normalize in Hdata.
    assert (Ht : Js.truthy (Some data) = true)
      by (cbn; apply negb_true_iff, String.eqb_neq; exact Hne).
    destruct (Js.truthy (ff_name (dr_fileData d)) || Js.truthy (ff_type (dr_fileData d))
              || Js.truthy (ff_data (dr_fileData d)))%bool eqn:Hg.
    + cbn [ff_data] in Hdata. rewrite <- Hdata, fix_field_truthy in Ht.
      unfold fix_field in Hdata. rewrite Ht in Hdata.
      destruct (ff_data (dr_fileData d)) as [s |]; [| discriminate].
      cbn in Hdata. inversion Hdata; subst data.
      apply (fixBase64Format_starts s).
      cbn in Ht. apply negb_true_iff, String.eqb_neq in Ht. exact Ht.
    + rewrite Hdata, Ht in Hg. rewrite !orb_true_r in Hg. discriminate.
Qed.


(** ** The hook on the documents of the send handler *)

Lemma send_message_saved cast st u env data st' events timer :
  send_message cast st u env data = (st', events, Some timer) ->
  exists conversation messageContent messageType processedFileData,
    file_stage (s_content data) (default_type data) (s_fileData data)
    = inr (messageContent, Some messageType, processedFileData)
    /\ find_message st' (new_id env)
       = Some (messageData u env data conversation messageContent messageType
                           processedFileData).
Proof.
  intros Hsend.
  destruct (send_message_inv cast _ _ _ _ _ _ _ Hsend) as [(_ & Hnone & _) | Hok];
    [discriminate |].
  destruct Hok as (c & content & type & pfd & st1 & _ & _ & Hf & Hins & -> & _ & _).
  destruct (Message_insert_inv _ _ _ Hins) as (_ & Hfresh & ->).
  exists c, content, type, pfd. split; [exact Hf |].
  unfold find_message. cbn [update_conversation set_conversations set_messages messages].
  rewrite find_after.
  - cbn. rewrite String.eqb_refl. reflexivity.
  - apply find_absent. intros m Hm. apply String.eqb_neq. apply (Hfresh m Hm).
Qed.

Lemma file_stage_cases content type fileData messageContent messageType processedFileData :
  file_stage content type fileData = inr (messageContent, messageType, processedFileData) ->
  (processedFileData = None
   /\ match fileData with Some f => Js.truthy (f_data f) = false | None => True end)
  \/ (exists f, fileData = Some f /\ Js.truthy (f_data f) = true
        /\ messageType = messageType_of type f
        /\ processedFileData
           = Some {| fd_name := f_name f; fd_type := f_type f;
                     fd_data := fixedFileData f; fd_size := actualFileSize f |}).
Proof.
  unfold file_stage. destruct fileData as [f |].
  - destruct (Js.truthy (f_data f)) eqn:Hd.
    + destruct (exceeds _ _); [discriminate |].
      intros H. inversion H; subst. right. exists f. repeat split. exact Hd.
    + intros H. inversion H; subst. left. split; reflexivity.
  - intros H. inversion H; subst. left. split; [reflexivity | exact I].
Qed.

Lemma fixedFileData_starts f : Js.startsWith (fixedFileData f) "data:" = true.
Proof.
  unfold fixedFileData. cbv zeta.
  set (d := if (_ && _)%bool then _ else _).
  destruct (Js.startsWith d "data:") eqn:Hd; cbn [negb];
    [exact Hd | apply starts_data_append].
Qed.

Lemma starts_data_truthy s : Js.startsWith s "data:" = true -> Js.truthy (Some s) = true.
Proof.
  intros H. destruct s; [discriminate | reflexivity].
Qed.

(** The payload of the request carries the marker [base64,] or lacks the
    prefix [data:]: the two shapes that the handler itself completes. *)
Definition plain_payload (f : FilePayload) : Prop :=
  Js.includes (Js.template (f_data f)) "base64," = true
  \/ Js.startsWith (Js.template (f_data f)) "data:" = false.

Lemma fixedFileData_well_formed f : plain_payload f -> well_formed (fixedFileData f) = true.
Proof.
  unfold plain_payload, fixedFileData. intros H.
  set (d := Js.template (f_data f)) in *.
  destruct (Js.includes d ";base64,") eqn:Hsb; cbn [negb andb].
  - destruct (Js.startsWith d "data:") eqn:Hd; cbn [negb].
    + unfold well_formed. rewrite Hd, Hsb. reflexivity.
    + apply well_formed_built.
  - destruct (Js.includes d "base64,") eqn:Hb.
    + destruct (Js.startsWith (Js.replace d "base64," ";base64,") "data:") eqn:Hd;
        cbn [negb]; [| apply well_formed_built].
      unfold well_formed. rewrite Hd, (includes_replaced d _ _ Hb). reflexivity.
    + destruct H as [H | H]; [discriminate |]. rewrite H. cbn [negb].
      apply well_formed_built.
Qed.

Lemma padding_length s : (padding s <= Js.length s)%nat.
Proof.
  induction s as [| c s IH]; [apply Nat.le_refl |].
  cbn [padding Js.length].
  destruct (Ascii.eqb c "=") eqn:Hc.
  - apply Ascii.eqb_eq in Hc. subst c.
    change (S (padding s) <= S (Js.length s))%nat. lia.
  - destruct (_ && _)%bool; [| destruct (Nat.leb 240 _)]; lia.
Qed.

Lemma round_div_zero n : (0 <= n)%Z -> Js.round_div (n * 3) 4 = 0%Z -> n = 0%Z.
Proof.
  unfold Js.round_div. intros Hn H.
  destruct (Z.eq_dec n 0) as [| Hne]; [assumption | exfalso].
  assert (H1 : (1 <= (2 * (n * 3) + 4) / (2 * 4))%Z)
    by (apply Z.div_le_lower_bound; lia).
  lia.
Qed.

Lemma round_div_nonneg n : (0 <= n)%Z -> (0 <= Js.round_div (n * 3) 4)%Z.
Proof. unfold Js.round_div. intros Hn. apply Z.div_pos; lia. Qed.

Lemma or_else_truthy a b : b <> "" -> Js.truthy (Some (Js.or_else a b)) = true.
Proof.
  intros Hb. unfold Js.or_else.
  destruct (Js.truthy a) eqn:Ha.
  - destruct a as [s |]; [exact Ha | discriminate].
  - cbn. apply negb_true_iff, String.eqb_neq. exact Hb.
Qed.

Lemma normalize_handler_file f :
  plain_payload f ->
  normalize (fields_of {| fd_name := f_name f; fd_type := f_type f;
                          fd_data := fixedFileData f; fd_size := actualFileSize f |})
  = fields_of {| fd_name := f_name f; fd_type := f_type f;
                 fd_data := fixedFileData f; fd_size := actualFileSize f |}.
Proof.
  intros Hp. unfold normalize, fields_of.
  cbn [ff_name ff_type ff_data ff_size ff_url ff_thumbnail ff_duration fd_name fd_type
       fd_data fd_size].
  pose proof (starts_data_truthy _ (fixedFileData_starts f)) as Ht.
  rewrite Ht, !orb_true_r.
  assert (Hfix : fix_field (Some (fixedFileData f)) = Some (fixedFileData f)).
  { unfold fix_field. rewrite Ht. cbn [option_map].
    rewrite (well_formed_fixed _ (fixedFileData_well_formed f Hp)). reflexivity. }
  rewrite Hfix.
  assert (Hsize : hook_size (Some (fixedFileData f)) (non_negative (Some (actualFileSize f)))
                  = Some (actualFileSize f)).
  { assert (Hnn : (0 <= actualFileSize f)%Z)
      by (apply round_div_nonneg, Nat2Z.is_nonneg).
    unfold non_negative. apply Z.leb_le in Hnn. rewrite Hnn.
    unfold hook_size. rewrite Ht. cbn [andb].
    destruct (Z.eqb (actualFileSize f) 0) eqn:H0; [| reflexivity].
    apply Z.eqb_eq in H0. rewrite H0.
    apply round_div_zero in H0; [| apply Nat2Z.is_nonneg].
    change (payload_of (fixedFileData f)) with (base64Data f).
    assert (Hl : Js.length (base64Data f) = O) by lia.
    pose proof (padding_length (base64Data f)) as Hpad.
    unfold calculatedSize. rewrite Hl in *.
    replace (padding (base64Data f)) with O by lia. reflexivity. }
  rewrite Hsize. reflexivity.
Qed.

(** X15: The message that send_message has just saved is a fixed point of the
    pre-save hook, so the stored document is the one the handler built and
    fanned out: the key is present, and when the payload of the request
    carries the marker [base64,] or lacks the prefix [data:], the data, the
    size and the other paths of [fileData] are left as the handler set them. *)
Theorem hook_keeps_sent_message cast st u env data st' events timer uuid' :
  send_message cast st u env data = (st', events, Some timer) ->
  uuid env <> "" ->
  (forall f, s_fileData data = Some f -> Js.truthy (f_data f) = true -> plain_payload f) ->
  exists saved,
    find_message st' (new_id env) = Some saved
    /\ pre_save uuid' (draft_of saved) = draft_of saved.
Proof.
  intros Hsend Hu Hp.
  destruct (send_message_saved _ _ _ _ _ _ _ _ Hsend)
    as (c & content & type & pfd & Hf & Hfind).
  exists (messageData u env data c content type pfd). split; [exact Hfind |].
  unfold pre_save, draft_of. cbn [dr_messageId dr_fileData m_messageId m_fileData messageData].
  rewrite (or_else_truthy (s_messageId data) (uuid env) Hu). f_equal.
  destruct (file_stage_cases _ _ _ _ _ _ Hf) as [[-> _] | (f & Hsome & Hd & _ & ->)].
  - reflexivity.
  - apply normalize_handler_file. apply (Hp f Hsome Hd).
Qed.

(** ** isFile, isMedia and validateFileData *)

Definition isFile (type : string) : bool :=
  existsb (String.eqb type) ["file"; "image"; "video"; "audio"]%list.

Definition isMedia (type : string) : bool :=
  existsb (String.eqb type) ["image"; "video"; "audio"]%list.

Record Validity := {
  isValid : bool;
  errors : option (list string) }.

(** [messageSchema.methods.validateFileData] for a message of the given type. *)
Definition validateFileData (type : string) (fd : FileFields) : Validity :=
  if negb (isFile type) then {| isValid := true; errors := None |}
  else
    let errors :=
      ((if Js.truthy (ff_name fd) then [] else ["File name is required"])
       ++ (if Js.truthy (ff_type fd) then [] else ["File type is required"])
       ++ (if Js.truthy (ff_data fd) then [] else ["File data is required"])
       ++ (if (Js.truthy (ff_data fd)
               && negb (Js.startsWith (Js.template (ff_data fd)) "data:"))%bool
           then ["Invalid file data format"] else [])
       ++ (match ff_size fd with
           | Some n => if (negb (Z.eqb n 0) && Z.ltb (25 * MB) n)%bool
                       then ["File size exceeds maximum limit (25MB)"] else []
           | None => []
           end))%list in
    {| isValid := match errors with [] => true | _ => false end;
       errors := Some errors |}.

Lemma classify_cases mime :
  classify mime = "image" \/ classify mime = "video" \/ classify mime = "audio"
  \/ classify mime = "file".
Proof.
  unfold classify.
  destruct (Js.startsWith mime "image/"); [auto |].
  destruct (Js.startsWith mime "video/"); [auto |].
  destruct (Js.startsWith mime "audio/"); auto.
Qed.

(** X16: A message that send_message has saved with a file whose MIME type is
    declared has the category of that type as its type: image, video or
    audio for a type that starts with "image/", "video/" or "audio/", and
    file otherwise; it is a file message, and a media message unless its
    category is 'file'. validateFileData finds its type, its data and the
    format of the data in order; what it can still report is a missing file
    name and a size above 25 MB, a limit lower than the 50 MB at which the
    handler accepts a video. *)
Theorem stored_file_validity cast st u env data st' events timer f :
  send_message cast st u env data = (st', events, Some timer) ->
  s_fileData data = Some f ->
  Js.truthy (f_data f) = true ->
  Js.truthy (f_type f) = true ->
  exists saved,
    find_message st' (new_id env) = Some saved
    /\ m_type saved = classify (Js.template (f_type f))
    /\ isFile (m_type saved) = true
    /\ isMedia (m_type saved) = negb (m_type saved =? "file")
    /\ validateFileData (m_type saved) (dr_fileData (draft_of saved))
       = {| isValid := (Js.truthy (f_name f) && Z.leb (actualFileSize f) (25 * MB))%bool;
            errors :=
              Some ((if Js.truthy (f_name f) then [] else ["File name is required"])
                    ++ (if Z.ltb (25 * MB) (actualFileSize f)
                        then ["File size exceeds maximum limit (25MB)"] else []))%list |}
    /\ (Js.startsWith (Js.template (f_type f)) "image/" = true -> m_type saved = "image")
    /\ (Js.startsWith (Js.template (f_type f)) "video/" = true -> m_type saved = "video")
    /\ (Js.startsWith (Js.template (f_type f)) "audio/" = true -> m_type saved = "audio")
    /\ (Js.startsWith (Js.template (f_type f)) "image/" = false ->
        Js.startsWith (Js.template (f_type f)) "video/" = false ->
        Js.startsWith (Js.template (f_type f)) "audio/" = false -> m_type saved = "file").
Proof.
  intros Hsend Hsome Hd Ht.
  destruct (send_message_saved _ _ _ _ _ _ _ _ Hsend)
    as (c & content & type & pfd & Hf & Hfind).
  exists (messageData u env data c content type pfd). split; [exact Hfind |].
  rewrite Hsome in Hf.
  destruct (file_stage_cases _ _ _ _ _ _ Hf) as [[_ Hno] | (f' & Hs' & _ & Htype & ->)].
  { rewrite Hd in Hno. discriminate. }
  inversion Hs'; subst f'. clear Hs'.
  cbn [m_type messageData].
  unfold messageType_of in Htype. rewrite Ht in Htype. injection Htype as ->.
  assert (Hfile : isFile (classify (Js.template (f_type f))) = true
                  /\ isMedia (classify (Js.template (f_type f)))
                     = negb (classify (Js.template (f_type f)) =? "file")).
  { destruct (classify_cases (Js.template (f_type f))) as [-> | [-> | [-> | ->]]];
      split; reflexivity. }
  destruct Hfile as [Hfile Hmedia].
  split; [reflexivity |]. split; [exact Hfile |]. split; [exact Hmedia |].
  assert (Hcategory :
    (Js.startsWith (Js.template (f_type f)) "image/" = true
     -> classify (Js.template (f_type f)) = "image")
    /\ (Js.startsWith (Js.template (f_type f)) "video/" = true
        -> classify (Js.template (f_type f)) = "video")
    /\ (Js.startsWith (Js.template (f_type f)) "audio/" = true
        -> classify (Js.template (f_type f)) = "audio")
    /\ (Js.startsWith (Js.template (f_type f)) "image/" = false ->
        Js.startsWith (Js.template (f_type f)) "video/" = false ->
        Js.startsWith (Js.template (f_type f)) "audio/" = false ->
        classify (Js.template (f_type f)) = "file")).
  { unfold classify.
    destruct (prefixes_exclusive (Js.template (f_type f))) as [Hv Ha].
    repeat split.
    - intros ->. reflexivity.
    - intros H. rewrite (Hv H), H. reflexivity.
    - intros H. destruct (Ha H) as [-> ->]. rewrite H. reflexivity.
    - intros -> -> ->. reflexivity. }
  split; [| exact Hcategory].
  unfold validateFileData, draft_of, fields_of. rewrite Hfile.
  cbn [negb dr_fileData m_fileData messageData ff_name ff_type ff_data ff_size fd_name
       fd_type fd_data fd_size Js.template].
  rewrite Ht, (starts_data_truthy _ (fixedFileData_starts f)), (fixedFileData_starts f).
  cbn [negb andb app].
  assert (Hnn : (0 <= actualFileSize f)%Z)
    by (apply round_div_nonneg, Nat2Z.is_nonneg).
  destruct (Z.ltb (25 * MB) (actualFileSize f)) eqn:Hlt.
  - assert (Hz : Z.eqb (actualFileSize f) 0 = false).
    { apply Z.eqb_neq. apply Z.ltb_lt in Hlt. unfold MB in Hlt. lia. }
    assert (Hle : Z.leb (actualFileSize f) (25 * MB) = false).
    { apply Z.leb_gt. apply Z.ltb_lt. exact Hlt. }
    rewrite Hz, Hle. cbn [negb andb].
    destruct (Js.truthy (f_name f)); reflexivity.
  - assert (Hle : Z.leb (actualFileSize f) (25 * MB) = true).
    { apply Z.leb_le. apply Z.ltb_ge. exact Hlt. }
    rewrite Hle, andb_false_r.
    destruct (Js.truthy (f_name f)); reflexivity.
Qed.


End Base64.

(** ** markAsRead and getReadStatus *)

Record ReadStatus := {
  isRead : bool;
  rs_readAt : option Z;
  rs_sessionId : option string }.

(** [messageSchema.methods.getReadStatus]. *)
Definition getReadStatus (m : Message) (userId : oid) : ReadStatus :=
  match find (fun read => rb_user read =? userId) (m_readBy m) with
  | Some readEntry =>
      {| isRead := true; rs_readAt := Some (rb_readAt readEntry);
         rs_sessionId := Some (rb_sessionId readEntry) |}
  | None => {| isRead := false; rs_readAt := None; rs_sessionId := None |}
  end.

(** [messageSchema.methods.markAsRead], the document that it saves. *)
Definition markAsRead (m : Message) (userId : oid) (sessionId : string) (now : Z) : Message :=
  match find (fun read => rb_user read =? userId) (m_readBy m) with
  | Some existingRead => m
  | None =>
      {| m_id := m_id m; m_sender := m_sender m; m_conversation := m_conversation m;
         m_content := m_content m; m_type := m_type m; m_messageId := m_messageId m;
         m_sessionId := m_sessionId m; m_fileData := m_fileData m;
         m_readBy := (m_readBy m
                      ++ [{| rb_user := userId; rb_readAt := now;
                             rb_sessionId := sessionId |}])%list;
         m_deletedFor := m_deletedFor m;
         m_isDeleted := m_isDeleted m; m_deletedAt := m_deletedAt m;
         m_deletedBy := m_deletedBy m; m_deliveryStatus := Read; m_sentAt := m_sentAt m;
         m_deliveredAt := m_deliveredAt m;
         m_readAt := match m_readAt m with Some t => Some t | None => Some now end;
         m_createdAt := m_createdAt m |}
  end.

Lemma find_read_by u m :
  read_by u m = match find (fun read => rb_user read =? u) (m_readBy m) with
                | Some _ => true
                | None => false
                end.
Proof.
  unfold read_by. induction (m_readBy m) as [| r l IH]; cbn; [reflexivity |].
  destruct (rb_user r =? u); [reflexivity | exact IH].
Qed.

Lemma find_snoc {A} (p : A -> bool) l x :
  find p (l ++ [x])%list = match find p l with
                           | Some y => Some y
                           | None => if p x then Some x else None
                           end.
Proof.
  induction l as [| a l IH]; cbn; [reflexivity |].
  destruct (p a); [reflexivity | exact IH].
Qed.

(** X17: markAsRead followed by getReadStatus: the user is read afterwards; a first
    reading is recorded with the time and the session of the call and sets
    the status to read; a repeated reading changes nothing, so the entry and
    the time of the first reading are kept; the status of other users and
    the uniqueness of the readers are not affected. *)
Theorem markAsRead_getReadStatus m u sessionId now :
  isRead (getReadStatus (markAsRead m u sessionId now) u) = true
  /\ (read_by u m = false ->
        getReadStatus (markAsRead m u sessionId now) u
        = {| isRead := true; rs_readAt := Some now; rs_sessionId := Some sessionId |}
        /\ m_deliveryStatus (markAsRead m u sessionId now) = Read)
  /\ (read_by u m = true -> markAsRead m u sessionId now = m)
  /\ (forall sessionId' now',
        markAsRead (markAsRead m u sessionId now) u sessionId' now'
        = markAsRead m u sessionId now)
  /\ (forall v, v <> u ->
        getReadStatus (markAsRead m u sessionId now) v = getReadStatus m v)
  /\ (forall t, m_readAt m = Some t -> m_readAt (markAsRead m u sessionId now) = Some t)
  /\ (unique_readers m -> unique_readers (markAsRead m u sessionId now)).
Proof.
  pose proof (find_read_by u m) as Hr.
  unfold getReadStatus, markAsRead.
  destruct (find (fun read => rb_user read =? u) (m_readBy m)) as [e |] eqn:Hf.
  - rewrite Hf. split; [reflexivity |]. split; [rewrite Hr; discriminate |].
    split; [reflexivity |]. split; [intros; reflexivity |].
    split; [reflexivity |]. split; [intros t Ht; exact Ht | intros Hu; exact Hu].
  - cbn [m_readBy m_deliveryStatus m_readAt]. rewrite !find_snoc, Hf, String.eqb_refl.
    split; [reflexivity |]. split; [intros _; split; reflexivity |].
    split; [rewrite Hr; discriminate |]. split; [reflexivity |].
    split; [| split].
    + intros v Hv.
      assert (Huv : (u =? v) = false) by (apply String.eqb_neq; congruence).
      rewrite find_snoc. cbn [rb_user]. rewrite Huv.
      destruct (find (fun read => rb_user read =? v) (m_readBy m)); reflexivity.
    + intros t Ht. rewrite Ht. reflexivity.
    + unfold unique_readers. cbn [m_readBy]. intros Hu.
      rewrite map_app. cbn [map rb_user]. apply NoDup_snoc; [exact Hu |].
      apply read_by_false_not_in. exact Hr.
Qed.

(** * Conversations, rooms and presence *)

Section Rooms.

Variable cast : string -> option oid.

Local Open Scope list_scope.

(** ** Who participates in a conversation *)

(** A conversation by its identity and its participants. *)
Definition membership (c : Conversation) : oid * list oid := (c_id c, c_participants c).

Definition memberships (st : Store) : list (oid * list oid) :=
  map membership (conversations st).

(** The conversations after some operations: the old ones with their
    participants, followed by the ones created since. *)
Definition memberships_grow (st st' : Store) : Prop :=
  exists added, memberships st' = memberships st ++ added.

Lemma memberships_same st st' :
  conversations st' = conversations st -> memberships_grow st st'.
Proof. intros H. exists []. unfold memberships. rewrite H, app_nil_r. reflexivity. Qed.

Lemma memberships_refl st : memberships_grow st st.
Proof. apply memberships_same. reflexivity. Qed.

Lemma memberships_trans st1 st2 st3 :
  memberships_grow st1 st2 -> memberships_grow st2 st3 -> memberships_grow st1 st3.
Proof.
  intros [a Ha] [b Hb]. exists (a ++ b). rewrite Hb, Ha, app_assoc. reflexivity.
Qed.

Lemma map_bump o id now cs :
  map membership (map (fun c => if c_id c =? o then bump id now c else c) cs)
  = map membership cs.
Proof.
  rewrite map_map. apply map_ext. intros c. destruct (c_id c =? o); reflexivity.
Qed.

Lemma memberships_bump st o id now :
  memberships (update_conversation st o (bump id now)) = memberships st.
Proof. unfold memberships, update_conversation. cbn. apply map_bump. Qed.

Lemma Message_insert_conversations st m st1 :
  Message_insert st m = inr st1 -> conversations st1 = conversations st.
Proof.
  intros H. destruct (Message_insert_inv _ _ _ H) as (_ & _ & ->). reflexivity.
Qed.

Lemma delete_one_conversations u env conversationId acc messageId :
  conversations (fst (fst (delete_one cast u env conversationId acc messageId)))
  = conversations (fst (fst acc)).
Proof.
  unfold delete_one. destruct acc as [[st n] l].
  destruct (Message_findById cast st messageId) as [e | [message |]]; try reflexivity.
  destruct (m_conversation message =? conversationId); [| reflexivity].
  destruct (deleteForUser message u "forMe" (now env)); reflexivity.
Qed.

Lemma delete_loop_conversations u env conversationId ids acc :
  conversations (fst (fst (fold_left (delete_one cast u env conversationId) ids acc)))
  = conversations (fst (fst acc)).
Proof.
  revert acc. induction ids as [| i ids IH]; intros acc; cbn [fold_left]; [reflexivity |].
  rewrite IH. apply delete_one_conversations.
Qed.

Lemma delete_message_conversations st u env data :
  conversations (fst (delete_message cast st u env data)) = conversations st.
Proof.
  unfold delete_message, delete_error.
  destruct (Message_findById _ _ _) as [e | [message |]]; try reflexivity.
  destruct (find _ (conversations st)) as [c |]; [| reflexivity].
  destruct (negb (is_participant u c)); [reflexivity |].
  destruct (match d_deleteType data with Some t => t =? "forEveryone" | None => false end).
  - destruct (negb (m_sender message =? u)); [reflexivity |].
    destruct (Z.ltb _ _); [reflexivity |].
    destruct (deleteForUser message u "forEveryone" (now env)); reflexivity.
  - destruct (deleteForUser message u "forMe" (now env)); reflexivity.
Qed.

Lemma delete_multiple_messages_conversations st u env data :
  conversations (fst (delete_multiple_messages cast st u env data)) = conversations st.
Proof.
  unfold delete_multiple_messages, delete_error.
  destruct (dm_messageIds data) as [[| i r] |]; try reflexivity.
  destruct (Conversation_findOne _ _ _ _) as [e | [c |]]; try reflexivity.
  pose proof (delete_loop_conversations u env (dm_conversationId data) (i :: r) (st, O, []))
    as H.
  destruct (fold_left _ (i :: r) (st, O, [])) as [[st1 n] l]. exact H.
Qed.

Lemma startConsumer_memberships env msg st :
  memberships_grow st (fst (fst (startConsumer cast env msg st))).
Proof.
  assert (H : memberships_grow st (fst (processAutoMessage_body cast env msg st))).
  { unfold processAutoMessage_body, bind, ret, throw, read, write, attempt.
    destruct msg as [| | i]; cbn [fst]; try apply memberships_refl.
    unfold AutoMessage_findById, read, ret, throw.
    destruct i as [i |]; cbn [fst]; [| apply memberships_refl].
    destruct (cast i) as [o |]; cbn [fst]; [| apply memberships_refl].
    destruct (find _ (autoMessages st)) as [a |]; cbn [fst]; [| apply memberships_refl].
    destruct (a_isSent a); cbn [fst]; [apply memberships_refl |].
    unfold id_of, ret, throw.
    destruct (find _ (users st)) as [s |]; cbn [fst]; [| apply memberships_refl].
    destruct (find (fun x => u_id x =? a_recipient a) (users st)) as [r |]; cbn [fst];
      [| apply memberships_refl].
    destruct (find_private (u_id s) (u_id r) st) as [c |]; cbn [fst].
    - destruct (Message_insert st _) as [e | st1] eqn:Hins; cbn [fst];
        [apply memberships_refl |].
      exists []. rewrite app_nil_r. unfold memberships, update_autoMessage.
      cbn [conversations set_autoMessages update_conversation set_conversations].
      rewrite map_bump, (Message_insert_conversations _ _ _ Hins). reflexivity.
    - unfold Conversation_insert.
      destruct (existsb _ (conversations st)); cbn [fst]; [apply memberships_refl |].
      destruct (Message_insert _ _) as [e | st1] eqn:Hins; cbn [fst].
      + eexists. unfold memberships. cbn [conversations set_conversations].
        rewrite map_app. reflexivity.
      + eexists. unfold memberships, update_autoMessage.
        cbn [conversations set_autoMessages update_conversation set_conversations].
        rewrite map_bump, (Message_insert_conversations _ _ _ Hins).
        cbn [conversations set_conversations]. rewrite map_app. reflexivity. }
  unfold startConsumer, processAutoMessage.
  destruct msg; cbn [fst]; try apply memberships_refl;
    destruct (processAutoMessage_body cast env _ st) as [st1 [e | events]]; exact H.
Qed.

Lemma run_op_memberships st op : memberships_grow st (run_op cast st op).
Proof.
  destruct op; cbn [run_op].
  - destruct (send_message cast st u env data) as [[st' events] timer] eqn:Hsend.
    destruct (send_message_inv cast _ _ _ _ _ _ _ Hsend) as [(-> & _) | Hok];
      [apply memberships_refl |].
    destruct Hok as (c & content & type & pfd & st1 & _ & _ & _ & Hins & -> & _).
    exists []. rewrite app_nil_r. cbn [fst]. rewrite memberships_bump.
    unfold memberships. rewrite (Message_insert_conversations _ _ _ Hins). reflexivity.
  - apply memberships_same. unfold deliver.
    destruct (find_message st (t_saved t)) as [saved |]; [| reflexivity].
    destruct (cast (t_conversationId t)); reflexivity.
  - apply memberships_same.
    destruct (mark_read_cases cast st u data) as [Hexit | Hrun].
    + rewrite (Hexit env). reflexivity.
    + destruct Hrun as (messageIds & c & ids & _ & _ & _ & _ & Hst). rewrite (Hst env).
      reflexivity.
  - apply memberships_same. reflexivity.
  - apply memberships_same. reflexivity.
  - apply memberships_same. unfold markMultipleAsRead.
    destruct (cast_all cast messageIds) as [ids |]; reflexivity.
  - apply memberships_same, delete_message_conversations.
  - apply memberships_same, delete_multiple_messages_conversations.
  - apply startConsumer_memberships.
  - apply memberships_same. reflexivity.
Qed.

Lemma run_memberships ops st : memberships_grow st (run cast ops st).
Proof.
  unfold run. revert st. induction ops as [| op ops IH]; intros st; cbn [fold_left];
    [apply memberships_refl |].
  eapply memberships_trans; [apply run_op_memberships | apply IH].
Qed.

Lemma memberships_In st st' c :
  memberships_grow st st' -> In c (conversations st) ->
  exists c', In c' (conversations st') /\ c_id c' = c_id c
             /\ c_participants c' = c_participants c.
Proof.
  intros [added H] Hin.
  assert (Hm : In (membership c) (memberships st')).
  { rewrite H. apply in_or_app. left. apply in_map. exact Hin. }
  apply in_map_iff in Hm. destruct Hm as (c' & Heq & Hin').
  inversion Heq. exists c'. auto.
Qed.

(** X18: No operation of the socket handlers, the queue consumer or the planner
    removes a conversation or changes who participates in one: after any
    sequence of them the conversations of the store are the old ones, in
    their order and with their participants, followed by the conversations
    that the consumer has opened; so a user who participates in a
    conversation keeps participating in it. *)
Theorem participants_never_change ops st :
  memberships_grow st (run cast ops st)
  /\ forall c u, In c (conversations st) -> is_participant u c = true ->
       exists c', In c' (conversations (run cast ops st)) /\ c_id c' = c_id c
                  /\ c_participants c' = c_participants c
                  /\ is_participant u c' = true.
Proof.
  split; [apply run_memberships |].
  intros c u Hin Hp.
  destruct (memberships_In _ _ c (run_memberships ops st) Hin) as (c' & Hin' & Hid & Hps).
  exists c'. repeat split; try assumption.
  unfold is_participant in *. rewrite Hps. exact Hp.
Qed.

(** ** Presence (the redis service) *)

(** The redis set [online_users], in the order of insertion. *)
Definition setUserOnline (online : list string) (userId : oid) : list string :=
  if existsb (String.eqb userId) online then online else online ++ [userId].

Definition setUserOffline (online : list string) (userId : oid) : list string :=
  filter (fun x => negb (x =? userId)) online.

Definition getOnlineUsers (online : list string) : list string := online.

Definition isUserOnline (online : list string) (userId : oid) : bool :=
  existsb (String.eqb userId) online.

(** ** The rooms of a socket *)

(** A connected socket: the user that socketAuth attached to it and the
    rooms it has joined (besides the room of its own id). *)
Record Socket := {
  sk_userId : oid;
  sk_rooms : list string;
  sk_conversationSessionId : option string;
  sk_currentConversationId : option string }.

(** [socket.join(room)]: the rooms of a socket are a set. *)
Definition join (room : string) (rooms : list string) : list string :=
  if existsb (String.eqb room) rooms then rooms else rooms ++ [room].

Inductive Broadcast :=
| UserOnline (userId : oid) (onlineCount : nat)
| NewUserJoined (userId : oid)
| UserOffline (userId : oid) (onlineCount : nat).

(** [io.on('connection', ..)] up to the registration of the handlers: the
    socket, the set of online users and the events broadcast. *)
Definition connection (st : Store) (online : list string) (userId : oid)
  : Socket * list string * list Broadcast :=
  let online1 := setUserOnline online userId in
  let onlineUsers := getOnlineUsers online1 in
  let userConversations := filter (is_participant userId) (conversations st) in
  ({| sk_userId := userId;
      sk_rooms := fold_left (fun rooms conv => join (conversation_room (c_id conv)) rooms)
                            userConversations [user_room userId];
      sk_conversationSessionId := None;
      sk_currentConversationId := None |},
   online1,
   [UserOnline userId (List.length onlineUsers); NewUserJoined userId]).

(** [socket.on('disconnect', ..)]; the [lastSeen] stamp that it writes to
    the user document is left out. *)
Definition disconnect (online : list string) (sk : Socket) : list string * list Broadcast :=
  let online1 := setUserOffline online (sk_userId sk) in
  (online1, [UserOffline (sk_userId sk) (List.length (getOnlineUsers online1))]).
















(** What a socket does to the presence of its user. *)
Inductive PresenceEvent :=
| Connected (userId : oid)
| Disconnected (userId : oid).

Definition subject (e : PresenceEvent) : oid :=
  match e with Connected u | Disconnected u => u end.

Definition presence_step (st : Store) (online : list string) (e : PresenceEvent)
  : list string :=
  match e with
  | Connected u => snd (fst (connection st online u))
  | Disconnected u =>
      fst (disconnect online {| sk_userId := u; sk_rooms := [];
                                sk_conversationSessionId := None;
                                sk_currentConversationId := None |})
  end.

Definition presence (st : Store) (online : list string) (trace : list PresenceEvent)
  : list string :=
  fold_left (presence_step st) trace online.

Lemma presence_step_other st online e v :
  v <> subject e -> isUserOnline (presence_step st online e) v = isUserOnline online v.
Proof.
  intros Hv. unfold isUserOnline.
  destruct e as [u | u]; cbn [presence_step connection disconnect fst snd subject sk_userId] in *.
  - unfold setUserOnline. destruct (existsb (String.eqb u) online); [reflexivity |].
    rewrite existsb_app. cbn.
    assert (H : (v =? u) = false) by (apply String.eqb_neq; exact Hv).
    rewrite H, !orb_false_r. reflexivity.
  - unfold setUserOffline. induction online as [| x l IH]; cbn; [reflexivity |].
    destruct (x =? u) eqn:Hx; cbn.
    + apply String.eqb_eq in Hx. subst x.
      assert (H : (v =? u) = false) by (apply String.eqb_neq; exact Hv).
      rewrite H. exact IH.
    + rewrite IH. reflexivity.
Qed.

Lemma presence_snoc st online trace e :
  presence st online (trace ++ [e]) = presence_step st (presence st online trace) e.
Proof. unfold presence. rewrite fold_left_app. reflexivity. Qed.

(** X20: Presence is kept per user, not per socket: the user whose socket
    connected last is online, the user whose socket disconnected last is
    offline, however many other sockets of that user are still connected,
    and the event of one user does not change the presence of another; the
    set of online users holds no user twice. *)
Theorem presence_follows_last_event st online trace u :
  isUserOnline (presence st online (trace ++ [Connected u])) u = true
  /\ isUserOnline (presence st online (trace ++ [Disconnected u])) u = false
  /\ (forall e v, v <> subject e ->
        isUserOnline (presence st online (trace ++ [e])) v
        = isUserOnline (presence st online trace) v)
  /\ (NoDup online -> NoDup (presence st online trace)).
Proof.
  rewrite !presence_snoc. set (now_online := presence st online trace).
  split; [| split; [| split]].
  - unfold isUserOnline. cbn [presence_step connection fst snd]. unfold setUserOnline.
    destruct (existsb (String.eqb u) now_online) eqn:He; [exact He |].
    rewrite existsb_app. cbn. rewrite String.eqb_refl. apply orb_true_r.
  - unfold isUserOnline. cbn [presence_step disconnect fst sk_userId].
    unfold setUserOffline.
    destruct (existsb (String.eqb u) (filter (fun x => negb (x =? u)) now_online)) eqn:He;
      [| reflexivity].
    apply existsb_exists in He. destruct He as (x & Hx & Hux).
    apply filter_In in Hx. destruct Hx as [_ Hx]. apply String.eqb_eq in Hux. subst x.
    rewrite String.eqb_refl in Hx. discriminate.
  - intros e v Hv. rewrite presence_snoc. apply presence_step_other. exact Hv.
  - subst now_online. unfold presence. revert online.
    induction trace as [| e trace IH]; intros online Hn; cbn [fold_left]; [exact Hn |].
    apply IH. destruct e as [w | w];
      cbn [presence_step connection disconnect fst snd sk_userId].
    + unfold setUserOnline. destruct (existsb (String.eqb w) online) eqn:He; [exact Hn |].
      apply NoDup_snoc; [exact Hn |]. intros Hin.
      assert (existsb (String.eqb w) online = true)
        by (apply existsb_exists; exists w; split; [exact Hin | apply String.eqb_refl]).
      congruence.
    + unfold setUserOffline. apply NoDup_filter. exact Hn.
Qed.


End Rooms.

(** * The further properties on the sample deployment *)

(** ** A base64 decoder *)

(** [atob] as the platform specifies it (forgiving-base64 decode): ASCII
    white space is ignored, one or two characters of padding are accepted on
    a length that is a multiple of four, and a character outside the
    alphabet or a length of 4n + 1 makes it throw. *)
Module Base64Decoder.

Definition value (c : ascii) : option N :=
  let n := N_of_ascii c in
  if (N.leb 65 n && N.leb n 90)%bool then Some (n - 65)%N
  else if (N.leb 97 n && N.leb n 122)%bool then Some (n - 71)%N
  else if (N.leb 48 n && N.leb n 57)%bool then Some (n + 4)%N
  else if N.eqb n 43 then Some 62%N
  else if N.eqb n 47 then Some 63%N
  else None.

Fixpoint values (l : list ascii) : option (list N) :=
  match l with
  | [] => Some []
  | c :: r =>
      match value c, values r with
      | Some v, Some vs => Some (v :: vs)
      | _, _ => None
      end
  end%list.

Fixpoint bytes_of (v : list N) : list N :=
  match v with
  | a :: b :: c :: d :: r =>
      let n := (a * 262144 + b * 4096 + c * 64 + d)%N in
      (n / 65536)%N :: ((n / 256) mod 256)%N :: (n mod 256)%N :: bytes_of r
  | [a; b; c] =>
      let n := ((a * 4096 + b * 64 + c) / 4)%N in
      [(n / 256)%N; (n mod 256)%N]
  | [a; b] => [((a * 64 + b) / 16)%N]
  | _ => []
  end%list.

Definition is_whitespace (c : ascii) : bool :=
  existsb (N.eqb (N_of_ascii c)) [9; 10; 12; 13; 32]%N%list.

Definition strip_padding (l : list ascii) : list ascii :=
  if Nat.eqb (List.length l mod 4) 0
  then match rev l with
       | "="%char :: "="%char :: r => rev r
       | "="%char :: r => rev r
       | _ => l
       end%list
  else l.

Definition atob (s : string) : option (list N) :=
  let l := strip_padding (filter (fun c => negb (is_whitespace c)) (list_ascii_of_string s)) in
  if Nat.eqb (List.length l mod 4) 1 then None else option_map bytes_of (values l).

End Base64Decoder.

Example atob_ex :
  Base64Decoder.atob "QUJD" = Some [65; 66; 67]%N%list
  /\ Base64Decoder.atob "QUI=" = Some [65; 66]%N%list
  /\ Base64Decoder.atob "QQ" = Some [65]%N%list
  /\ Base64Decoder.atob "QUJDR" = None
  /\ Base64Decoder.atob "QU*D" = None.
Proof. repeat split. Qed.

(** A bare payload is given the type that its first bytes show, a data URL
    without the marker is given the marker, and a complete one is kept. *)
Example fixBase64Format_ex :
  fixBase64Format Base64Decoder.atob "iVBORw0KGgoAAAANSUhEUgAA"
  = "data:image/png;base64,iVBORw0KGgoAAAANSUhEUgAA"
  /\ fixBase64Format Base64Decoder.atob "/9j/4AAQSkZJRgABAQ=="
     = "data:image/jpeg;base64,/9j/4AAQSkZJRgABAQ=="
  /\ fixBase64Format Base64Decoder.atob "R0lGODlhAQABAAAAACw="
     = "data:image/gif;base64,R0lGODlhAQABAAAAACw="
  /\ fixBase64Format Base64Decoder.atob "UklGRiQAAABXRUJQVlA4"
     = "data:image/webp;base64,UklGRiQAAABXRUJQVlA4"
  /\ fixBase64Format Base64Decoder.atob "QUJDRA=="
     = "data:application/octet-stream;base64,QUJDRA=="
  /\ fixBase64Format Base64Decoder.atob "data:image/pngbase64,QUJD"
     = "data:image/png;base64,QUJD"
  /\ fixBase64Format Base64Decoder.atob "data:text/plain,QUJD"
     = "data:text/plain;base64,QUJD"
  /\ fixBase64Format Base64Decoder.atob "data:image/png;base64,QUJD"
     = "data:image/png;base64,QUJD"
  /\ fixBase64Format Base64Decoder.atob "data:nothing" = "data:nothing".
Proof. vm_compute. repeat split. Qed.

(** ** Sending, reading and deleting *)

Definition hi_events : list emit :=
  snd (fst (send_message Sample.cast Sample.store0 Sample.alice
              (Sample.env_at 1000 Sample.msg1 "uuid-1") (Sample.text (Some "m1") "hi"))).

Lemma send_then_find_witness :
  send_message Sample.cast Sample.store0 Sample.alice
    (Sample.env_at 1000 Sample.msg1 "uuid-1") (Sample.text (Some "m1") "hi")
  = (Sample.store1, hi_events, Some Sample.timer1)
  /\ exists saved,
       find_message Sample.store1 Sample.msg1 = Some saved
       /\ m_sender saved = Sample.alice /\ m_deliveryStatus saved = Sent.
Proof.
  split; [reflexivity |].
  destruct (send_then_find Sample.cast Sample.store0 Sample.alice
              (Sample.env_at 1000 Sample.msg1 "uuid-1") (Sample.text (Some "m1") "hi")
              Sample.store1 hi_events Sample.timer1 eq_refl)
    as (saved & c & _ & Hfind & Hsender & _ & Hstatus & _).
  exists saved. split; [exact Hfind |]. split; [exact Hsender | exact Hstatus].
Defined.

Lemma send_raises_unread_witness :
  getUnreadCount Sample.store0 Sample.room1 Sample.bob = 0%nat
  /\ getUnreadCount Sample.store1 Sample.room1 Sample.bob = 1%nat
  /\ getUnreadCount Sample.store1 Sample.room1 Sample.alice = 0%nat.
Proof.
  destruct (send_raises_unread Sample.cast Sample.store0 Sample.alice
              (Sample.env_at 1000 Sample.msg1 "uuid-1") (Sample.text (Some "m1") "hi")
              Sample.store1 hi_events Sample.timer1 eq_refl)
    as (c & Hc & _ & Hother & Hself & _).
  assert (Hid : c_id c = Sample.room1) by (vm_compute in Hc; inversion Hc; reflexivity).
  rewrite Hid in *.
  split; [reflexivity |]. split.
  - rewrite (Hother Sample.bob); [reflexivity | discriminate].
  - rewrite Hself. reflexivity.
Defined.

Lemma mark_read_clears_unread_witness :
  Conversation_findOne Sample.cast Sample.store1 Sample.room1 Sample.bob
  = inr (Some room1_bumped)
  /\ unread_count Sample.store1 Sample.alice Sample.room1 Sample.bob = 1%nat
  /\ unread_count (fst (mark_messages_read Sample.cast Sample.store1 Sample.bob
                          (Sample.env_at 1050 Sample.msg2 "uuid-2") Sample.read1))
                  Sample.alice Sample.room1 Sample.bob = 0%nat.
Proof.
  assert (Hc : Conversation_findOne Sample.cast Sample.store1 Sample.room1 Sample.bob
               = inr (Some room1_bumped)) by reflexivity.
  destruct (mark_read_clears_unread Sample.cast Sample.store1 Sample.bob
              (Sample.env_at 1050 Sample.msg2 "uuid-2") Sample.read1 room1_bumped
              [Sample.msg1] [Sample.msg1] eq_refl eq_refl eq_refl Hc)
    as (_ & Hall & _).
  split; [exact Hc |]. split; [reflexivity |].
  apply (Hall Sample.alice). intros m Hm _ _.
  destruct Hm as [<- | []]. left. reflexivity.
Defined.

Lemma no_keys : keys_unique Sample.store0.
Proof. split; constructor. Qed.

Lemma keys_stay_unique_witness :
  keys_unique Sample.store0
  /\ keys_unique
       (run Sample.cast
          [OpSend Sample.alice (Sample.env_at 1000 Sample.msg1 "uuid-1")
                  (Sample.text (Some "m1") "hi");
           OpSend Sample.bob (Sample.env_at 1500 Sample.msg2 "uuid-2")
                  (Sample.text (Some "m1") "hello");
           OpMarkRead Sample.bob (Sample.env_at 1600 Sample.msg2 "uuid-3") Sample.read1]%list
          Sample.store0).
Proof.
  split; [exact no_keys | apply (keys_stay_unique Sample.cast _ _ no_keys)].
Defined.

Lemma delete_for_me_is_private_witness :
  for_me (Sample.delete1 "forMe")
  /\ Message_findById Sample.cast Sample.store1 Sample.msg1 = inr (Some saved1)
  /\ is_participant Sample.bob room1_bumped = true
  /\ snd (delete_message Sample.cast Sample.store1 Sample.bob
            (Sample.env_at 2000 Sample.msg2 "uuid-2") (Sample.delete1 "forMe"))
     = [(ToSocket, EvMessageDeletedForMe Sample.msg1 2000)]%list
  /\ map (fun m => map df_user (m_deletedFor m))
         (messages (fst (delete_message Sample.cast Sample.store1 Sample.bob
                           (Sample.env_at 2000 Sample.msg2 "uuid-2")
                           (Sample.delete1 "forMe"))))
     = [[Sample.bob]]%list.
Proof.
  assert (Hf : for_me (Sample.delete1 "forMe")) by reflexivity.
  assert (Hm : Message_findById Sample.cast Sample.store1 Sample.msg1 = inr (Some saved1))
    by reflexivity.
  assert (Hp : is_participant Sample.bob room1_bumped = true) by reflexivity.
  destruct (delete_for_me_is_private Sample.cast Sample.store1 Sample.bob
              (Sample.env_at 2000 Sample.msg2 "uuid-2") (Sample.delete1 "forMe")
              saved1 room1_bumped Hf Hm eq_refl Hp)
    as (Hevents & _).
  split; [exact Hf |]. split; [exact Hm |]. split; [exact Hp |].
  split; [exact Hevents | reflexivity].
Defined.

Lemma no_deleters : deleters_unique Sample.store0.
Proof. constructor. Qed.

Lemma deleters_stay_unique_witness :
  keys_unique Sample.store0 /\ deleters_unique Sample.store0
  /\ deleters_unique
       (run Sample.cast
          [OpSend Sample.alice (Sample.env_at 1000 Sample.msg1 "uuid-1")
                  (Sample.text (Some "m1") "hi");
           OpDelete Sample.bob (Sample.env_at 2000 Sample.msg2 "uuid-2")
                    (Sample.delete1 "forMe");
           OpDeleteMultiple Sample.bob (Sample.env_at 2100 Sample.msg2 "uuid-3") bulk1;
           OpDelete Sample.bob (Sample.env_at 2200 Sample.msg2 "uuid-4")
                    (Sample.delete1 "forMe")]%list
          Sample.store0).
Proof.
  split; [exact no_keys |]. split; [exact no_deleters |].
  apply (deleters_stay_unique Sample.cast _ _ no_keys no_deleters).
Defined.

(** ** The automated messages *)

Definition alice_doc : User :=
  {| u_id := Sample.alice; u_username := "alice"; u_isActive := true |}.

Definition bob_doc : User :=
  {| u_id := Sample.bob; u_username := "bob"; u_isActive := true |}.

Lemma auto1_deliverable :
  deliverable Sample.cast Sample.store_queue Sample.auto1
              (Sample.planned_by Sample.auto1 Sample.alice false) alice_doc bob_doc.
Proof.
  split; [exists Sample.auto1; split; reflexivity |].
  split; [reflexivity |]. split; reflexivity.
Qed.

Lemma auto1_can_store :
  can_store Sample.store_queue Sample.queue_env
            (Sample.planned_by Sample.auto1 Sample.alice false) alice_doc bob_doc.
Proof.
  split; [intros H; vm_compute in H; discriminate |].
  split; [apply Nat.leb_le; reflexivity |].
  split; [intros x [] |].
  intros H. vm_compute in H. discriminate.
Qed.

Lemma consumer_delivers_once_witness :
  deliverable Sample.cast Sample.store_queue Sample.auto1
              (Sample.planned_by Sample.auto1 Sample.alice false) alice_doc bob_doc
  /\ can_store Sample.store_queue Sample.queue_env
               (Sample.planned_by Sample.auto1 Sample.alice false) alice_doc bob_doc
  /\ snd (startConsumer Sample.cast Sample.queue_env (JsonValue (Some Sample.auto1))
                        Sample.store_queue) = Ack
  /\ map m_content
         (messages (fst (fst (startConsumer Sample.cast Sample.queue_env
                                (JsonValue (Some Sample.auto1)) Sample.store_queue))))
     = [a_content (Sample.planned_by Sample.auto1 Sample.alice false)]%list.
Proof.
  destruct (consumer_delivers_once Sample.cast Sample.store_queue Sample.queue_env
              Sample.auto1 (Sample.planned_by Sample.auto1 Sample.alice false)
              alice_doc bob_doc auto1_deliverable auto1_can_store)
    as (st' & c & Hrun & Hmessages & _).
  split; [exact auto1_deliverable |]. split; [exact auto1_can_store |].
  unfold oid in *. rewrite Hrun. cbn [fst snd]. split; [reflexivity |].
  rewrite Hmessages. vm_compute. reflexivity.
Defined.

Lemma sample_users_distinct :
  NoDup (map u_id (filter u_isActive (users Sample.store0))).
Proof.
  repeat (constructor; [cbn; intuition discriminate |]). constructor.
Qed.

Lemma planner_pairs_distinct_witness :
  fair (p_random Sample.plan_env)
  /\ NoDup (map u_id (filter u_isActive (users Sample.store0)))
  /\ map (fun a => (a_sender a, a_recipient a)) (planned Sample.plan_env Sample.store0)
     = [(Sample.alice, Sample.carol)]%list
  /\ Forall (fun a => a_sender a <> a_recipient a) (planned Sample.plan_env Sample.store0).
Proof.
  destruct (planner_pairs_distinct Sample.plan_env Sample.store0 sample_random_fair
              sample_users_distinct) as (_ & Hdiffer & _).
  split; [exact sample_random_fair |]. split; [exact sample_users_distinct |].
  split; [vm_compute; reflexivity | exact Hdiffer].
Defined.

(** An AutoMessage from alice to bob that is planned for [sendDate] and not
    yet queued. *)
Definition pending (id : oid) (sendDate : Z) : AutoMessage :=
  {| a_id := id; a_sender := Sample.alice; a_recipient := Sample.bob;
     a_content := "Selam!"; a_sendDate := sendDate; a_isQueued := false; a_isSent := false;
     a_queuedAt := None; a_sentAt := None; a_conversation := None |}.

(** One AutoMessage that is due at time 1000 and one that is not. *)
Definition store_pending : Store :=
  set_autoMessages Sample.store0 [pending Sample.auto1 500; pending Sample.auto2 5000]%list.

Definition open_broker : Broker := {| channel_open := true; queue := []%list |}.

Definition closed_broker : Broker := {| channel_open := false; queue := []%list |}.

Lemma queuer_publishes_due_once_witness :
  channel_open open_broker = true
  /\ queue (snd (processQueuedMessages 1000 store_pending open_broker))
     = [JsonValue (Some Sample.auto1)]%list
  /\ map a_isQueued (autoMessages (fst (processQueuedMessages 1000 store_pending open_broker)))
     = [true; false]%list.
Proof.
  pose proof (queuer_publishes_due_once 1000 store_pending open_broker eq_refl) as H.
  destruct (processQueuedMessages 1000 store_pending open_broker) as [st1 b1] eqn:Hrun.
  destruct H as (Hqueue & _).
  split; [reflexivity |]. cbn [fst snd]. split; [rewrite Hqueue; reflexivity |].
  vm_compute in Hrun. inversion Hrun. reflexivity.
Defined.

Lemma queuer_flags_without_publishing_witness :
  channel_open closed_broker = false
  /\ snd (processQueuedMessages 1000 store_pending closed_broker) = closed_broker
  /\ map a_isQueued
         (autoMessages (fst (processQueuedMessages 1000 store_pending closed_broker)))
     = [true; false]%list.
Proof.
  pose proof (queuer_flags_without_publishing 1000 store_pending closed_broker eq_refl) as H.
  destruct (processQueuedMessages 1000 store_pending closed_broker) as [st1 b1] eqn:Hrun.
  destruct H as (Hsame & _).
  split; [reflexivity |]. cbn [fst snd]. split; [exact Hsame |].
  vm_compute in Hrun. inversion Hrun. reflexivity.
Defined.

Lemma pending_ids_distinct : NoDup (map a_id (autoMessages store_pending)).
Proof.
  repeat (constructor; [cbn; intuition discriminate |]). constructor.
Qed.

Lemma pending_ids_cast a :
  In a (autoMessages store_pending) -> Sample.cast (a_id a) = Some (a_id a).
Proof. intros [<- | [<- | []]]; reflexivity. Qed.

Lemma queued_items_are_deliverable_witness :
  channel_open open_broker = true
  /\ NoDup (map a_id (autoMessages store_pending))
  /\ In (JsonValue (Some Sample.auto1))
        (skipn (List.length (queue open_broker))
               (queue (snd (processQueuedMessages 1000 store_pending open_broker))))
  /\ exists a,
       a_id a = Sample.auto1 /\ due 1000 a = true
       /\ deliverable Sample.cast
            (fst (processQueuedMessages 1000 store_pending open_broker))
            (a_id a) (set_queued 1000 a) alice_doc bob_doc.
Proof.
  assert (Hin : In (JsonValue (Some Sample.auto1))
                   (skipn (List.length (queue open_broker))
                          (queue (snd (processQueuedMessages 1000 store_pending
                                         open_broker)))))
    by (left; reflexivity).
  destruct (queued_items_are_deliverable Sample.cast 1000 store_pending open_broker
              (JsonValue (Some Sample.auto1)) eq_refl pending_ids_distinct
              pending_ids_cast Hin)
    as (a & Hitem & Ha & Hdue & Hdeliverable).
  split; [reflexivity |]. split; [exact pending_ids_distinct |]. split; [exact Hin |].
  destruct Ha as [<- | [<- | []]]; [| vm_compute in Hitem; discriminate Hitem].
  exists (pending Sample.auto1 500). split; [reflexivity |]. split; [exact Hdue |].
  apply Hdeliverable; reflexivity.
Defined.

(** ** Files *)

Definition cat_png : FilePayload := Sample.file (Some " cat.png ") "image/png" 8.

Definition cat_events : list emit :=
  snd (fst (send_message Sample.cast Sample.store0 Sample.alice
              (Sample.env_at 1000 Sample.msg1 "uuid-1") small_upload)).

Definition cat_timer : Timer :=
  {| t_saved := Sample.msg1; t_messageId := "m2"; t_sender := Sample.alice;
     t_conversationId := Sample.room1; t_participants := [Sample.alice; Sample.bob]%list |}.

Definition store_cat : Store :=
  fst (fst (send_message Sample.cast Sample.store0 Sample.alice
              (Sample.env_at 1000 Sample.msg1 "uuid-1") small_upload)).

Lemma cat_sent :
  send_message Sample.cast Sample.store0 Sample.alice
    (Sample.env_at 1000 Sample.msg1 "uuid-1") small_upload
  = (store_cat, cat_events, Some cat_timer).
Proof. vm_compute. reflexivity. Qed.

Lemma pre_save_idempotent_witness :
  "uuid-1" <> ""
  /\ pre_save Base64Decoder.atob "uuid-2"
       (pre_save Base64Decoder.atob "uuid-1"
          {| dr_messageId := None;
             dr_fileData := {| ff_name := Some "a.png"; ff_type := None; ff_size := Some (-1)%Z;
                               ff_data := Some "iVBORw0KGgo="; ff_url := None;
                               ff_thumbnail := None; ff_duration := None |} |})
     = {| dr_messageId := Some "uuid-1";
          dr_fileData := {| ff_name := Some "a.png"; ff_type := None; ff_size := Some 8%Z;
                            ff_data := Some "data:image/png;base64,iVBORw0KGgo=";
                            ff_url := None; ff_thumbnail := None; ff_duration := None |} |}.
Proof.
  assert (Hu : "uuid-1" <> "") by discriminate.
  split; [exact Hu |].
  rewrite (proj1 (pre_save_idempotent Base64Decoder.atob "uuid-1" "uuid-2" _ Hu)).
  vm_compute. reflexivity.
Defined.

Lemma cat_payload_plain f :
  s_fileData small_upload = Some f -> Js.truthy (f_data f) = true -> plain_payload f.
Proof. intros H _. inversion H. left. vm_compute. reflexivity. Qed.

Lemma hook_keeps_sent_message_witness :
  uuid (Sample.env_at 1000 Sample.msg1 "uuid-1") <> ""
  /\ exists saved,
       find_message store_cat Sample.msg1 = Some saved
       /\ pre_save Base64Decoder.atob "uuid-2" (draft_of saved) = draft_of saved.
Proof.
  assert (Hu : uuid (Sample.env_at 1000 Sample.msg1 "uuid-1") <> "") by discriminate.
  split; [exact Hu |].
  apply (hook_keeps_sent_message Base64Decoder.atob Sample.cast Sample.store0 Sample.alice
           (Sample.env_at 1000 Sample.msg1 "uuid-1") small_upload store_cat cat_events
           cat_timer "uuid-2" cat_sent Hu cat_payload_plain).
Defined.

Lemma stored_file_validity_witness :
  s_fileData small_upload = Some cat_png
  /\ exists saved,
       find_message store_cat Sample.msg1 = Some saved
       /\ m_type saved = "image"
       /\ isValid (validateFileData (m_type saved) (dr_fileData (draft_of saved))) = true.
Proof.
  destruct (stored_file_validity Sample.cast Sample.store0 Sample.alice
              (Sample.env_at 1000 Sample.msg1 "uuid-1") small_upload store_cat cat_events
              cat_timer cat_png cat_sent eq_refl eq_refl eq_refl)
    as (saved & Hfind & _ & _ & _ & Hvalid & Himage & _).
  split; [reflexivity |]. exists saved. split; [exact Hfind |].
  split; [exact (Himage eq_refl) |]. rewrite Hvalid. reflexivity.
Defined.
